(** * Figma to HTML/CSS converter: a shallow embedding of [figma_to_html.py]

    The development has five parts.

    - [Py]: the fragment of the Python runtime the converter relies on:
      exceptions, the numeric tower restricted to [int] and [float]
      (binary64, through Rocq's primitive floats), [str()] of numbers,
      the format specifications [.1f] and [02x], and a few methods of
      [str], [list] and [dict].
    - The data model: the JSON documents of the Figma REST API as
      [json.loads] hands them over, typed: a number is an [int] or a
      [float], an object is a record whose optional keys are [option]
      fields. Values of another type than the API documents (a string
      where a number belongs, [null]) are outside the model.
    - The converter: [Color], the style resolvers, the recursive tree
      walk [node_to_html], the collectors [find_frames] and
      [collect_image_nodes], the page assembly [build_complete_html]
      and the driver [generate_html] with its two requests to the API,
      method by method. [math.atan2], the interpreter's recursion
      limit, the order in which a set is iterated and the network
      ([requests.get], which answers or raises) are parameters.
    - Specification-level definitions, written from the wording of the
      design document, the notions the further properties are stated
      with, and sample inputs.
    - The theorems, which compare the two, followed by further
      properties of the methods: what the walk does to the converter
      state, how elements are placed and nested, strokes, effects, text
      styles, image nodes, the page, the driver and the exceptions. *)

From Stdlib Require Import ZArith Lia Bool List String Ascii.
From Stdlib Require DecimalString HexadecimalString HexadecimalN.
From Stdlib Require Import Floats.
Import ListNotations.

Local Open Scope string_scope.
Local Open Scope Z_scope.

(* ================================================================== *)
(** * The Python runtime fragment *)
(* ================================================================== *)

Module Py.

(** ** Exceptions and results *)

Inductive exn : Type :=
| ValueError
| OverflowError
| IndexError
| KeyError
| RecursionError.

Inductive result (A : Type) : Type :=
| Ok (a : A)
| Raise (e : exn).

Arguments Ok {A} a.
Arguments Raise {A} e.

Definition bind {A B : Type} (m : result A) (k : A -> result B) : result B :=
  match m with
  | Ok a => k a
  | Raise e => Raise e
  end.

(** ** Numbers: [int] is unbounded, [float] is IEEE 754 binary64 *)

Inductive num : Type :=
| PInt (z : Z)
| PFloat (f : float).

(** [float(z)]: correctly rounded (ties to even); CPython raises
    [OverflowError] when the rounded value does not fit a double. *)
Definition float_of_int (z : Z) : result float :=
  match binary_normalize prec emax z 0 false with
  | S754_infinity _ => Raise OverflowError
  | S754_nan => Raise OverflowError
  | sf => Ok (SF2Prim sf)
  end.

Definition to_float (n : num) : result float :=
  match n with
  | PInt z => float_of_int z
  | PFloat f => Ok f
  end.

(** Binary arithmetic: [int op int] stays exact, any [float] operand
    coerces the other one to [float] first. *)
Definition arith (zop : Z -> Z -> Z) (fop : float -> float -> float)
           (a b : num) : result num :=
  match a, b with
  | PInt x, PInt y => Ok (PInt (zop x y))
  | _, _ =>
      bind (to_float a) (fun fa =>
      bind (to_float b) (fun fb =>
      Ok (PFloat (fop fa fb))))
  end.

Definition sub : num -> num -> result num := arith Z.sub PrimFloat.sub.
Definition mul : num -> num -> result num := arith Z.mul PrimFloat.mul.

(** The magnitude of a finite float is [m * 2^e]; [scale_cmp] compares
    an integer [z] with [m * 2^e] exactly, as CPython does for mixed
    [int]/[float] comparisons. *)
Definition scale_cmp (z : Z) (m : Z) (e : Z) : comparison :=
  if e <? 0 then Z.compare (z * 2 ^ (- e)) m
  else Z.compare z (m * 2 ^ e).

Definition signed (s : bool) (m : positive) : Z :=
  if s then Z.neg m else Z.pos m.

(** [cmp_int_float z f]: [None] when [f] is a NaN (unordered). *)
Definition cmp_int_float (z : Z) (f : float) : option comparison :=
  match Prim2SF f with
  | S754_nan => None
  | S754_zero _ => Some (Z.compare z 0)
  | S754_infinity s => Some (if s then Gt else Lt)
  | S754_finite s m e => Some (scale_cmp z (signed s m) e)
  end.

Definition eqb (a b : num) : bool :=
  match a, b with
  | PInt x, PInt y => Z.eqb x y
  | PFloat x, PFloat y => PrimFloat.eqb x y
  | PInt x, PFloat y =>
      match cmp_int_float x y with Some Eq => true | _ => false end
  | PFloat x, PInt y =>
      match cmp_int_float y x with Some Eq => true | _ => false end
  end.

Definition ltb (a b : num) : bool :=
  match a, b with
  | PInt x, PInt y => Z.ltb x y
  | PFloat x, PFloat y => PrimFloat.ltb x y
  | PInt x, PFloat y =>
      match cmp_int_float x y with Some Lt => true | _ => false end
  | PFloat x, PInt y =>
      match cmp_int_float y x with Some Gt => true | _ => false end
  end.

Definition leb (a b : num) : bool :=
  match a, b with
  | PInt x, PInt y => Z.leb x y
  | PFloat x, PFloat y => PrimFloat.leb x y
  | PInt x, PFloat y =>
      match cmp_int_float x y with Some (Lt | Eq) => true | _ => false end
  | PFloat x, PInt y =>
      match cmp_int_float y x with Some (Gt | Eq) => true | _ => false end
  end.

(** [int(x)]: truncation toward zero; NaN and the infinities raise. *)
Definition trunc_float (f : float) : result Z :=
  match Prim2SF f with
  | S754_nan => Raise ValueError
  | S754_infinity _ => Raise OverflowError
  | S754_zero _ => Ok 0
  | S754_finite s m e =>
      let a := if e <? 0 then Z.pos m / 2 ^ (- e) else Z.pos m * 2 ^ e in
      Ok (if s then - a else a)
  end.

Definition int_of (n : num) : result Z :=
  match n with
  | PInt z => Ok z
  | PFloat f => trunc_float f
  end.

(** ** Decimal and hexadecimal rendering of integers *)

Definition str_int (z : Z) : string :=
  DecimalString.NilZero.string_of_int (Z.to_int z).

Definition hex_nat (z : Z) : string :=
  HexadecimalString.NilZero.string_of_uint (N.to_hex_uint (Z.to_N z)).

Fixpoint repeat_char (c : ascii) (n : nat) : string :=
  match n with
  | O => EmptyString
  | S n' => String c (repeat_char c n')
  end.

Definition zfill (width : nat) (s : string) : string :=
  repeat_char "0"%char (width - String.length s) ++ s.

(** [format(z, "02x")]: lower-case hexadecimal, zero-padded to width 2,
    the sign (if any) counted in the width and written first. *)
Definition format_02x (z : Z) : string :=
  if z <? 0 then "-" ++ zfill 1 (hex_nat (- z))
  else zfill 2 (hex_nat z).

(** ** Rendering of floats *)

(** [cmp_dec_bin d k x e] compares [d * 10^k] with [x * 2^e]
    (for non-negative [d] and [x]) by cross-multiplication. *)
Definition cmp_dec_bin (d k x e : Z) : comparison :=
  Z.compare (d * 10 ^ (Z.max k 0) * 2 ^ (Z.max (- e) 0))
            (x * 2 ^ (Z.max e 0) * 10 ^ (Z.max (- k) 0)).

(** [floor (m * 2^e / 10^k)]. *)
Definition floor_dec (m e k : Z) : Z :=
  (m * 2 ^ (Z.max e 0) * 10 ^ (Z.max (- k) 0))
  / (2 ^ (Z.max (- e) 0) * 10 ^ (Z.max k 0)).

(** The decimal point position of [m * 2^e]: the [p] with
    [10^(p-1) <= m * 2^e < 10^p]. *)
Definition decimal_point (m e : Z) : Z :=
  let est := ((Z.log2 m + e) * 30103) / 100000 in
  if cmp_dec_bin 1 (est - 1) m e is Gt then est - 1
  else if cmp_dec_bin 1 est m e is Gt then est
  else if cmp_dec_bin 1 (est + 1) m e is Gt then est + 1
  else est + 2.

(** Does the decimal [d * 10^k] read back as the double [m * 2^e]?
    It does when it lies between the midpoints to the two neighbouring
    doubles (bounds included when [m] is even: ties go to even). The
    bounds are counted in quarters of a unit in the last place. *)
Definition reads_back (m e d k : Z) : bool :=
  let low := if (m =? 2 ^ 52) && (-1074 <? e) then 4 * m - 1 else 4 * m - 2 in
  let high := 4 * m + 2 in
  let above :=
    match cmp_dec_bin d k low (e - 2) with
    | Gt => true | Eq => Z.even m | Lt => false
    end in
  let below :=
    match cmp_dec_bin d k high (e - 2) with
    | Lt => true | Eq => Z.even m | Gt => false
    end in
  above && below.

(** The best decimal with the digits scaled by [10^k]: the nearer of
    the two that bracket [m * 2^e], provided it reads back. *)
Definition candidate (m e k : Z) : option Z :=
  let lo := floor_dec m e k in
  let hi := lo + 1 in
  let pick_lo :=
    match cmp_dec_bin (2 * lo + 1) k (2 * m) e with
    | Gt => true | Eq => Z.even lo | Lt => false
    end in
  let first := if pick_lo then lo else hi in
  let second := if pick_lo then hi else lo in
  if reads_back m e first k then Some first
  else if reads_back m e second k then Some second
  else None.

(** Shortest digits: try 1, 2, ... significant digits. *)
Fixpoint shortest (fuel : nat) (m e p n : Z) : Z * Z :=
  match fuel with
  | O => (floor_dec m e (p - n), p - n)
  | S fuel' =>
      match candidate m e (p - n) with
      | Some d => (d, p - n)
      | None => shortest fuel' m e p (n + 1)
      end
  end.

Fixpoint strip_zeros_rev (s : list ascii) : list ascii :=
  match s with
  | "0"%char :: s' => strip_zeros_rev s'
  | _ => s
  end.

Definition strip_trailing_zeros (s : string) : string :=
  string_of_list_ascii
    (List.rev (strip_zeros_rev (List.rev (list_ascii_of_string s)))).

(** The digit string (no trailing zeros) and decimal point position of
    the shortest decimal that reads back as [m * 2^e]. *)
Definition shortest_digits (m e : Z) : string * Z :=
  let p := decimal_point m e in
  let '(d, k) := shortest 17 m e p 1 in
  let s := str_int d in
  (strip_trailing_zeros s, k + Z.of_nat (String.length s)).

Definition zeros (n : Z) : string := repeat_char "0"%char (Z.to_nat n).

(** [float_repr]'s layout: positional for [-4 < decpt <= 16], otherwise
    exponent notation with at least two exponent digits. *)
Definition layout_repr (digits : string) (decpt : Z) : string :=
  let n := Z.of_nat (String.length digits) in
  if (-4 <? decpt) && (decpt <=? 16) then
    if decpt <=? 0 then "0." ++ zeros (- decpt) ++ digits
    else if n <=? decpt then digits ++ zeros (decpt - n) ++ ".0"
    else substring 0 (Z.to_nat decpt) digits ++ "."
         ++ substring (Z.to_nat decpt) (Z.to_nat (n - decpt)) digits
  else
    let ex := decpt - 1 in
    substring 0 1 digits
    ++ (if 1 <? n then "." ++ substring 1 (Z.to_nat (n - 1)) digits else "")
    ++ "e" ++ (if ex <? 0 then "-" else "+")
    ++ zfill 2 (str_int (Z.abs ex)).

Definition sign_str (s : bool) : string := if s then "-" else "".

(** [repr(f)], which is also [str(f)] and [format(f, "")]. *)
Definition str_float (f : float) : string :=
  match Prim2SF f with
  | S754_nan => "nan"
  | S754_infinity s => sign_str s ++ "inf"
  | S754_zero s => sign_str s ++ "0.0"
  | S754_finite s m e =>
      let '(digits, decpt) := shortest_digits (Z.pos m) e in
      sign_str s ++ layout_repr digits decpt
  end.

(** [format(f, ".1f")]: the exact value rounded to one decimal
    (ties to even). *)
Definition format_1f_float (f : float) : string :=
  match Prim2SF f with
  | S754_nan => "nan"
  | S754_infinity s => sign_str s ++ "inf"
  | S754_zero s => sign_str s ++ "0.0"
  | S754_finite s m e =>
      let nu := Z.pos m * 10 * 2 ^ (Z.max e 0) in
      let de := 2 ^ (Z.max (- e) 0) in
      let q := nu / de in
      let r := nu mod de in
      let tenths :=
        match Z.compare (2 * r) de with
        | Gt => q + 1
        | Eq => if Z.even q then q else q + 1
        | Lt => q
        end in
      sign_str s ++ str_int (tenths / 10) ++ "." ++ str_int (tenths mod 10)
  end.

(** [str(n)], as an f-string replacement field [{n}] renders it. *)
Definition str (n : num) : string :=
  match n with
  | PInt z => str_int z
  | PFloat f => str_float f
  end.

(** [{n:.1f}]: an [int] is converted to [float] first. *)
Definition format_1f (n : num) : result string :=
  bind (to_float n) (fun f => Ok (format_1f_float f)).

(** ** Strings, lists and dictionaries *)

Fixpoint join (sep : string) (l : list string) : string :=
  match l with
  | [] => ""
  | [x] => x
  | x :: l' => x ++ sep ++ join sep l'
  end.

Definition lower_char (c : ascii) : ascii :=
  let n := nat_of_ascii c in
  if (65 <=? n)%nat && (n <=? 90)%nat then ascii_of_nat (n + 32) else c.

(** [s.lower()] on the ASCII letters; the converter lower-cases enum
    names of the Figma API only. *)
Fixpoint lower (s : string) : string :=
  match s with
  | EmptyString => EmptyString
  | String c s' => String (lower_char c) (lower s')
  end.

(** [needle in hay] for strings. *)
Fixpoint contains (needle hay : string) : bool :=
  if prefix needle hay then true
  else match hay with
       | EmptyString => false
       | String _ hay' => contains needle hay'
       end.

(** Truth value of a string or a list: non-empty. *)
Definition nonempty (s : string) : bool :=
  match s with EmptyString => false | _ => true end.

Definition truthy {A : Type} (l : list A) : bool :=
  match l with [] => false | _ => true end.

(** A [dict] with [str] keys, in insertion order. *)
Definition dict (V : Type) : Type := list (string * V).

Fixpoint lookup {V : Type} (k : string) (d : dict V) : option V :=
  match d with
  | [] => None
  | (k', v) :: d' => if String.eqb k k' then Some v else lookup k d'
  end.

(** [k in d] *)
Definition has_key {V : Type} (k : string) (d : dict V) : bool :=
  match lookup k d with Some _ => true | None => false end.

(** [d.get(k, default)] *)
Definition get {V : Type} (d : dict V) (k : string) (default : V) : V :=
  match lookup k d with Some v => v | None => default end.

(** [d[k]] *)
Definition getitem {V : Type} (d : dict V) (k : string) : result V :=
  match lookup k d with Some v => Ok v | None => Raise KeyError end.

(** [d[k] = v]: an existing key keeps its place. *)
Fixpoint setitem {V : Type} (d : dict V) (k : string) (v : V) : dict V :=
  match d with
  | [] => [(k, v)]
  | (k', v') :: d' =>
      if String.eqb k k' then (k, v) :: d' else (k', v') :: setitem d' k v
  end.

(** [d.update(other)] *)
Definition update {V : Type} (d other : dict V) : dict V :=
  fold_left (fun acc kv => setitem acc (fst kv) (snd kv)) other d.

(** [l[i]] for [i >= 0] *)
Definition index {A : Type} (l : list A) (i : nat) : result A :=
  match nth_error l i with Some x => Ok x | None => Raise IndexError end.

(** An optional key read with a default: [d.get(k, default)] where the
    key is a typed field. *)
Definition get_or {A : Type} (o : option A) (default : A) : A :=
  match o with Some x => x | None => default end.

(** [s.add(x)] for a set kept as a duplicate-free list. *)
Definition set_add (x : string) (s : list string) : list string :=
  if existsb (String.eqb x) s then s else s ++ [x].

(** A [for] loop over a list whose body updates the loop state and may
    raise. *)
Section ForLoop.

Context {A S : Type}.
Variable body : A -> S -> result S.

Fixpoint for_loop (xs : list A) (s : S) : result S :=
  match xs with
  | [] => Ok s
  | x :: xs' => bind (body x s) (for_loop xs')
  end.

End ForLoop.

End Py.
Import Py.

Notation "x <- m ;; k" := (bind m (fun x => k))
  (at level 61, m at next level, right associativity).
Notation "' pat <- m ;; k" := (bind m (fun x => match x with pat => k end))
  (at level 61, pat pattern, m at next level, right associativity).

(* ================================================================== *)
(** * The data model: Figma's JSON documents *)
(* ================================================================== *)

(** A JSON object is read by the converter through [d.get(key, default)]
    and [key in d] only, so an object is a record with one [option]
    field per key the converter reads ([None]: the key is absent). The
    discriminant ["type"] of a node, a paint or an effect is always
    present.
    Objects that hold nothing but numbers (colours, bounding boxes,
    offsets, gradient handles) stay dictionaries; a key that is only
    read with an empty list or empty dictionary as its default is that
    list or dictionary (absent and empty are indistinguishable to the
    code). *)

Definition numdict : Type := dict num.

(** An entry of ["gradientStops"]. *)
Record Stop : Type := {
  stop_color : numdict;              (* "color" *)
  stop_position : option num         (* "position" *)
}.

(** An entry of ["fills"] or ["strokes"]. *)
Record Paint : Type := {
  paint_type : string;               (* "type" *)
  paint_visible : option bool;       (* "visible" *)
  paint_color : numdict;             (* "color" *)
  paint_opacity : option num;        (* "opacity" *)
  gradientStops : list Stop;         (* "gradientStops" *)
  gradientHandlePositions : list numdict  (* "gradientHandlePositions" *)
}.

(** An entry of ["effects"]. *)
Record Effect : Type := {
  effect_type : string;              (* "type" *)
  effect_visible : option bool;      (* "visible" *)
  effect_offset : numdict;           (* "offset" *)
  effect_radius : option num;        (* "radius" *)
  effect_spread : option num;        (* "spread" *)
  effect_color : numdict             (* "color" *)
}.

(** The ["style"] object of a text node. *)
Record TextStyle : Type := {
  fontFamily : option string;
  fontSize : option num;
  fontWeight : option num;
  lineHeightPx : option num;
  lineHeightPercentFontSize : option num;
  letterSpacing : option num;
  textAlignHorizontal : option string;
  textDecoration : option string;
  textCase : option string
}.

(** A node of the document tree. [node_nums] holds the node's own
    numeric keys by name: ["cornerRadius"], ["strokeWeight"],
    ["opacity"] and the per-corner radius aliases. *)
Local Unset Elimination Schemes.

Inductive Node : Type := Build_Node {
  node_type : string;                          (* "type" *)
  node_id : option string;                     (* "id" *)
  node_name : option string;                   (* "name" *)
  node_visible : option bool;                  (* "visible" *)
  absoluteBoundingBox : numdict;               (* "absoluteBoundingBox" *)
  children : list Node;                        (* "children" *)
  fills : list Paint;                          (* "fills" *)
  strokes : list Paint;                        (* "strokes" *)
  effects : list Effect;                       (* "effects" *)
  characters : option string;                  (* "characters" *)
  style : TextStyle;                           (* "style" *)
  rectangleCornerRadii : option (list num);    (* "rectangleCornerRadii" *)
  node_nums : numdict
}.

Local Set Elimination Schemes.

(** ** Builders for concrete documents *)

Definition no_style : TextStyle :=
  {| fontFamily := None; fontSize := None; fontWeight := None;
     lineHeightPx := None; lineHeightPercentFontSize := None;
     letterSpacing := None; textAlignHorizontal := None;
     textDecoration := None; textCase := None |}.

(** [{"type": ty}] *)
Definition paint_of_type (ty : string) : Paint :=
  {| paint_type := ty; paint_visible := None; paint_color := [];
     paint_opacity := None; gradientStops := [];
     gradientHandlePositions := [] |}.

(** [{"type": "SOLID", "color": color}] *)
Definition solid (color : numdict) : Paint :=
  {| paint_type := "SOLID"; paint_visible := None;
     paint_color := color; paint_opacity := None; gradientStops := [];
     gradientHandlePositions := [] |}.

Definition hidden (p : Paint) : Paint :=
  {| paint_type := paint_type p; paint_visible := Some false;
     paint_color := paint_color p; paint_opacity := paint_opacity p;
     gradientStops := gradientStops p;
     gradientHandlePositions := gradientHandlePositions p |}.

(** [{"type": "GRADIENT_LINEAR", "gradientStops": stops,
      "gradientHandlePositions": handles}] *)
Definition linear_gradient (stops : list Stop) (handles : list numdict)
  : Paint :=
  {| paint_type := "GRADIENT_LINEAR"; paint_visible := None;
     paint_color := []; paint_opacity := None; gradientStops := stops;
     gradientHandlePositions := handles |}.

(** [{"x": x, "y": y, "width": w, "height": h}] *)
Definition box (x y w h : Z) : numdict :=
  [("x", PInt x); ("y", PInt y); ("width", PInt w); ("height", PInt h)].

(** [{"type": ty, "visible": vis, "absoluteBoundingBox": bbox,
      "children": kids}] *)
Definition simple_node (ty : string) (vis : option bool) (bbox : numdict)
           (kids : list Node) : Node :=
  {| node_type := ty; node_id := None; node_name := None;
     node_visible := vis; absoluteBoundingBox := bbox; children := kids;
     fills := []; strokes := []; effects := []; characters := None;
     style := no_style; rectangleCornerRadii := None; node_nums := [] |}.

(** A rectangle that carries radius keys only. *)
Definition radius_node (array : option (list num)) (nums : numdict) : Node :=
  {| node_type := "RECTANGLE"; node_id := None; node_name := None;
     node_visible := None; absoluteBoundingBox := []; children := [];
     fills := []; strokes := []; effects := []; characters := None;
     style := no_style; rectangleCornerRadii := array; node_nums := nums |}.

Definition with_fills (n : Node) (fs : list Paint) : Node :=
  {| node_type := node_type n; node_id := node_id n;
     node_name := node_name n; node_visible := node_visible n;
     absoluteBoundingBox := absoluteBoundingBox n; children := children n;
     fills := fs; strokes := strokes n; effects := effects n;
     characters := characters n; style := style n;
     rectangleCornerRadii := rectangleCornerRadii n;
     node_nums := node_nums n |}.

Definition with_strokes (n : Node) (ss : list Paint) : Node :=
  {| node_type := node_type n; node_id := node_id n;
     node_name := node_name n; node_visible := node_visible n;
     absoluteBoundingBox := absoluteBoundingBox n; children := children n;
     fills := fills n; strokes := ss; effects := effects n;
     characters := characters n; style := style n;
     rectangleCornerRadii := rectangleCornerRadii n;
     node_nums := node_nums n |}.

Definition without_radii_array (n : Node) : Node :=
  {| node_type := node_type n; node_id := node_id n;
     node_name := node_name n; node_visible := node_visible n;
     absoluteBoundingBox := absoluteBoundingBox n; children := children n;
     fills := fills n; strokes := strokes n; effects := effects n;
     characters := characters n; style := style n;
     rectangleCornerRadii := None;
     node_nums := node_nums n |}.

(* ================================================================== *)
(** * The converter *)
(* ================================================================== *)

(** ** [class Color] *)

Module Color.

Record t : Type := { r : num; g : num; b : num; a : num }.

(** The three channels scaled to 8 bits: [int(self.r * 255)] and so on. *)
Definition channel (c : num) : result Z :=
  v <- mul c (PInt 255) ;; int_of v.

Definition to_css (self : t) : result string :=
  r <- channel (r self) ;;
  g <- channel (g self) ;;
  b <- channel (b self) ;;
  if ltb (a self) (PFloat 1.0) then
    Ok ("rgba(" ++ str_int r ++ ", " ++ str_int g ++ ", " ++ str_int b
        ++ ", " ++ str (a self) ++ ")")
  else
    Ok ("rgb(" ++ str_int r ++ ", " ++ str_int g ++ ", " ++ str_int b ++ ")").

Definition to_hex (self : t) : result string :=
  r <- channel (r self) ;;
  g <- channel (g self) ;;
  b <- channel (b self) ;;
  Ok ("#" ++ format_02x r ++ format_02x g ++ format_02x b).

End Color.

(** ** [class FigmaToHTMLConverter] *)

(** The instance state the core reads and writes: [self.image_fills]
    and [self.fonts_used]. *)
Record Converter : Type := {
  image_fills : dict string;
  fonts_used : list string
}.

(** [math.pi] *)
Definition pi : float := 0x1.921fb54442d18p+1%float.

(** [fill.get("visible", True)] *)
Definition is_visible (v : option bool) : bool := get_or v true.

Definition type_is (ty : string) (name : string) : bool :=
  String.eqb ty name.

Module FigmaToHTMLConverter.

Section Methods.

(** [math.atan2] belongs to the platform's C library. *)
Variable atan2 : float -> float -> float.

(** The number of nested calls the interpreter still allows; the
    converter needs it where a recursive call is not on a smaller
    argument ([get_fills_css]). *)
Variable recursion_limit : nat.

Definition parse_color (color_data : numdict) : Color.t :=
  {| Color.r := get color_data "r" (PInt 0);
     Color.g := get color_data "g" (PInt 0);
     Color.b := get color_data "b" (PInt 0);
     Color.a := get color_data "a" (PFloat 1.0) |}.

(** [color.a *= opacity; return color.to_css()] *)
Definition faded_css (color : Color.t) (opacity : num) : result string :=
  a <- mul (Color.a color) opacity ;;
  Color.to_css {| Color.r := Color.r color; Color.g := Color.g color;
                  Color.b := Color.b color; Color.a := a |}.

Definition stop_string (stop : Stop) : result string :=
  let color := parse_color (stop_color stop) in
  position <- mul (get_or (stop_position stop) (PInt 0)) (PInt 100) ;;
  css <- Color.to_css color ;;
  pos <- format_1f position ;;
  Ok (css ++ " " ++ pos ++ "%").

(** [math.atan2(y2 - y1, x2 - x1) * 180 / math.pi + 90] *)
Definition gradient_angle (x1 y1 x2 y2 : num) : result float :=
  dy <- sub y2 y1 ;;
  dx <- sub x2 x1 ;;
  fy <- to_float dy ;;
  fx <- to_float dx ;;
  Ok (atan2 fy fx * 180 / pi + 90)%float.

Definition parse_gradient (gradient_fill : Paint) : result string :=
  let gradient_type := paint_type gradient_fill in
  if type_is gradient_type "GRADIENT_LINEAR" then
    let stops := gradientStops gradient_fill in
    let handles := gradientHandlePositions gradient_fill in
    match handles with
    | h0 :: h1 :: _ =>
        let x1 := get h0 "x" (PInt 0) in
        let y1 := get h0 "y" (PInt 0) in
        let x2 := get h1 "x" (PInt 1) in
        let y2 := get h1 "y" (PInt 1) in
        angle <- gradient_angle x1 y1 x2 y2 ;;
        stop_strings <-
          for_loop (fun stop stop_strings =>
                      s <- stop_string stop ;; Ok (stop_strings ++ [s])%list)
                   stops [] ;;
        Ok ("linear-gradient(" ++ format_1f_float angle ++ "deg, "
            ++ join ", " stop_strings ++ ")")
    | _ => Ok "transparent"
    end
  else Ok "transparent".

(** The three paint kinds [get_fills_css] handles when exactly one fill
    is visible; [None] when it falls out of the [if] chain. *)
Definition single_fill_css (self : Converter) (fill : Paint)
           (node_id : string) : option (result string) :=
  let fill_type := paint_type fill in
  if type_is fill_type "SOLID" then
    Some (faded_css (parse_color (paint_color fill))
                    (get_or (paint_opacity fill) (PFloat 1.0)))
  else if type_is fill_type "GRADIENT_LINEAR" then
    Some (parse_gradient fill)
  else if type_is fill_type "IMAGE" then
    match lookup node_id (image_fills self) with
    | Some url => Some (Ok ("url('" ++ url ++ "')"))
    | None => Some (Ok "#cccccc")
    end
  else None.

Fixpoint get_fills_css (fuel : nat) (self : Converter) (fills : list Paint)
         (node_id : string) : result string :=
  match fuel with
  | O => Raise RecursionError
  | S fuel' =>
      if negb (truthy fills)
         || negb (existsb (fun fill => is_visible (paint_visible fill)) fills)
      then Ok "transparent"
      else
        let visible_fills :=
          filter (fun f => is_visible (paint_visible f)) fills in
        let handled :=
          match visible_fills with
          | [fill] => single_fill_css self fill node_id
          | _ => None
          end in
        match handled with
        | Some css => css
        | None =>
            (* Multiple fills - use the first visible one *)
            first <- index visible_fills 0 ;;
            get_fills_css fuel' self [first] node_id
        end
  end.

Definition get_strokes_css (node : Node) : result (string * string * string) :=
  let strokes := strokes node in
  if negb (truthy strokes)
     || negb (existsb (fun s => is_visible (paint_visible s)) strokes)
  then Ok ("", "", "")
  else
    (* [if not stroke]: a stroke that was found has its "type" key and
       is therefore true *)
    match find (fun s => is_visible (paint_visible s)) strokes with
    | None => Ok ("", "", "")
    | Some stroke =>
        let stroke_weight := get (node_nums node) "strokeWeight" (PInt 1) in
        let border_width := str stroke_weight ++ "px" in
        border_color <-
          (if type_is (paint_type stroke) "SOLID" then
             faded_css (parse_color (paint_color stroke))
                       (get_or (paint_opacity stroke) (PFloat 1.0))
           else Ok "#000000") ;;
        let border_style := "solid" in
        Ok (border_width, border_style, border_color)
    end.

Definition get_effects_css (effects : list Effect) : result (list string) :=
  for_loop
    (fun effect css_effects =>
       if negb (is_visible (effect_visible effect)) then Ok css_effects
       else
         let effect_type := effect_type effect in
         if type_is effect_type "DROP_SHADOW"
            || type_is effect_type "INNER_SHADOW" then
           let offset := effect_offset effect in
           let x := get offset "x" (PInt 0) in
           let y := get offset "y" (PInt 0) in
           let radius := get_or (effect_radius effect) (PInt 0) in
           let spread := get_or (effect_spread effect) (PInt 0) in
           let color := parse_color (effect_color effect) in
           css <- Color.to_css color ;;
           let shadow := str x ++ "px " ++ str y ++ "px " ++ str radius
                         ++ "px " ++ str spread ++ "px " ++ css in
           let shadow := if type_is effect_type "INNER_SHADOW"
                         then "inset " ++ shadow else shadow in
           Ok (css_effects ++ [shadow])%list
         else if type_is effect_type "LAYER_BLUR" then
           let radius := get_or (effect_radius effect) (PInt 0) in
           let blur := "blur(" ++ str radius ++ "px)" in
           Ok (css_effects ++ [blur])%list
         else Ok css_effects)
    effects [].

(** The alias names of each corner, in probing order. *)
Definition corner_names : dict (list string) :=
  [("topLeft", ["rectangleCornerTopLeftRadius"; "topLeftRadius";
                "cornerTopLeftRadius"]);
   ("topRight", ["rectangleCornerTopRightRadius"; "topRightRadius";
                 "cornerTopRightRadius"]);
   ("bottomRight", ["rectangleCornerBottomRightRadius"; "bottomRightRadius";
                    "cornerBottomRightRadius"]);
   ("bottomLeft", ["rectangleCornerBottomLeftRadius"; "bottomLeftRadius";
                   "cornerBottomLeftRadius"])].

(** The inner loop of the alias lookup: the first name present in the
    node sets [radius] and [has_any_radius] and leaves the loop. *)
Fixpoint probe (node : Node) (prop_names : list string)
         (radius : num) (has_any_radius : bool) : num * bool :=
  match prop_names with
  | [] => (radius, has_any_radius)
  | prop_name :: rest =>
      match lookup prop_name (node_nums node) with
      | Some v => (v, true)
      | None => probe node rest radius has_any_radius
      end
  end.

(** The text both the array branch and the alias branch end with: one
    value when the four corners are equal, four values otherwise. *)
Definition radii_css (radii : list num) : result string :=
  r0 <- index radii 0 ;;
  if forallb (fun r => eqb r r0) radii then
    if eqb r0 (PInt 0) then Ok "0px" else Ok (str r0 ++ "px")
  else
    r1 <- index radii 1 ;;
    r2 <- index radii 2 ;;
    r3 <- index radii 3 ;;
    Ok (str r0 ++ "px " ++ str r1 ++ "px " ++ str r2 ++ "px "
        ++ str r3 ++ "px").

Definition alias_radius (node : Node) : result string :=
  '(radii, has_any_radius) <-
    for_loop (fun corner '(radii, has_any_radius) =>
                names <- getitem corner_names corner ;;
                let '(radius, has_any_radius) :=
                  probe node names (PInt 0) has_any_radius in
                Ok ((radii ++ [radius])%list, has_any_radius))
             ["topLeft"; "topRight"; "bottomRight"; "bottomLeft"]
             ([], false) ;;
  if negb has_any_radius then Ok "0px"
  else radii_css radii.

Definition get_border_radius (node : Node) : result string :=
  match lookup "cornerRadius" (node_nums node) with
  | Some radius => Ok (str radius ++ "px")
  | None =>
      match rectangleCornerRadii node with
      | Some radii =>
          if (List.length radii =? 4)%nat then radii_css radii
          else alias_radius node
      | None => alias_radius node
      end
  end.

Definition add_font (self : Converter) (font_family : string) : Converter :=
  {| image_fills := image_fills self;
     fonts_used := set_add font_family (fonts_used self) |}.

Definition opt_is (o : option string) (name : string) : bool :=
  match o with Some s => String.eqb s name | None => false end.

Definition get_text_styles (self : Converter) (node : Node)
  : result (dict string * Converter) :=
  let style := style node in
  let styles : dict string := [] in
  (* Font family *)
  let font_family := get_or (fontFamily style) "Arial" in
  let self := add_font self font_family in
  let styles :=
    setitem styles "font-family" ("'" ++ font_family ++ "', sans-serif") in
  (* Font size *)
  let font_size := get_or (fontSize style) (PInt 16) in
  let styles := setitem styles "font-size" (str font_size ++ "px") in
  (* Font weight *)
  let font_weight := get_or (fontWeight style) (PInt 400) in
  let styles := setitem styles "font-weight" (str font_weight) in
  (* Line height *)
  let styles :=
    match lineHeightPx style, lineHeightPercentFontSize style with
    | Some line_height, _ =>
        setitem styles "line-height" (str line_height ++ "px")
    | None, Some line_height_percent =>
        setitem styles "line-height" (str line_height_percent ++ "%")
    | None, None => styles
    end in
  (* Letter spacing *)
  let styles :=
    match letterSpacing style with
    | Some letter_spacing =>
        setitem styles "letter-spacing" (str letter_spacing ++ "px")
    | None => styles
    end in
  (* Text align *)
  let text_align := lower (get_or (textAlignHorizontal style) "LEFT") in
  let text_align :=
    if String.eqb text_align "justified" then "justify" else text_align in
  let styles := setitem styles "text-align" text_align in
  (* Text decoration *)
  let styles :=
    if opt_is (textDecoration style) "UNDERLINE" then
      setitem styles "text-decoration" "underline"
    else if opt_is (textDecoration style) "STRIKETHROUGH" then
      setitem styles "text-decoration" "line-through"
    else styles in
  (* Text transform *)
  let styles :=
    if opt_is (textCase style) "UPPER" then
      setitem styles "text-transform" "uppercase"
    else if opt_is (textCase style) "LOWER" then
      setitem styles "text-transform" "lowercase"
    else if opt_is (textCase style) "TITLE" then
      setitem styles "text-transform" "capitalize"
    else styles in
  (* Text color *)
  let fills := fills node in
  if truthy fills then
    color <- get_fills_css recursion_limit self fills "" ;;
    Ok (setitem styles "color" color, self)
  else Ok (styles, self).

(** ["; ".join(f"{k}: {v}" for k, v in styles.items())] *)
Definition style_string (styles : dict string) : string :=
  join "; " (map (fun kv => fst kv ++ ": " ++ snd kv) styles).

(** [[e for e in css_effects if "blur" not in e]] *)
Definition without_blur (css_effects : list string) : list string :=
  filter (fun e => negb (contains "blur" e)) css_effects.

(** The double quote and the newline of the emitted markup. *)
Definition dq : string := String "034"%char EmptyString.
Definition nl : string := String "010"%char EmptyString.

(** The body of the loop over the children, shared by both recursive
    branches of [node_to_html]: [walk] converts one child, whose output
    is appended when it is not empty. *)
Definition append_child
           (walk : Node -> Converter -> result (string * Converter))
           (child : Node) (state : list string * Converter)
  : result (list string * Converter) :=
  let '(html_parts, self) := state in
  '(child_html, self) <- walk child self ;;
  if nonempty child_html
  then Ok ((html_parts ++ [child_html])%list, self)
  else Ok (html_parts, self).

Definition collect_children
           (walk : Node -> Converter -> result (string * Converter))
           (children : list Node) (self : Converter)
  : result (list string * Converter) :=
  for_loop (append_child walk) children ([], self).

(** The geometry styles every emitted element starts with. *)
Definition base_styles (rel_x rel_y width height : num) : dict string :=
  [("position", "absolute");
   ("left", str rel_x ++ "px");
   ("top", str rel_y ++ "px");
   ("width", str width ++ "px");
   ("height", str height ++ "px")].

Fixpoint node_to_html (node : Node) (parent_box : option numdict)
         (depth : Z) (self : Converter) {struct node}
  : result (string * Converter) :=
  let node_type := node_type node in
  let node_id := get_or (node_id node) "" in
  let node_name := get_or (node_name node) "" in
  (* Skip invisible nodes *)
  if negb (is_visible (node_visible node)) then Ok ("", self)
  else
    (* Get node bounds *)
    let bbox := absoluteBoundingBox node in
    if negb (truthy bbox) then
      (* If no bounding box, try to process children *)
      '(html_parts, self) <-
        collect_children
          (fun child self => node_to_html child parent_box depth self)
          (children node) self ;;
      Ok (join nl html_parts, self)
    else
      let x := get bbox "x" (PInt 0) in
      let y := get bbox "y" (PInt 0) in
      let width := get bbox "width" (PInt 0) in
      let height := get bbox "height" (PInt 0) in
      (* Calculate relative position *)
      '(rel_x, rel_y) <-
        (if truthy (get_or parent_box []) then
           rel_x <- sub x (get (get_or parent_box []) "x" (PInt 0)) ;;
           rel_y <- sub y (get (get_or parent_box []) "y" (PInt 0)) ;;
           Ok (rel_x, rel_y)
         else Ok (x, y)) ;;
      (* Start building styles *)
      let styles := base_styles rel_x rel_y width height in
      (* Handle different node types *)
      if String.eqb node_type "TEXT" then
        let text_content := get_or (characters node) "" in
        '(text_styles, self) <- get_text_styles self node ;;
        let styles := update styles text_styles in
        (* Background *)
        let fills := fills node in
        styles <-
          (match fills with
           | first :: _ =>
               if negb (String.eqb (paint_type first) "SOLID") then
                 bg <- get_fills_css recursion_limit self fills node_id ;;
                 if negb (String.eqb bg "transparent")
                 then Ok (setitem styles "background" bg)
                 else Ok styles
               else Ok styles
           | [] => Ok styles
           end) ;;
        (* Effects *)
        let effects := effects node in
        styles <-
          (if truthy effects then
             css_effects <- get_effects_css effects ;;
             let shadows := without_blur css_effects in
             if truthy shadows
             then Ok (setitem styles "text-shadow" (join ", " shadows))
             else Ok styles
           else Ok styles) ;;
        (* Build HTML *)
        let style_str := style_string styles in
        Ok ("<div class=" ++ dq ++ "text-node" ++ dq ++ " style=" ++ dq
            ++ style_str ++ dq ++ ">" ++ text_content ++ "</div>", self)
      else
        (* Background/Fill *)
        let fills := fills node in
        styles <-
          (if truthy fills then
             bg <- get_fills_css recursion_limit self fills node_id ;;
             Ok (setitem styles "background" bg)
           else Ok styles) ;;
        (* Border/Stroke *)
        '(border_width, border_style, border_color) <- get_strokes_css node ;;
        let styles :=
          if nonempty border_width then
            setitem styles "border"
                    (border_width ++ " " ++ border_style ++ " " ++ border_color)
          else styles in
        (* Border radius *)
        border_radius <- get_border_radius node ;;
        let styles :=
          if negb (String.eqb border_radius "0px") then
            setitem (setitem styles "border-radius" border_radius)
                    "overflow" "hidden"
          else styles in
        (* Effects (shadows) *)
        let effects := effects node in
        styles <-
          (if truthy effects then
             css_effects <- get_effects_css effects ;;
             let shadows := without_blur css_effects in
             if truthy shadows
             then Ok (setitem styles "box-shadow" (join ", " shadows))
             else Ok styles
           else Ok styles) ;;
        (* Opacity *)
        let opacity := get (node_nums node) "opacity" (PFloat 1.0) in
        let styles :=
          if ltb opacity (PFloat 1.0)
          then setitem styles "opacity" (str opacity)
          else styles in
        (* Build style string *)
        let style_str := style_string styles in
        (* Process children *)
        '(children_html, self) <-
          collect_children
            (fun child self => node_to_html child (Some bbox) (depth + 1) self)
            (children node) self ;;
        (* Build HTML *)
        let class_name := lower node_type ++ "-node" in
        if truthy children_html then
          let children_str := join nl children_html in
          Ok ("<div class=" ++ dq ++ class_name ++ dq ++ " style=" ++ dq
              ++ style_str ++ dq ++ ">" ++ nl ++ children_str ++ nl
              ++ "</div>", self)
        else
          Ok ("<div class=" ++ dq ++ class_name ++ dq ++ " style=" ++ dq
              ++ style_str ++ dq ++ "></div>", self)
  .

(** [find_frames] appends to the list it is given ([None]: the default
    argument, a fresh list) and returns that list. *)
Fixpoint find_frames (node : Node) (frames : option (list Node))
         {struct node} : list Node :=
  let frames := get_or frames [] in
  let node_type := node_type node in
  let frames :=
    if String.eqb node_type "FRAME" && is_visible (node_visible node)
    then (frames ++ [node])%list else frames in
  (* Recurse into children *)
  fold_left (fun frames child => find_frames child (Some frames))
            (children node) frames.

(** The first loop of [collect_image_nodes]: the identifier of the node
    is appended at the first visible image fill, which ends the loop. *)
Fixpoint append_if_image (node_id : option string) (fills : list Paint)
         (image_nodes : list (option string)) : list (option string) :=
  match fills with
  | [] => image_nodes
  | fill :: rest =>
      if String.eqb (paint_type fill) "IMAGE"
         && is_visible (paint_visible fill)
      then (image_nodes ++ [node_id])%list
      else append_if_image node_id rest image_nodes
  end.

(** [collect_image_nodes] appends to the list it is given; the
    identifier is [node.get("id")], [None] when the key is absent. *)
Fixpoint collect_image_nodes (node : Node)
         (image_nodes : list (option string)) {struct node}
  : list (option string) :=
  let image_nodes := append_if_image (node_id node) (fills node) image_nodes in
  fold_left (fun image_nodes child => collect_image_nodes child image_nodes)
            (children node) image_nodes.

(** [f.replace(" ", "+")] *)
Fixpoint replace_spaces (f : string) : string :=
  match f with
  | EmptyString => EmptyString
  | String c f' =>
      String (if Ascii.eqb c " "%char then "+"%char else c) (replace_spaces f')
  end.

(** The lines of the page before the font link. *)
Definition page_head : list string :=
  ["<!DOCTYPE html>";
   "<html lang=" ++ dq ++ "en" ++ dq ++ ">";
   "<head>";
   "    <meta charset=" ++ dq ++ "UTF-8" ++ dq ++ ">";
   "    <meta name=" ++ dq ++ "viewport" ++ dq ++ " content=" ++ dq ++ "width=device-width, initial-scale=1.0" ++ dq ++ ">";
   "    <title>Figma to HTML Export</title>"].

(** The lines from the font link to the width of the frame. *)
Definition page_style_open : list string :=
  ["    <style>";
   "        * {";
   "            margin: 0;";
   "            padding: 0;";
   "            box-sizing: border-box;";
   "        }";
   "        ";
   "        body {";
   "            font-family: -apple-system, BlinkMacSystemFont, 'Segoe UI', Roboto, Oxygen, Ubuntu, Cantarell, sans-serif;";
   "            background: #f5f5f5;";
   "            display: flex;";
   "            justify-content: center;";
   "            align-items: center;";
   "            min-height: 100vh;";
   "            padding: 20px;";
   "        }";
   "        ";
   "        #figma-frame {";
   "            position: relative;"].

(** The lines from the height of the frame to the body. *)
Definition page_style_close : list string :=
  ["            background: white;";
   "            box-shadow: 0 2px 8px rgba(0, 0, 0, 0.1);";
   "        }";
   "        ";
   "        .text-node {";
   "            overflow: hidden;";
   "            word-wrap: break-word;";
   "            white-space: pre-wrap;";
   "        }";
   "    </style>";
   "</head>";
   "<body>";
   "    <div id=" ++ dq ++ "figma-frame" ++ dq ++ ">"].

(** The lines after the body. *)
Definition page_tail : list string :=
  ["    </div>";
   "</body>";
   "</html>"].

(** The order in which [for f in self.fonts_used] visits the set: the
    model keeps the fonts in the order of their insertion, and CPython
    iterates a set in the order of its hash table, which is a function
    of what was inserted and when. *)
Variable iteration_order : list string -> list string.

(** [build_complete_html] *)
Definition build_complete_html (self : Converter) (body_content : string)
           (width height : num) : string :=
  let fonts_import :=
    if truthy (fonts_used self) then
      let font_params :=
        join "|" (map replace_spaces (iteration_order (fonts_used self))) in
      "<link href=" ++ dq ++ "https://fonts.googleapis.com/css2?family="
      ++ font_params
      ++ ":wght@100;200;300;400;500;600;700;800;900&display=swap" ++ dq
      ++ " rel=" ++ dq ++ "stylesheet" ++ dq ++ ">"
    else "" in
  let fonts_line := "    " ++ fonts_import in
  let width_line := "            width: " ++ str width ++ "px;" in
  let height_line := "            height: " ++ str height ++ "px;" in
  let body_line := "        " ++ body_content in
  join nl (page_head ++ [fonts_line] ++ page_style_open
           ++ [width_line; height_line] ++ page_style_close
           ++ [body_line] ++ page_tail)%list.

(** What [response.json()] returns: of the decoded object the keys the
    converter asks for. *)
Record Body : Type := {
  document : option Node;            (* .get("document") *)
  images : option (dict string)      (* .get("images") *)
}.

(** An answer of the API: the status, the body as text, and the body
    decoded; [json] is [None] for a body that is not JSON, on which
    [response.json()] raises. *)
Record Response : Type := {
  status_code : Z;
  text : string;
  json : option Body
}.

(** What [requests.get(url, headers=self.headers)] does: it returns an
    answer, or it raises (no connection, a timeout, ...); [error]
    names the exception. *)
Inductive reply : Type :=
| Answers (response : Response)
| Breaks (error : string).

(** The exceptions of the methods around the core: [raise Exception(message)],
    the [TypeError] of [",".join] on an identifier that is [None], the
    exceptions of the core, the exception [requests.get] raised, and
    the one of [response.json()]. *)
Inductive failure : Type :=
| Exception (message : string)
| JoinTypeError
| Core (e : exn)
| RequestException (error : string)
| JSONDecodeError.

Inductive outcome (A : Type) : Type :=
| Returns (a : A)
| Fails (f : failure).

Arguments Returns {A} a.
Arguments Fails {A} f.

(** [self.base_url] *)
Definition base_url : string := "https://api.figma.com/v1".

(** The network, as the converter with its headers sees it. *)
Variable requests_get : string -> reply.

Definition get_file_data (file_key : string) : outcome Body :=
  let url := base_url ++ "/files/" ++ file_key in
  match requests_get url with
  | Breaks error => Fails (RequestException error)
  | Answers response =>
      if negb (status_code response =? 200) then
        Fails (Exception ("Failed to fetch Figma file: "
                          ++ str_int (status_code response) ++ " - "
                          ++ text response))
      else
        match json response with
        | Some file_data => Returns file_data
        | None => Fails JSONDecodeError
        end
  end.

(** [",".join(node_ids)] *)
Fixpoint join_ids (node_ids : list (option string)) : outcome (list string) :=
  match node_ids with
  | [] => Returns []
  | None :: _ => Fails JoinTypeError
  | Some id :: rest =>
      match join_ids rest with
      | Returns ids => Returns (id :: ids)
      | Fails f => Fails f
      end
  end.

Definition get_image_fills (file_key : string)
           (node_ids : list (option string)) : outcome (dict string) :=
  if negb (truthy node_ids) then Returns []
  else
    match join_ids node_ids with
    | Fails f => Fails f
    | Returns ids =>
        let ids_param := join "," ids in
        let url := base_url ++ "/images/" ++ file_key ++ "?ids=" ++ ids_param in
        match requests_get url with
        | Breaks error => Fails (RequestException error)
        | Answers response =>
            if status_code response =? 200 then
              match json response with
              | Some data => Returns (get_or (images data) [])
              | None => Fails JSONDecodeError
              end
            else Returns []
        end
    end.

(** [f"{f.get('name')}"] *)
Definition name_text (f : Node) : string := get_or (node_name f) "None".

(** [generate_html]: the lines it prints, and what it returns or
    raises. *)
Definition generate_html (self : Converter) (file_key : string)
           (frame_name : option string)
  : list string * outcome (string * Converter) :=
  let out := ["Fetching Figma file data..."] in
  match get_file_data file_key with
  | Fails f => (out, Fails f)
  | Returns file_data =>
      (* Find all frames *)
      let frames :=
        match document file_data with
        | Some document => find_frames document None
        | None => []
        end in
      if negb (truthy frames) then
        (out, Fails (Exception "No frames found in the Figma file"))
      else
        (* Select frame *)
        let selection :=
          if nonempty (get_or frame_name "") then
            let frame_name := get_or frame_name "" in
            match find (fun f => opt_is (node_name f) frame_name) frames with
            | Some selected_frame => (out, Returns selected_frame)
            | None =>
                let not_found := "Frame '" ++ frame_name ++ "' not found" in
                let header := not_found ++ ". Available frames:" in
                ((out ++ [header]
                  ++ map (fun f => append "  - " (name_text f)) frames)%list,
                 Fails (Exception not_found))
            end
          else
            match frames with
            | selected_frame :: _ =>
                let line := "Using frame: " ++ name_text selected_frame in
                ((out ++ [line])%list, Returns selected_frame)
            | [] => (out, Fails (Core IndexError))
            end in
        match selection with
        | (out, Fails f) => (out, Fails f)
        | (out, Returns selected_frame) =>
            (* Collect image fill nodes *)
            let image_nodes := collect_image_nodes selected_frame [] in
            let fetched :=
              if truthy image_nodes then
                let fetching :=
                  "Fetching " ++ str_int (Z.of_nat (List.length image_nodes))
                  ++ " image fills..." in
                ((out ++ [fetching])%list,
                 match get_image_fills file_key image_nodes with
                 | Returns fetched =>
                     Returns {| image_fills := fetched;
                                fonts_used := fonts_used self |}
                 | Fails f => Fails f
                 end)
              else (out, Returns self) in
            match fetched with
            | (out, Fails f) => (out, Fails f)
            | (out, Returns self) =>
                (* Convert frame to HTML *)
                let out := (out ++ ["Generating HTML..."])%list in
                match node_to_html selected_frame None 0 self with
                | Raise e => (out, Fails (Core e))
                | Ok (body_html, self) =>
                    (* Get frame dimensions *)
                    let bbox := absoluteBoundingBox selected_frame in
                    let frame_width := get bbox "width" (PInt 800) in
                    let frame_height := get bbox "height" (PInt 600) in
                    (out, Returns (build_complete_html self body_html
                                     frame_width frame_height, self))
                end
            end
        end
  end.

End Methods.

End FigmaToHTMLConverter.

Import FigmaToHTMLConverter.

(* ================================================================== *)
(** * Specification-level definitions *)
(* ================================================================== *)

(** The definitions of this part follow the wording of the
    specification; the theorems below compare them with the methods. *)

(** ** Tree traversals *)

(** The nodes of a document in depth-first pre-order. *)
Fixpoint preorder (node : Node) : list Node :=
  node :: flat_map preorder (children node).

(** A root candidate: a node of kind FRAME whose own flag is visible. *)
Definition is_root_candidate (node : Node) : bool :=
  String.eqb (node_type node) "FRAME" && is_visible (node_visible node).

(** Converting the children in order, the converter state threaded
    from one child to the next; every output is kept. *)
Fixpoint convert_all
         (walk : Node -> Converter -> result (string * Converter))
         (nodes : list Node) (self : Converter)
  : result (list string * Converter) :=
  match nodes with
  | [] => Ok ([], self)
  | node :: rest =>
      '(html, self) <- walk node self ;;
      '(htmls, self) <- convert_all walk rest self ;;
      Ok (html :: htmls, self)
  end.

(** The structural induction principle of [Node]: the property may be
    assumed of every child. *)
Fixpoint Node_ind (P : Node -> Prop)
         (step : forall node, Forall P (children node) -> P node)
         (node : Node) {struct node} : P node :=
  step node
       ((fix all (l : list Node) : Forall P l :=
           match l with
           | [] => Forall_nil P
           | n :: l' => Forall_cons n (Node_ind P step n) (all l')
           end) (children node)).

(** ** Corner radius, by the precedence table *)

(** The value of the first of [names] that is a key of the node. *)
Definition first_present (node : Node) (names : list string) : option num :=
  match find (fun name => has_key name (node_nums node)) names with
  | Some name => lookup name (node_nums node)
  | None => None
  end.

(** The resolved value of one corner in the per-corner alias form. *)
Definition corner_value (node : Node) (corner : string) : option num :=
  first_present node (get corner_names corner []).

(** Every alias name of every corner. *)
Definition alias_names : list string := flat_map snd corner_names.

Definition has_alias (node : Node) : bool :=
  existsb (fun name => has_key name (node_nums node)) alias_names.

(** Four equal values collapse to the single-value token, the literal
    ["0px"] when that value is zero; otherwise the four values are
    written top-left, top-right, bottom-right, bottom-left. *)
Definition single_or_four (tl tr br bl : num) : string :=
  if eqb tl tl && eqb tr tl && eqb br tl && eqb bl tl then
    if eqb tl (PInt 0) then "0px" else str tl ++ "px"
  else
    str tl ++ "px " ++ str tr ++ "px " ++ str br ++ "px " ++ str bl ++ "px".

(** Precedence: (a) the uniform field, (b) the 4-element array,
    (c) the per-corner aliases; none of them: zero radius. *)
Definition border_radius_spec (node : Node) : string :=
  match lookup "cornerRadius" (node_nums node) with
  | Some radius => str radius ++ "px"
  | None =>
      match rectangleCornerRadii node with
      | Some [tl; tr; br; bl] => single_or_four tl tr br bl
      | _ =>
          match corner_value node "topLeft", corner_value node "topRight",
                corner_value node "bottomRight", corner_value node "bottomLeft"
          with
          | None, None, None, None => "0px"
          | tl, tr, br, bl =>
              single_or_four (get_or tl (PInt 0)) (get_or tr (PInt 0))
                             (get_or br (PInt 0)) (get_or bl (PInt 0))
          end
      end
  end.

(** ** Fill resolution, by the first visible entry *)

Definition first_visible (fills : list Paint) : option Paint :=
  find (fun fill => is_visible (paint_visible fill)) fills.

(** What fill resolution yields for a list of fills: the "no paint"
    token without a visible entry, otherwise what the kind of the first
    visible entry dictates. For a kind other than solid,
    linear-gradient and image the method does not return: it calls
    itself on the same entry until the interpreter gives up. *)
Definition fill_resolution (atan2 : float -> float -> float)
           (self : Converter) (fills : list Paint) (node_id : string)
  : result string :=
  match first_visible fills with
  | None => Ok "transparent"
  | Some fill =>
      if String.eqb (paint_type fill) "SOLID" then
        let color := parse_color (paint_color fill) in
        alpha <- mul (Color.a color)
                     (get_or (paint_opacity fill) (PFloat 1.0)) ;;
        Color.to_css {| Color.r := Color.r color; Color.g := Color.g color;
                        Color.b := Color.b color; Color.a := alpha |}
      else if String.eqb (paint_type fill) "GRADIENT_LINEAR" then
        parse_gradient atan2 fill
      else if String.eqb (paint_type fill) "IMAGE" then
        match lookup node_id (image_fills self) with
        | Some url => Ok ("url('" ++ url ++ "')")
        | None => Ok "#cccccc"
        end
      else Raise RecursionError
  end.

(** ** Gradients *)

(** [f] on every element, in list order; the first exception wins. *)
Fixpoint traverse {A B : Type} (f : A -> result B) (l : list A)
  : result (list B) :=
  match l with
  | [] => Ok []
  | x :: l' =>
      y <- f x ;;
      ys <- traverse f l' ;;
      Ok (y :: ys)
  end.

(** The token of one colour stop: ["<color> <position*100>%"], the
    position to one decimal place. *)
Definition stop_token (stop : Stop) : result string :=
  position <- mul (get_or (stop_position stop) (PInt 0)) (PInt 100) ;;
  color <- Color.to_css (parse_color (stop_color stop)) ;;
  percent <- format_1f position ;;
  Ok (color ++ " " ++ percent ++ "%").

(** The gradient string: the angle of the axis through the first two
    handles, in degrees plus 90, to one decimal place, then the stops
    in their given order; the "no paint" token with fewer than two
    handles. *)
Definition linear_gradient_spec (atan2 : float -> float -> float)
           (fill : Paint) : result string :=
  match gradientHandlePositions fill with
  | handle1 :: handle2 :: _ =>
      dy <- sub (get handle2 "y" (PInt 1)) (get handle1 "y" (PInt 0)) ;;
      dx <- sub (get handle2 "x" (PInt 1)) (get handle1 "x" (PInt 0)) ;;
      fy <- to_float dy ;;
      fx <- to_float dx ;;
      let angle := (atan2 fy fx * 180 / pi + 90)%float in
      tokens <- traverse stop_token (gradientStops fill) ;;
      Ok ("linear-gradient(" ++ format_1f_float angle ++ "deg, "
          ++ join ", " tokens ++ ")")
  | _ => Ok "transparent"
  end.

(** [atan2(1, 1)]: the double nearest to a quarter of pi. *)
Definition quarter_pi : float := 0x1.921fb54442d18p-1%float.

(** ** Colour tokens *)

Definition is_lower_hex (c : ascii) : bool :=
  let n := nat_of_ascii c in
  ((48 <=? n) && (n <=? 57) || (97 <=? n) && (n <=? 102))%nat.

Fixpoint all_chars (p : ascii -> bool) (s : string) : bool :=
  match s with
  | EmptyString => true
  | String c s' => p c && all_chars p s'
  end.

(** The 6-hex-digit 3-channel form: ["#"] and six lower-case
    hexadecimal digits. *)
Definition is_hex6 (token : string) : bool :=
  match token with
  | String "#"%char digits =>
      (String.length digits =? 6)%nat && all_chars is_lower_hex digits
  | _ => false
  end.

(** A lower-case hexadecimal digit, and a value of 0..255 as two of
    them, the high one first. *)
Definition hex_digit (n : Z) : ascii :=
  nth (Z.to_nat n) (list_ascii_of_string "0123456789abcdef") "0"%char.

Definition byte_hex (v : Z) : string :=
  String (hex_digit (v / 16)) (String (hex_digit (v mod 16)) "").

(** The exact value of a finite float as a fraction [n / d], [d] a
    power of two. *)
Definition exact_fraction (f : float) : option (Z * Z) :=
  match Prim2SF f with
  | S754_zero _ => Some (0, 1)
  | S754_finite s m e =>
      Some (signed s m * 2 ^ (Z.max e 0), 2 ^ (Z.max (- e) 0))
  | _ => None
  end.

(** ** Style dictionaries *)

(** The keys of the geometry styles. *)
Definition is_base_key (k : string) : bool :=
  existsb (String.eqb k) ["position"; "left"; "top"; "width"; "height"].

(** A dictionary that sets none of the geometry keys. *)
Definition fresh_keys (d : dict string) : Prop :=
  Forall (fun kv => is_base_key (fst kv) = false) d.

(** [styles] starts with the entries of [base], unchanged. *)
Definition after_base (base styles : dict string) : Prop :=
  exists extra, styles = (base ++ extra)%list.

(** Two lower-case hexadecimal digits. *)
Definition two_hex_digits (s : string) : bool :=
  (String.length s =? 2)%nat && all_chars is_lower_hex s.

(** ** Sample inputs *)

(** [{"x": x, "y": y}] *)
Definition xy (x y : Z) : numdict := [("x", PInt x); ("y", PInt y)].

(** [Color(r=1.0, g=0.5, b=0.0, a=alpha)] *)
Definition orange (alpha : float) : Color.t :=
  {| Color.r := PFloat 1.0; Color.g := PFloat 0.5; Color.b := PFloat 0.0;
     Color.a := PFloat alpha |}.

(** [Color(r=2.0, g=0.0, b=0.0, a=1.0)]: red is out of range. *)
Definition too_red : Color.t :=
  {| Color.r := PFloat 2.0; Color.g := PFloat 0.0; Color.b := PFloat 0.0;
     Color.a := PFloat 1.0 |}.

(** [Color(r=-0.01, g=0.0, b=0.0, a=1.0)]: red is below zero (the
    double nearest to -0.01). *)
Definition too_dark : Color.t :=
  {| Color.r := PFloat (-0x1.47ae147ae147bp-7); Color.g := PFloat 0.0;
     Color.b := PFloat 0.0;
     Color.a := PFloat 1.0 |}.

(** [{"type": "RECTANGLE", "absoluteBoundingBox": {...}, "fills": fs}] *)
Definition rectangle (x y w h : Z) (fs : list Paint) : Node :=
  with_fills (simple_node "RECTANGLE" None (box x y w h) []) fs.


(** A stand-in for the C library's [atan2], right on the diagonal. *)
Definition sample_atan2 (y x : float) : float := quarter_pi.

(** A converter that knows one image and has seen no font. *)
Definition sample_converter : Converter :=
  {| image_fills := [("1:2", "https://example.org/a.png")];
     fonts_used := [] |}.

(** A hidden page that holds a visible frame. *)
Definition hidden_page : Node :=
  simple_node "CANVAS" (Some false) []
              [simple_node "FRAME" None (box 0 0 10 10) []].

(** A square and a smaller one, both inside the frame box below. *)
Definition frame_box : numdict := box 100 50 200 100.

Definition red_square : Node :=
  rectangle 110 70 20 30 [solid [("r", PInt 1)]].

Definition blue_square : Node :=
  rectangle 150 90 10 10 [solid [("b", PInt 1)]].

(** A group without a bounding box around the two squares. *)
Definition two_squares : Node :=
  simple_node "GROUP" None [] [red_square; blue_square].

(** A hidden group that holds a visible square. *)
Definition hidden_group : Node :=
  simple_node "GROUP" (Some false) (box 100 50 40 40) [red_square].

(** [{"color": color, "position": position}] *)
Definition stop_at (color : numdict) (position : num) : Stop :=
  {| stop_color := color; stop_position := Some position |}.

(** ** Notions for the properties of the remaining methods *)

(** The notions below are read off the code, not the design document:
    they name what the remaining methods do. *)

Arguments Returns {A} a.
Arguments Fails {A} f.

(** The position of an element: against the parent's box when there is
    a non-empty one, otherwise the node's own coordinates. *)
Definition relative_position (parent_box : option numdict) (x y : num)
  : result (num * num) :=
  if truthy (get_or parent_box []) then
    rel_x <- sub x (get (get_or parent_box []) "x" (PInt 0)) ;;
    rel_y <- sub y (get (get_or parent_box []) "y" (PInt 0)) ;;
    Ok (rel_x, rel_y)
  else Ok (x, y).

(** A node with other children. *)
Definition with_children (n : Node) (cs : list Node) : Node :=
  {| node_type := node_type n; node_id := node_id n;
     node_name := node_name n; node_visible := node_visible n;
     absoluteBoundingBox := absoluteBoundingBox n; children := cs;
     fills := fills n; strokes := strokes n; effects := effects n;
     characters := characters n; style := style n;
     rectangleCornerRadii := rectangleCornerRadii n;
     node_nums := node_nums n |}.

(** A node with other effects. *)
Definition with_effects (n : Node) (es : list Effect) : Node :=
  {| node_type := node_type n; node_id := node_id n;
     node_name := node_name n; node_visible := node_visible n;
     absoluteBoundingBox := absoluteBoundingBox n; children := children n;
     fills := fills n; strokes := strokes n; effects := es;
     characters := characters n; style := style n;
     rectangleCornerRadii := rectangleCornerRadii n;
     node_nums := node_nums n |}.

(** What the parent's loop keeps of the collected parts: their join and
    whether there is any. *)
Definition parts_summary (parts : list string) : string * bool :=
  (join nl parts, truthy parts).

(** The font families of the text nodes the walk converts, in the order
    of the walk: hidden nodes and what is below a text node do not
    count. *)
Fixpoint rendered_fonts (node : Node) : list string :=
  if negb (is_visible (node_visible node)) then []
  else if negb (truthy (absoluteBoundingBox node)) then
    flat_map rendered_fonts (children node)
  else if String.eqb (node_type node) "TEXT" then
    [get_or (fontFamily (style node)) "Arial"]
  else flat_map rendered_fonts (children node).

(** [self.fonts_used.add(font)] for every font of a list. *)
Definition add_fonts (self : Converter) (fonts : list string) : Converter :=
  fold_left add_font fonts self.

(** The converter state [self'] continues [self]: the same image map,
    no font lost, and still no font twice. *)
Definition state_grows (self self' : Converter) : Prop :=
  image_fills self' = image_fills self
  /\ incl (fonts_used self) (fonts_used self')
  /\ (NoDup (fonts_used self) -> NoDup (fonts_used self')).

(** A paint whose ["visible"] flag is not false. *)
Definition visible_paint (p : Paint) : bool := is_visible (paint_visible p).

(** The effects [get_effects_css] turns into a token: the visible ones
    of the three kinds it knows. *)
Definition rendered_effect (e : Effect) : bool :=
  is_visible (effect_visible e)
  && (type_is (effect_type e) "DROP_SHADOW"
      || type_is (effect_type e) "INNER_SHADOW"
      || type_is (effect_type e) "LAYER_BLUR").

(** The tokens one pass of the loop of [get_effects_css] appends. *)
Definition effect_tokens (effect : Effect) : result (list string) :=
  if negb (is_visible (effect_visible effect)) then Ok []
  else
    let effect_type := effect_type effect in
    if type_is effect_type "DROP_SHADOW"
       || type_is effect_type "INNER_SHADOW" then
      css <- Color.to_css (parse_color (effect_color effect)) ;;
      let shadow :=
        str (get (effect_offset effect) "x" (PInt 0)) ++ "px "
        ++ str (get (effect_offset effect) "y" (PInt 0)) ++ "px "
        ++ str (get_or (effect_radius effect) (PInt 0)) ++ "px "
        ++ str (get_or (effect_spread effect) (PInt 0)) ++ "px " ++ css in
      Ok [if type_is effect_type "INNER_SHADOW"
          then "inset " ++ shadow else shadow]
    else if type_is effect_type "LAYER_BLUR" then
      Ok ["blur(" ++ str (get_or (effect_radius effect) (PInt 0)) ++ "px)"]
    else Ok [].

Definition is_layer_blur (e : Effect) : bool :=
  type_is (effect_type e) "LAYER_BLUR".

(** A fill that makes [collect_image_nodes] record the node. *)
Definition visible_image (fill : Paint) : bool :=
  String.eqb (paint_type fill) "IMAGE" && is_visible (paint_visible fill).

Definition has_visible_image (node : Node) : bool :=
  existsb visible_image (fills node).

(** The address [get_file_data] asks. *)
Definition file_url (file_key : string) : string :=
  base_url ++ "/files/" ++ file_key.


(** The frames [generate_html] chooses from: the visible nodes of kind
    FRAME of the document of the file, in document order. *)
Definition candidates (file_data : Body) : list Node :=
  match document file_data with
  | Some document => filter is_root_candidate (preorder document)
  | None => []
  end.

(** The link element that asks Google Fonts for a list of families,
    each written as in the address. *)
Definition font_link (families : list string) : string :=
  "<link href=" ++ dq ++ "https://fonts.googleapis.com/css2?family="
  ++ join "|" families
  ++ ":wght@100;200;300;400;500;600;700;800;900&display=swap" ++ dq
  ++ " rel=" ++ dq ++ "stylesheet" ++ dq ++ ">".

(** [f.get("name") == name] *)
Definition named (name : string) (f : Node) : bool :=
  opt_is (node_name f) name.

(** Characters other than the space, and other than the letter l. *)
Definition no_space (c : ascii) : bool := negb (Ascii.eqb c " ").

Definition no_l (c : ascii) : bool := negb (Ascii.eqb c "l").

(** The CSS properties [get_text_styles] may set, in the order in which
    it sets them. *)
Definition text_properties : list string :=
  ["font-family"; "font-size"; "font-weight"; "line-height";
   "letter-spacing"; "text-align"; "text-decoration"; "text-transform";
   "color"].

Definition is_text_property (k : string) : bool :=
  existsb (String.eqb k) text_properties.

(** The properties [get_text_styles] sets after the first three. *)
Definition optional_text_property (k : string) : bool :=
  existsb (String.eqb k)
          ["line-height"; "letter-spacing"; "text-align"; "text-decoration";
           "text-transform"; "color"].

(** What the first three assignments of [get_text_styles] establish
    and the later ones keep. *)
Definition text_core (node : Node) (d : dict string) : Prop :=
  Forall (fun k => is_text_property k = true) (map fst d)
  /\ lookup "font-family" d
     = Some ("'" ++ get_or (fontFamily (style node)) "Arial"
             ++ "', sans-serif")
  /\ lookup "font-size" d
     = Some (str (get_or (fontSize (style node)) (PInt 16)) ++ "px")
  /\ lookup "font-weight" d
     = Some (str (get_or (fontWeight (style node)) (PInt 400))).

(** The exceptions of a failed lookup: [l[i]] out of range, [d[k]]
    without the key. *)
Definition lookup_error (e : exn) : bool :=
  match e with IndexError | KeyError => true | _ => false end.

(** A computation that does not end in a failed lookup. *)
Definition no_lookup_error {A} (m : result A) : Prop :=
  forall e, m = Raise e -> lookup_error e = false.


(** ** More sample inputs *)

(** A text style with both line heights and justified text. *)
Definition open_sans : TextStyle :=
  {| fontFamily := Some "Open Sans"; fontSize := Some (PInt 18);
     fontWeight := None; lineHeightPx := Some (PInt 24);
     lineHeightPercentFontSize := Some (PInt 150);
     letterSpacing := None; textAlignHorizontal := Some "JUSTIFIED";
     textDecoration := None; textCase := None |}.

(** A text node whose characters contain markup. *)
Definition heading : Node :=
  {| node_type := "TEXT"; node_id := Some "1:3"; node_name := Some "Title";
     node_visible := None; absoluteBoundingBox := box 110 60 80 20;
     children := []; fills := []; strokes := []; effects := [];
     characters := Some "Hello <b>world</b>"; style := open_sans;
     rectangleCornerRadii := None; node_nums := [] |}.

(** A rectangle with a hidden solid fill and an image fill. *)
Definition photo : Node :=
  {| node_type := "RECTANGLE"; node_id := Some "1:2"; node_name := Some "Photo";
     node_visible := None; absoluteBoundingBox := box 200 60 50 50;
     children := [];
     fills := [hidden (solid [("r", PInt 1)]); paint_of_type "IMAGE"];
     strokes := []; effects := [];
     characters := None; style := no_style;
     rectangleCornerRadii := None; node_nums := [] |}.

(** A frame around the heading, the group of two squares and the
    photo. *)
Definition home : Node :=
  {| node_type := "FRAME"; node_id := Some "1:1"; node_name := Some "Home";
     node_visible := None; absoluteBoundingBox := frame_box;
     children := [heading; two_squares; photo];
     fills := []; strokes := []; effects := [];
     characters := None; style := no_style;
     rectangleCornerRadii := None; node_nums := [] |}.

(** A document with one page that holds the frame. *)
Definition sample_document : Node :=
  simple_node "DOCUMENT" None [] [simple_node "CANVAS" None [] [home]].

(** The decoded body of an answer: a document and the address of one
    image. *)
Definition file_body (doc : option Node) : Body :=
  {| document := doc;
     images := Some [("1:2", "https://example.org/a.png")] |}.

(** Three answers: 404 with a body that is not JSON, a file without a
    frame, and the sample document. *)
Definition not_found_response : Response :=
  {| status_code := 404; text := "Not found"; json := None |}.

Definition frameless_response : Response :=
  {| status_code := 200; text := "";
     json := Some (file_body (Some red_square)) |}.

Definition sample_response : Response :=
  {| status_code := 200; text := "";
     json := Some (file_body (Some sample_document)) |}.

(** Four networks: one for each answer, and one without connection. *)
Definition offline (url : string) : reply := Answers not_found_response.

Definition frameless (url : string) : reply := Answers frameless_response.

Definition sample_network (url : string) : reply := Answers sample_response.


(** An order of iteration that is not the order of insertion. *)
Definition sample_order (fonts : list string) : list string := List.rev fonts.

(** A drop shadow and a layer blur. *)
Definition drop_shadow : Effect :=
  {| effect_type := "DROP_SHADOW"; effect_visible := None;
     effect_offset := xy 0 4; effect_radius := Some (PInt 8);
     effect_spread := None; effect_color := [("a", PFloat 0.25)] |}.

Definition layer_blur : Effect :=
  {| effect_type := "LAYER_BLUR"; effect_visible := None;
     effect_offset := []; effect_radius := Some (PInt 4);
     effect_spread := None; effect_color := [] |}.

(** A rectangle with a hidden stroke before two visible ones. *)
Definition outlined : Node :=
  with_strokes (rectangle 0 0 10 10 [])
               [hidden (solid []); solid [("r", PInt 1)]; solid []].

(** A rectangle with a fill of a kind [get_fills_css] does not know. *)
Definition radial_patch : Node :=
  rectangle 0 0 1 1 [paint_of_type "GRADIENT_RADIAL"].

(** The styles [get_text_styles] gives the heading. *)
Definition heading_styles : dict string :=
  [("font-family", "'Open Sans', sans-serif"); ("font-size", "18px");
   ("font-weight", "400"); ("line-height", "24px");
   ("text-align", "justify")].

(** The heading converted inside the frame, the frame converted as the
    root, and a whole run on the sample network. *)
Definition heading_run : result (string * Converter) :=
  node_to_html sample_atan2 2 heading (Some frame_box) 1 sample_converter.

Definition home_run : result (string * Converter) :=
  node_to_html sample_atan2 2 home None 0 sample_converter.

Definition sample_run : list string * outcome (string * Converter) :=
  generate_html sample_atan2 2 sample_order sample_network sample_converter
                "KEY" None.

(** What a conversion returned. *)
Definition output_of (run : result (string * Converter)) : string :=
  match run with Ok (html, _) => html | Raise _ => "" end.

Definition state_of (run : result (string * Converter)) : Converter :=
  match run with Ok (_, self) => self | Raise _ => sample_converter end.

(** What a run returned. *)
Definition page_of (run : list string * outcome (string * Converter))
  : string :=
  match snd run with Returns (html, _) => html | Fails _ => "" end.

Definition converter_of (run : list string * outcome (string * Converter))
  : Converter :=
  match snd run with Returns (_, self) => self | Fails _ => sample_converter end.

(* ================================================================== *)
(** * Theorems *)
(* ================================================================== *)

(** ** Strings *)

Lemma append_assoc (s1 s2 s3 : string) :
  (s1 ++ s2) ++ s3 = s1 ++ (s2 ++ s3).
Proof. induction s1 as [|c s1 IH]; cbn; [reflexivity | now rewrite IH]. Qed.

Lemma append_nil_r (s : string) : s ++ "" = s.
Proof. induction s as [|c s IH]; cbn; [reflexivity | now rewrite IH]. Qed.

(** ** The tree walk *)

Lemma node_to_html_passthrough atan2 limit node parent_box depth self :
  is_visible (node_visible node) = true ->
  absoluteBoundingBox node = [] ->
  node_to_html atan2 limit node parent_box depth self =
  ('(html_parts, self) <-
     collect_children
       (fun child self => node_to_html atan2 limit child parent_box depth self)
       (children node) self ;;
   Ok (join nl html_parts, self)).
Proof.
  intros Hv Hb.
  destruct node as [ty id nm vis bb cs fl st ef chs sty rr nums].
  cbn [node_visible absoluteBoundingBox children] in *. subst bb.
  cbn [node_to_html node_visible absoluteBoundingBox children].
  rewrite Hv. reflexivity.
Qed.

(** The loop that appends the non-empty outputs to [acc] is the
    traversal followed by a filter. *)
Lemma collect_children_acc walk cs acc self :
  for_loop (append_child walk) cs (acc, self) =
  ('(outs, s) <- convert_all walk cs self ;;
   Ok ((acc ++ filter nonempty outs)%list, s)).
Proof.
  revert acc self. induction cs as [|c cs IH]; intros acc self;
    cbn [for_loop convert_all bind].
  - now rewrite app_nil_r.
  - unfold append_child at 1.
    destruct (walk c self) as [[html s1]|e]; cbn [bind]; [|reflexivity].
    destruct (nonempty html) eqn:Hne; cbn [bind]; rewrite IH;
      destruct (convert_all walk cs s1) as [[outs s2]|e]; cbn [bind filter];
      rewrite ?Hne; try reflexivity.
    now rewrite <- app_assoc.
Qed.

Lemma collect_children_spec walk cs self :
  collect_children walk cs self =
  ('(outs, s) <- convert_all walk cs self ;; Ok (filter nonempty outs, s)).
Proof. unfold collect_children. now rewrite collect_children_acc. Qed.

(** C6. A visible node without a bounding box is a transparent
    pass-through: its output is the newline-joined concatenation of the
    non-empty outputs of its children, each converted against the same
    parent reference box and at the same depth (the converter state is
    handed from child to child, and an exception of a child is the
    exception of the node); the node adds no element of its own, so
    without children its output is the empty string, and with two
    children that both emit something it is the first output, a
    newline, and the second output. *)
Theorem passthrough_without_bounding_box
        atan2 limit node parent_box depth self :
  is_visible (node_visible node) = true ->
  absoluteBoundingBox node = [] ->
  node_to_html atan2 limit node parent_box depth self =
  ('(outs, s) <-
     convert_all
       (fun child s => node_to_html atan2 limit child parent_box depth s)
       (children node) self ;;
   Ok (join nl (filter nonempty outs), s))
  /\ (children node = [] ->
      node_to_html atan2 limit node parent_box depth self = Ok ("", self))
  /\ (forall c1 c2 h1 h2 s1 s2,
         children node = [c1; c2] ->
         node_to_html atan2 limit c1 parent_box depth self = Ok (h1, s1) ->
         node_to_html atan2 limit c2 parent_box depth s1 = Ok (h2, s2) ->
         nonempty h1 = true -> nonempty h2 = true ->
         node_to_html atan2 limit node parent_box depth self
         = Ok (h1 ++ nl ++ h2, s2)).
Proof.
  intros Hv Hb. rewrite node_to_html_passthrough by assumption.
  rewrite collect_children_spec. split; [|split].
  - now destruct (convert_all _ _ _) as [[outs s]|e].
  - intros ->. reflexivity.
  - intros c1 c2 h1 h2 s1 s2 -> H1 H2 N1 N2.
    cbn [convert_all bind]. rewrite H1. cbn [bind]. rewrite H2.
    cbn [bind filter]. rewrite N1, N2. reflexivity.
Qed.

Lemma passthrough_without_bounding_box_witness :
  node_to_html sample_atan2 2 two_squares (Some frame_box) 1 sample_converter
  = ('(outs, s) <-
       convert_all
         (fun child s =>
            node_to_html sample_atan2 2 child (Some frame_box) 1 s)
         [red_square; blue_square] sample_converter ;;
     Ok (join nl (filter nonempty outs), s)).
Proof.
  exact (proj1 (passthrough_without_bounding_box
                  sample_atan2 2 two_squares (Some frame_box) 1
                  sample_converter eq_refl eq_refl)).
Defined.

(** The group's output is the two squares' outputs, each placed against
    the frame box, with a newline between them and nothing around. *)
Example two_squares_output :
  node_to_html sample_atan2 2 two_squares (Some frame_box) 1 sample_converter
  = Ok ("<div class=" ++ dq ++ "rectangle-node" ++ dq ++ " style=" ++ dq
        ++ "position: absolute; left: 10px; top: 20px; width: 20px; "
        ++ "height: 30px; background: rgb(255, 0, 0)" ++ dq ++ "></div>"
        ++ nl
        ++ "<div class=" ++ dq ++ "rectangle-node" ++ dq ++ " style=" ++ dq
        ++ "position: absolute; left: 50px; top: 40px; width: 10px; "
        ++ "height: 10px; background: rgb(0, 0, 255)" ++ dq ++ "></div>",
        sample_converter).
Proof. reflexivity. Qed.

Lemma node_to_html_invisible atan2 limit node parent_box depth self :
  node_visible node = Some false ->
  node_to_html atan2 limit node parent_box depth self = Ok ("", self).
Proof.
  intros H.
  destruct node as [ty id nm vis bb cs fl st ef chs sty rr nums].
  cbn [node_visible] in H. subst vis. reflexivity.
Qed.

(** A child whose output is empty leaves the parent's loop as it was. *)
Lemma for_loop_skips_silent_child walk node before after :
  (forall self, walk node self = Ok ("", self)) ->
  forall state,
    for_loop (append_child walk) (before ++ node :: after) state
    = for_loop (append_child walk) (before ++ after) state.
Proof.
  intros Hw. induction before as [|c before IH]; intros [parts self];
    cbn [app for_loop].
  - unfold append_child at 1. now rewrite Hw.
  - destruct (append_child walk c (parts, self)) as [state|e];
      cbn [bind]; [apply IH | reflexivity].
Qed.

(** C7. An invisible node yields the empty string, whatever its
    children, their flags, the parent reference box and the depth, and
    leaves the converter state as it was; as a child, at any place
    among its siblings, it adds nothing to what its parent collects. *)
Theorem invisible_node_is_skipped atan2 limit node :
  node_visible node = Some false ->
  (forall parent_box depth self,
      node_to_html atan2 limit node parent_box depth self = Ok ("", self))
  /\ (forall parent_box depth before after self,
         collect_children
           (fun child s => node_to_html atan2 limit child parent_box depth s)
           (before ++ node :: after) self
         = collect_children
             (fun child s => node_to_html atan2 limit child parent_box depth s)
             (before ++ after) self).
Proof.
  intros H. split.
  - intros. now apply node_to_html_invisible.
  - intros. unfold collect_children.
    apply for_loop_skips_silent_child.
    intros s. now apply node_to_html_invisible.
Qed.

Lemma invisible_node_is_skipped_witness :
  node_to_html sample_atan2 2 hidden_group None 0 sample_converter
  = Ok ("", sample_converter)
  /\ collect_children
       (fun child s => node_to_html sample_atan2 2 child (Some frame_box) 1 s)
       [red_square; hidden_group; blue_square] sample_converter
     = collect_children
         (fun child s => node_to_html sample_atan2 2 child (Some frame_box) 1 s)
         [red_square; blue_square] sample_converter.
Proof.
  destruct (invisible_node_is_skipped sample_atan2 2 hidden_group eq_refl)
    as [H1 H2].
  split; [apply H1|].
  exact (H2 (Some frame_box) 1 [red_square] [blue_square] sample_converter).
Defined.

(** ** The frame collector *)

Lemma find_frames_unfold node frames :
  find_frames node frames =
  fold_left (fun frames child => find_frames child (Some frames))
            (children node)
            (if is_root_candidate node
             then (get_or frames [] ++ [node])%list else get_or frames []).
Proof. destruct node; reflexivity. Qed.

Lemma preorder_unfold node :
  preorder node = node :: flat_map preorder (children node).
Proof. destruct node; reflexivity. Qed.

Lemma find_frames_children cs :
  Forall (fun node => forall acc,
            find_frames node (Some acc) =
            (acc ++ filter is_root_candidate (preorder node))%list) cs ->
  forall acc,
    fold_left (fun frames child => find_frames child (Some frames)) cs acc =
    (acc ++ filter is_root_candidate (flat_map preorder cs))%list.
Proof.
  induction 1 as [|c cs Hc _ IH]; intros acc; cbn [fold_left flat_map].
  - cbn. now rewrite app_nil_r.
  - now rewrite Hc, IH, filter_app, app_assoc.
Qed.

Lemma find_frames_acc node : forall acc,
  find_frames node (Some acc) =
  (acc ++ filter is_root_candidate (preorder node))%list.
Proof.
  induction node as [node IH] using Node_ind. intros acc.
  rewrite find_frames_unfold, preorder_unfold, find_frames_children by exact IH.
  cbn [get_or filter].
  destruct (is_root_candidate node); [now rewrite <- app_assoc | reflexivity].
Qed.

(** C8. [find_frames] returns exactly the nodes of kind FRAME whose own
    flag is visible, in depth-first pre-order; every node's children
    are searched whatever the flags, so a visible frame below an
    invisible ancestor is collected although the tree walk emits
    nothing for that ancestor. *)
Theorem find_frames_collects_root_candidates :
  (forall node,
      find_frames node None = filter is_root_candidate (preorder node))
  /\ (forall atan2 limit ancestor frame parent_box depth self,
         node_visible ancestor = Some false ->
         In frame (preorder ancestor) ->
         is_root_candidate frame = true ->
         In frame (find_frames ancestor None)
         /\ node_to_html atan2 limit ancestor parent_box depth self
            = Ok ("", self)).
Proof.
  assert (H : forall node,
             find_frames node None = filter is_root_candidate (preorder node)).
  { intros node. rewrite find_frames_unfold, preorder_unfold.
    rewrite find_frames_children
      by (apply Forall_forall; intros; apply find_frames_acc).
    cbn [get_or filter app]. now destruct (is_root_candidate node). }
  split; [exact H|].
  intros atan2 limit ancestor frame parent_box depth self Hv Hin Hc. split.
  - rewrite H. apply filter_In. now split.
  - now apply node_to_html_invisible.
Qed.

Lemma find_frames_collects_root_candidates_witness :
  In (simple_node "FRAME" None (box 0 0 10 10) [])
     (find_frames hidden_page None)
  /\ node_to_html sample_atan2 2 hidden_page None 0 sample_converter
     = Ok ("", sample_converter).
Proof.
  apply (proj2 find_frames_collects_root_candidates).
  - reflexivity.
  - cbn. right. left. reflexivity.
  - reflexivity.
Defined.

(** ** The root of the walk *)

Lemma setitem_after_base (base extra : dict string) k v :
  lookup k base = None ->
  setitem (base ++ extra)%list k v = (base ++ setitem extra k v)%list.
Proof.
  induction base as [|[k' v'] base IH]; cbn [app lookup setitem];
    [reflexivity|].
  destruct (String.eqb k k'); [discriminate|].
  intros H. now rewrite IH.
Qed.

Lemma lookup_base_styles k x y w h :
  is_base_key k = false -> lookup k (base_styles x y w h) = None.
Proof.
  unfold is_base_key, base_styles. cbn [existsb lookup].
  rewrite !orb_false_iff. intros (-> & -> & -> & -> & -> & _). reflexivity.
Qed.

Lemma update_after_base x y w h (extra other : dict string) :
  fresh_keys other ->
  update (base_styles x y w h ++ extra)%list other
  = (base_styles x y w h ++ update extra other)%list.
Proof.
  unfold update. intros H. revert extra.
  induction H as [|[k v] other Hk _ IH]; intros extra; cbn [fold_left fst snd];
    [reflexivity|].
  rewrite setitem_after_base by now apply lookup_base_styles.
  apply IH.
Qed.

Lemma fresh_keys_setitem d k v :
  fresh_keys d -> is_base_key k = false -> fresh_keys (setitem d k v).
Proof.
  unfold fresh_keys. intros Hd Hk.
  induction Hd as [|[k' v'] d Hk' Hd IH]; cbn [setitem].
  - constructor; [exact Hk | constructor].
  - destruct (String.eqb k k').
    + constructor; [exact Hk | exact Hd].
    + constructor; [exact Hk' | exact IH].
Qed.

Ltac fresh_keys_tac :=
  repeat first
    [ apply Forall_nil
    | apply Forall_cons; [reflexivity|]
    | apply fresh_keys_setitem; [|reflexivity]
    | match goal with
      | |- fresh_keys (match ?o with _ => _ end) => destruct o
      end ].

Lemma get_text_styles_fresh atan2 limit self node ts self' :
  get_text_styles atan2 limit self node = Ok (ts, self') -> fresh_keys ts.
Proof.
  unfold get_text_styles. cbv zeta.
  destruct (truthy (fills node)).
  - destruct (get_fills_css _ _ _ _ _) as [color|e]; cbn [bind];
      [|discriminate].
    intros [= <- <-]. fresh_keys_tac.
  - intros [= <- <-]. fresh_keys_tac.
Qed.

Lemma Ok_inj {A} (a b : A) : Ok a = Ok b -> a = b.
Proof. now intros [= ->]. Qed.

Lemma after_base_refl base : after_base base base.
Proof. exists []. now rewrite app_nil_r. Qed.

Lemma after_base_setitem base styles k v :
  lookup k base = None ->
  after_base base styles -> after_base base (setitem styles k v).
Proof.
  intros Hk [extra ->]. exists (setitem extra k v).
  now apply setitem_after_base.
Qed.

Lemma after_base_update x y w h styles other :
  fresh_keys other ->
  after_base (base_styles x y w h) styles ->
  after_base (base_styles x y w h) (update styles other).
Proof.
  intros Hf [extra ->]. exists (update extra other).
  now apply update_after_base.
Qed.

(** Every element starts with the geometry styles of the node: its own
    [x] and [y] when there is no parent reference box. *)
Lemma root_element_shape atan2 limit node depth self html self' :
  is_visible (node_visible node) = true ->
  truthy (absoluteBoundingBox node) = true ->
  node_to_html atan2 limit node None depth self = Ok (html, self') ->
  exists class_name extra rest,
    html = "<div class=" ++ dq ++ class_name ++ dq ++ " style=" ++ dq
           ++ style_string
                (base_styles (get (absoluteBoundingBox node) "x" (PInt 0))
                             (get (absoluteBoundingBox node) "y" (PInt 0))
                             (get (absoluteBoundingBox node) "width" (PInt 0))
                             (get (absoluteBoundingBox node) "height" (PInt 0))
                 ++ extra)%list
           ++ dq ++ ">" ++ rest.
Proof.
  intros Hv Hb.
  destruct node as [ty id nm vis bb cs fl st ef chs sty rr nums].
  cbn [node_visible absoluteBoundingBox] in Hv, Hb.
  cbn [node_to_html node_visible absoluteBoundingBox node_type
       node_id node_name children fills effects characters
       node_nums get_or].
  rewrite Hv, Hb. cbn [negb truthy bind].
  generalize (get bb "x" (PInt 0)), (get bb "y" (PInt 0)),
             (get bb "width" (PInt 0)), (get bb "height" (PInt 0)).
  intros x y w h.
  pose proof (after_base_refl (base_styles x y w h)) as Hbase.
  destruct (String.eqb ty "TEXT").
  - (* text *)
    destruct (get_text_styles _ _ _ _) as [[ts s1]|e] eqn:Ets; cbn [bind];
      [|discriminate].
    apply get_text_styles_fresh in Ets.
    pose proof (after_base_update _ _ _ _ _ _ Ets Hbase) as H1.
    revert H1. generalize (update (base_styles x y w h) ts). intros styles1 H1.
    match goal with
    | |- bind ?m _ = _ -> _ => destruct m as [styles2|e] eqn:E2; cbn [bind];
                               [|discriminate]
    end.
    assert (H2 : after_base (base_styles x y w h) styles2).
    { revert E2. destruct fl as [|f fl']; [intros E%Ok_inj; rewrite <- E; exact H1|].
      destruct (negb _); [|intros E%Ok_inj; rewrite <- E; exact H1].
      destruct (get_fills_css _ _ _ _ _); cbn [bind]; [|discriminate].
      destruct (negb _); intros E%Ok_inj; rewrite <- E; [|exact H1].
      apply after_base_setitem; [reflexivity | exact H1]. }
    clear E2 H1 styles1.
    match goal with
    | |- bind ?m _ = _ -> _ => destruct m as [styles3|e] eqn:E3; cbn [bind];
                               [|discriminate]
    end.
    assert (H3 : after_base (base_styles x y w h) styles3).
    { revert E3. destruct (truthy ef); [|intros E%Ok_inj; rewrite <- E; exact H2].
      destruct (get_effects_css ef); cbn [bind]; [|discriminate]. cbv zeta.
      destruct (truthy (without_blur _)); intros E%Ok_inj; rewrite <- E; [|exact H2].
      apply after_base_setitem; [reflexivity | exact H2]. }
    clear E3 H2 styles2.
    intros [= <- <-]. destruct H3 as [extra ->].
    now exists "text-node", extra, (get_or chs "" ++ "</div>").
  - (* container *)
    match goal with
    | |- bind ?m _ = _ -> _ => destruct m as [styles1|e] eqn:E1; cbn [bind];
                               [|discriminate]
    end.
    assert (H1 : after_base (base_styles x y w h) styles1).
    { revert E1. destruct (truthy fl); [|intros E%Ok_inj; rewrite <- E; exact Hbase].
      destruct (get_fills_css _ _ _ _ _); cbn [bind]; [|discriminate].
      intros E%Ok_inj; rewrite <- E. apply after_base_setitem; [reflexivity | exact Hbase]. }
    clear E1 Hbase.
    destruct (get_strokes_css _) as [[[bw bs] bc]|e]; cbn [bind];
      [|discriminate].
    destruct (get_border_radius _) as [br|e]; cbn [bind]; [|discriminate].
    match goal with
    | |- bind ?m _ = _ -> _ => destruct m as [styles4|e] eqn:E4; cbn [bind];
                               [|discriminate]
    end.
    assert (H4 : after_base (base_styles x y w h) styles4).
    { assert (Hs : forall s, after_base (base_styles x y w h) s ->
                        after_base (base_styles x y w h)
                          (if negb (br =? "0px")%string
                           then setitem (setitem s "border-radius" br)
                                        "overflow" "hidden"
                           else s)).
      { intros s Hs. destruct (negb _); [|exact Hs].
        repeat (apply after_base_setitem; [reflexivity|]). exact Hs. }
      assert (Hb2 : after_base (base_styles x y w h)
                      (if nonempty bw
                       then setitem styles1 "border"
                                    (bw ++ " " ++ bs ++ " " ++ bc)
                       else styles1)).
      { destruct (nonempty bw); [|exact H1].
        apply after_base_setitem; [reflexivity | exact H1]. }
      revert E4. destruct (truthy ef); [|intros E%Ok_inj; rewrite <- E; now apply Hs].
      destruct (get_effects_css ef); cbn [bind]; [|discriminate]. cbv zeta.
      destruct (truthy (without_blur _)); intros E%Ok_inj; rewrite <- E; [|now apply Hs].
      apply after_base_setitem; [reflexivity | now apply Hs]. }
    clear E4 H1.
    assert (H5 : after_base (base_styles x y w h)
                   (if ltb (get nums "opacity" (PFloat 1)) (PFloat 1)
                    then setitem styles4 "opacity"
                                 (str (get nums "opacity" (PFloat 1)))
                    else styles4)).
    { destruct (ltb _ _); [|exact H4].
      apply after_base_setitem; [reflexivity | exact H4]. }
    destruct H5 as [extra ->].
    destruct (collect_children _ _ _) as [[parts s2]|e]; cbn [bind];
      [|discriminate].
    destruct (truthy parts); intros [= <- <-].
    + now exists (lower ty ++ "-node"), extra,
                 (nl ++ join nl parts ++ nl ++ "</div>").
    + now exists (lower ty ++ "-node"), extra, "</div>".
Qed.

(** C1. Called without a parent reference box on a visible node that
    has a bounding box, the walk emits an element whose [left] and
    [top] style values are the node's own [x] and [y]: its absolute
    document coordinates, which are [0px] only for a box that starts at
    the origin. *)
Theorem root_keeps_absolute_coordinates
        atan2 limit node depth self html self' :
  is_visible (node_visible node) = true ->
  truthy (absoluteBoundingBox node) = true ->
  node_to_html atan2 limit node None depth self = Ok (html, self') ->
  exists class_name styles rest,
    html = "<div class=" ++ dq ++ class_name ++ dq ++ " style=" ++ dq
           ++ style_string styles ++ dq ++ ">" ++ rest
    /\ lookup "left" styles
       = Some (str (get (absoluteBoundingBox node) "x" (PInt 0)) ++ "px")
    /\ lookup "top" styles
       = Some (str (get (absoluteBoundingBox node) "y" (PInt 0)) ++ "px").
Proof.
  intros Hv Hb H.
  destruct (root_element_shape _ _ _ _ _ _ _ Hv Hb H)
    as (class_name & extra & rest & ->).
  eexists class_name, _, rest. split; [reflexivity|]. split; reflexivity.
Qed.

(** A frame at [(100, 50)] converted as the root: [left] is [100px] and
    [top] is [50px]. *)
Lemma root_keeps_absolute_coordinates_witness :
  exists class_name styles rest,
    "<div class=" ++ dq ++ "frame-node" ++ dq ++ " style=" ++ dq
    ++ "position: absolute; left: 100px; top: 50px; "
    ++ "width: 200px; height: 100px" ++ dq ++ "></div>"
    = "<div class=" ++ dq ++ class_name ++ dq ++ " style=" ++ dq
      ++ style_string styles ++ dq ++ ">" ++ rest
    /\ lookup "left" styles = Some "100px"
    /\ lookup "top" styles = Some "50px".
Proof.
  exact (root_keeps_absolute_coordinates
           sample_atan2 2 (simple_node "FRAME" None frame_box []) 0
           sample_converter _ sample_converter eq_refl eq_refl eq_refl).
Defined.

(** The same by evaluation, for every converter state. *)
Example root_at_100_50 atan2 limit self :
  node_to_html atan2 limit (simple_node "FRAME" None frame_box []) None 0 self
  = Ok ("<div class=" ++ dq ++ "frame-node" ++ dq ++ " style=" ++ dq
        ++ "position: absolute; left: 100px; top: 50px; "
        ++ "width: 200px; height: 100px" ++ dq ++ "></div>", self).
Proof. reflexivity. Qed.

(** ** Numbers *)

Lemma SFcompare_antisym (x y : spec_float) :
  SFcompare y x = option_map CompOpp (SFcompare x y).
Proof.
  destruct x as [sx|sx| |sx mx ex], y as [sy|sy| |sy my ey]; cbn;
    try reflexivity;
    try (destruct sx; reflexivity); try (destruct sy; reflexivity);
    try (destruct sx, sy; reflexivity).
  assert (Hm : Pos.compare_cont Eq my mx = CompOpp (Pos.compare_cont Eq mx my))
    by (now rewrite Pos.compare_cont_antisym).
  destruct sx, sy; cbn; try reflexivity;
    rewrite (Z.compare_antisym ex ey), Hm;
    destruct (ex ?= ey); cbn; try reflexivity;
    now destruct (Pos.compare_cont Eq mx my).
Qed.

Lemma float_leb_not_ltb (x y : float) :
  PrimFloat.leb x y = true -> PrimFloat.ltb y x = false.
Proof.
  rewrite leb_spec, ltb_spec. unfold SFleb, SFltb.
  rewrite (SFcompare_antisym (Prim2SF x) (Prim2SF y)).
  now destruct (SFcompare (Prim2SF x) (Prim2SF y)) as [[]|].
Qed.

(** [a <= b] excludes [b < a], also across [int] and [float]. *)
Lemma leb_not_ltb (a b : num) : leb a b = true -> ltb b a = false.
Proof.
  destruct a as [x|x], b as [y|y]; cbn.
  - intros H. apply Z.leb_le in H. apply Z.ltb_ge. exact H.
  - now destruct (cmp_int_float x y) as [[]|].
  - now destruct (cmp_int_float y x) as [[]|].
  - apply float_leb_not_ltb.
Qed.

(** [int(f)] is the quotient of the exact value rounded toward zero. *)
Lemma trunc_float_quot (f : float) (n d : Z) :
  exact_fraction f = Some (n, d) -> trunc_float f = Ok (Z.quot n d).
Proof.
  unfold exact_fraction, trunc_float.
  destruct (Prim2SF f) as [s|s| |s m e]; try discriminate.
  - intros [= <- <-]. reflexivity.
  - intros [= <- <-]. f_equal.
    destruct (Z.ltb_spec e 0) as [He|He].
    + rewrite (Z.max_r e 0), (Z.max_l (- e) 0) by lia.
      rewrite Z.pow_0_r, Z.mul_1_r.
      assert (Hd : 0 < 2 ^ (- e)) by (apply Z.pow_pos_nonneg; lia).
      destruct s; cbn [signed].
      * change (Z.neg m) with (- Z.pos m).
        rewrite Z.quot_opp_l by lia. f_equal.
        symmetry. apply Z.quot_div_nonneg; lia.
      * symmetry. apply Z.quot_div_nonneg; lia.
    + rewrite (Z.max_l e 0), (Z.max_r (- e) 0) by lia.
      rewrite Z.pow_0_r, Z.quot_1_r.
      destruct s; cbn [signed]; [|reflexivity].
      change (Z.neg m) with (- Z.pos m). lia.
Qed.

(** ** Colour tokens *)

Lemma length_append (s1 s2 : string) :
  String.length (s1 ++ s2) = (String.length s1 + String.length s2)%nat.
Proof. induction s1 as [|c s1 IH]; cbn; [reflexivity | now rewrite IH]. Qed.

Lemma all_chars_append p (s1 s2 : string) :
  all_chars p (s1 ++ s2) = all_chars p s1 && all_chars p s2.
Proof.
  induction s1 as [|c s1 IH]; cbn; [reflexivity|].
  now rewrite IH, andb_assoc.
Qed.

Lemma format_02x_byte (z : Z) :
  0 <= z <= 255 -> two_hex_digits (format_02x z) = true.
Proof.
  intros Hz.
  assert (H : forallb (fun n => two_hex_digits (format_02x (Z.of_nat n)))
                      (seq 0 256) = true) by (vm_compute; reflexivity).
  rewrite forallb_forall in H.
  replace z with (Z.of_nat (Z.to_nat z)) by lia.
  apply H, in_seq. lia.
Qed.

Lemma hex6_of_bytes (R G B : Z) :
  0 <= R <= 255 -> 0 <= G <= 255 -> 0 <= B <= 255 ->
  is_hex6 ("#" ++ format_02x R ++ format_02x G ++ format_02x B) = true.
Proof.
  intros HR HG HB.
  apply format_02x_byte in HR, HG, HB. unfold two_hex_digits in *.
  apply andb_true_iff in HR, HG, HB.
  destruct HR as [LR CR], HG as [LG CG], HB as [LB CB].
  apply Nat.eqb_eq in LR, LG, LB.
  cbn [append is_hex6].
  rewrite !length_append, !all_chars_append, LR, LG, LB, CR, CG, CB.
  reflexivity.
Qed.

(** In the range of a byte [format(z, "02x")] is the two digits of
    [z]. *)
Lemma format_02x_byte_hex (z : Z) :
  0 <= z <= 255 -> format_02x z = byte_hex z.
Proof.
  intros Hz.
  assert (H : forallb (fun n => String.eqb (format_02x (Z.of_nat n))
                                           (byte_hex (Z.of_nat n)))
                      (seq 0 256) = true) by (vm_compute; reflexivity).
  rewrite forallb_forall in H.
  replace z with (Z.of_nat (Z.to_nat z)) by lia.
  apply String.eqb_eq, H, in_seq. lia.
Qed.

(** A negative value is written with a minus sign, which is no
    hexadecimal digit. *)
Lemma format_02x_negative (z : Z) :
  z < 0 -> all_chars is_lower_hex (format_02x z) = false.
Proof.
  intros Hz. unfold format_02x.
  destruct (Z.ltb_spec z 0); [reflexivity | lia].
Qed.

Lemma format_02x_minus (z : Z) :
  z < 0 -> exists digits, format_02x z = "-" ++ digits.
Proof.
  intros Hz. unfold format_02x.
  destruct (Z.ltb_spec z 0); [now eexists | lia].
Qed.

Lemma length_repeat_char c n : String.length (repeat_char c n) = n.
Proof. induction n as [|n IH]; cbn; [reflexivity | now rewrite IH]. Qed.

Lemma length_zfill w s :
  String.length (zfill w s) = Nat.max w (String.length s).
Proof. unfold zfill. rewrite length_append, length_repeat_char. lia. Qed.

Lemma hex_uint_empty d :
  String.length (HexadecimalString.NilEmpty.string_of_uint d) = 0%nat ->
  d = Hexadecimal.Nil.
Proof. destruct d; cbn; congruence. Qed.

(** A numeral of at most two digits is below 256. *)
Lemma short_hex_uint_small d :
  (String.length (HexadecimalString.NilZero.string_of_uint d) <= 2)%nat ->
  (N.of_hex_uint d <= 255)%N.
Proof.
  unfold HexadecimalString.NilZero.string_of_uint.
  destruct d as [|d|d|d|d|d|d|d|d|d|d|d|d|d|d|d|d];
    [intros _; vm_compute; discriminate|..];
    (destruct d as [|d|d|d|d|d|d|d|d|d|d|d|d|d|d|d|d];
     [intros _; vm_compute; discriminate|..]);
    cbn [HexadecimalString.NilEmpty.string_of_uint String.length];
    intros H;
    (assert (E : d = Hexadecimal.Nil) by (apply hex_uint_empty; lia));
    subst d; vm_compute; discriminate.
Qed.

(** Above 255 there are three digits or more. *)
Lemma length_format_02x_large (z : Z) :
  255 < z -> (3 <= String.length (format_02x z))%nat.
Proof.
  intros Hz. unfold format_02x.
  destruct (Z.ltb_spec z 0); [lia|].
  rewrite length_zfill. unfold hex_nat.
  pose proof (short_hex_uint_small (N.to_hex_uint (Z.to_N z))) as Hs.
  rewrite HexadecimalN.Unsigned.of_to in Hs.
  destruct (le_lt_dec (String.length
                         (HexadecimalString.NilZero.string_of_uint
                            (N.to_hex_uint (Z.to_N z)))) 2) as [Hl|Hl];
    [specialize (Hs Hl); lia | lia].
Qed.

Lemma length_format_02x_nonneg (z : Z) :
  0 <= z -> (2 <= String.length (format_02x z))%nat.
Proof.
  intros Hz. unfold format_02x.
  destruct (Z.ltb_spec z 0); [lia|]. rewrite length_zfill. lia.
Qed.

(** The token is of the 6-digit form only when the three values are
    bytes. *)
Lemma hex6_only_of_bytes (R G B : Z) :
  is_hex6 ("#" ++ format_02x R ++ format_02x G ++ format_02x B) = true ->
  0 <= R <= 255 /\ 0 <= G <= 255 /\ 0 <= B <= 255.
Proof.
  cbn [append is_hex6].
  rewrite !length_append, !all_chars_append, !andb_true_iff, Nat.eqb_eq.
  intros (Hl & HR & HG & HB).
  assert (PR : 0 <= R)
    by (destruct (Z_lt_le_dec R 0) as [H|H];
        [rewrite format_02x_negative in HR by exact H; discriminate | exact H]).
  assert (PG : 0 <= G)
    by (destruct (Z_lt_le_dec G 0) as [H|H];
        [rewrite format_02x_negative in HG by exact H; discriminate | exact H]).
  assert (PB : 0 <= B)
    by (destruct (Z_lt_le_dec B 0) as [H|H];
        [rewrite format_02x_negative in HB by exact H; discriminate | exact H]).
  pose proof (length_format_02x_nonneg R PR).
  pose proof (length_format_02x_nonneg G PG).
  pose proof (length_format_02x_nonneg B PB).
  destruct (Z_lt_le_dec 255 R) as [LR|LR];
    [pose proof (length_format_02x_large R LR); lia|].
  destruct (Z_lt_le_dec 255 G) as [LG|LG];
    [pose proof (length_format_02x_large G LG); lia|].
  destruct (Z_lt_le_dec 255 B) as [LB|LB];
    [pose proof (length_format_02x_large B LB); lia|].
  lia.
Qed.

(** C4, as amended. For every colour whose three channels, scaled by
    255, convert to integers [R], [G], [B] (the conversion truncates
    toward zero and is undefined for an infinite or NaN product): with
    alpha at least 1.0 the paint token is the 3-channel [rgb(...)]
    form; with alpha below 1.0 it is the 4-channel [rgba(...)] form
    carrying alpha unscaled; the hex token is ["#"] followed by
    [format(v, "02x")] of [R], [G] and [B], alpha ignored. When the
    three values are within 0..255 this is the lower-case 6-digit
    form, two digits for each value, the high one first; and it is of
    the 6-digit form in that case only: a negative value is written
    with a minus sign first, and a value above 255 takes three digits
    or more. *)
Theorem color_tokens (c : Color.t) (R G B : Z) :
  Color.channel (Color.r c) = Ok R ->
  Color.channel (Color.g c) = Ok G ->
  Color.channel (Color.b c) = Ok B ->
  (leb (PFloat 1.0) (Color.a c) = true ->
   Color.to_css c
   = Ok ("rgb(" ++ str_int R ++ ", " ++ str_int G ++ ", " ++ str_int B ++ ")"))
  /\ (ltb (Color.a c) (PFloat 1.0) = true ->
      Color.to_css c
      = Ok ("rgba(" ++ str_int R ++ ", " ++ str_int G ++ ", " ++ str_int B
            ++ ", " ++ str (Color.a c) ++ ")"))
  /\ Color.to_hex c
     = Ok ("#" ++ format_02x R ++ format_02x G ++ format_02x B)
  /\ (0 <= R <= 255 -> 0 <= G <= 255 -> 0 <= B <= 255 ->
      Color.to_hex c = Ok ("#" ++ byte_hex R ++ byte_hex G ++ byte_hex B))
  /\ (forall token,
         Color.to_hex c = Ok token ->
         (is_hex6 token = true
          <-> 0 <= R <= 255 /\ 0 <= G <= 255 /\ 0 <= B <= 255))
  /\ (forall v, v < 0 -> exists digits, format_02x v = "-" ++ digits)
  /\ (forall v, 255 < v -> (3 <= String.length (format_02x v))%nat)
  /\ (forall x n d,
         exact_fraction (x * 255)%float = Some (n, d) ->
         Color.channel (PFloat x) = Ok (Z.quot n d))
  /\ (forall z, Color.channel (PInt z) = Ok (z * 255)).
Proof.
  intros HR HG HB. unfold Color.to_css, Color.to_hex. rewrite HR, HG, HB.
  cbn [bind]. repeat apply conj.
  - intros Ha. now rewrite (leb_not_ltb _ _ Ha).
  - intros Ha. now rewrite Ha.
  - reflexivity.
  - intros IR IG IB. now rewrite !format_02x_byte_hex by assumption.
  - intros token E%Ok_inj. subst token. split.
    + apply hex6_only_of_bytes.
    + intros (IR & IG & IB). now apply hex6_of_bytes.
  - apply format_02x_minus.
  - apply length_format_02x_large.
  - intros x n d Hf. unfold Color.channel. cbn -[PrimFloat.mul].
    change (SF2Prim (binary_normalize prec emax 255 0 false)) with 255%float.
    now apply trunc_float_quot.
  - reflexivity.
Qed.

(** [Color(1.0, 0.5, 0.0, 0.5)]: truncation gives 127 for the green
    channel, and the token carries the alpha [0.5] as it is. *)
Lemma color_tokens_witness :
  Color.to_css (orange 0.5) = Ok "rgba(255, 127, 0, 0.5)"
  /\ Color.to_hex (orange 0.5) = Ok "#ff7f00"
  /\ is_hex6 "#ff7f00" = true.
Proof.
  destruct (color_tokens (orange 0.5) 255 127 0
                         eq_refl eq_refl eq_refl)
    as (_ & H1 & _ & H2 & H3 & _).
  split; [exact (H1 eq_refl)|].
  split; [apply H2; lia|].
  apply (H3 "#ff7f00" eq_refl). lia.
Defined.

(** The converter's own test values. *)
Example orange_opaque :
  Color.to_css (orange 1.0) = Ok "rgb(255, 127, 0)"
  /\ Color.to_hex (orange 1.0) = Ok "#ff7f00".
Proof. split; reflexivity. Qed.

(** C4, as stated, fails: a channel above 1.0 passes through unclamped
    and makes the hex token longer than six digits; a channel below
    zero puts a minus sign into it; an infinite channel has no token at
    all, because [int()] raises. *)
Lemma hex_token_is_not_always_six_digits :
  Color.to_hex too_red = Ok "#1fe0000"
  /\ is_hex6 "#1fe0000" = false
  /\ Color.to_hex too_dark = Ok "#-20000"
  /\ is_hex6 "#-20000" = false
  /\ Color.to_css {| Color.r := PFloat infinity; Color.g := PFloat 0;
                     Color.b := PFloat 0; Color.a := PFloat 1 |}
     = Raise OverflowError.
Proof. repeat split. Qed.

(** ** Corner radius *)

(** The inner loop finds the first alias that is a key of the node. *)
Lemma probe_spec node names radius has_any :
  probe node names radius has_any =
  match first_present node names with
  | Some v => (v, true)
  | None => (radius, has_any)
  end.
Proof.
  unfold first_present.
  induction names as [|name names IH]; cbn [probe find]; [reflexivity|].
  unfold has_key at 1.
  destruct (lookup name (node_nums node)) as [v|] eqn:Hl.
  - now rewrite Hl.
  - exact IH.
Qed.

Lemma radii_css_four (tl tr br bl : num) :
  radii_css [tl; tr; br; bl] = Ok (single_or_four tl tr br bl).
Proof.
  unfold radii_css, single_or_four. cbn [index nth_error bind forallb].
  rewrite andb_true_r, !andb_assoc.
  destruct (eqb tl tl && eqb tr tl && eqb br tl && eqb bl tl);
    [destruct (eqb tl (PInt 0))|]; reflexivity.
Qed.

Lemma alias_radius_spec node :
  alias_radius node =
  Ok match corner_value node "topLeft", corner_value node "topRight",
           corner_value node "bottomRight", corner_value node "bottomLeft"
     with
     | None, None, None, None => "0px"
     | tl, tr, br, bl =>
         single_or_four (get_or tl (PInt 0)) (get_or tr (PInt 0))
                        (get_or br (PInt 0)) (get_or bl (PInt 0))
     end.
Proof.
  destruct (corner_value node "topLeft") as [tl|] eqn:E1;
    destruct (corner_value node "topRight") as [tr|] eqn:E2;
    destruct (corner_value node "bottomRight") as [br|] eqn:E3;
    destruct (corner_value node "bottomLeft") as [bl|] eqn:E4;
    unfold corner_value in E1, E2, E3, E4;
    cbn [get lookup corner_names String.eqb Ascii.eqb Bool.eqb]
      in E1, E2, E3, E4;
    unfold alias_radius;
    cbn [for_loop getitem get lookup corner_names String.eqb Ascii.eqb
         Bool.eqb bind app];
    repeat (rewrite probe_spec, ?E1, ?E2, ?E3, ?E4; cbn [bind app]);
    cbn [negb get_or]; try apply radii_css_four; reflexivity.
Qed.

(** C2. Corner-radius resolution follows the precedence table
    [border_radius_spec]: the uniform [cornerRadius] field first, then
    the 4-element [rectangleCornerRadii] array, then the per-corner
    aliases, each corner taking the first of its alias names that is
    present; four equal values collapse to the single-value token
    (["0px"] when the value is zero), unequal values give the four
    tokens in the order top-left, top-right, bottom-right, bottom-left,
    and a node without any of the three forms gives ["0px"]. The
    method always returns. *)
Theorem corner_radius_precedence :
  (forall node, get_border_radius node = Ok (border_radius_spec node))
  /\ get_border_radius (radius_node None [("cornerRadius", PInt 10)])
     = Ok "10px"
  /\ get_border_radius
       (radius_node (Some [PInt 5; PInt 5; PInt 5; PInt 5]) [])
     = Ok "5px"
  /\ get_border_radius
       (radius_node (Some [PInt 1; PInt 2; PInt 3; PInt 4]) [])
     = Ok "1px 2px 3px 4px"
  /\ get_border_radius (radius_node None []) = Ok "0px".
Proof.
  split; [|repeat split].
  intros node. unfold get_border_radius, border_radius_spec.
  destruct (lookup "cornerRadius" (node_nums node)); [reflexivity|].
  destruct (rectangleCornerRadii node) as [[|a [|b [|c [|d [|e l]]]]]|];
    cbn [List.length Nat.eqb]; try apply alias_radius_spec.
  apply radii_css_four.
Qed.

(** The uniform field wins over an array and over aliases; the array
    wins over aliases; an alias later in the probing order is not
    looked at once an earlier one is present. *)
Example corner_radius_precedence_examples :
  get_border_radius
    (radius_node (Some [PInt 1; PInt 2; PInt 3; PInt 4])
                 [("cornerRadius", PInt 10); ("topLeftRadius", PInt 7)])
  = Ok "10px"
  /\ get_border_radius
       (radius_node (Some [PInt 1; PInt 2; PInt 3; PInt 4])
                    [("topLeftRadius", PInt 7)])
     = Ok "1px 2px 3px 4px"
  /\ get_border_radius
       (radius_node None [("cornerTopLeftRadius", PInt 9);
                          ("topLeftRadius", PInt 7)])
     = Ok "7px 0px 0px 0px"
  /\ get_border_radius
       (radius_node (Some [PFloat 0; PFloat 0; PFloat 0; PFloat 0]) [])
     = Ok "0px".
Proof. repeat split. Qed.

Lemma no_alias_no_corner node :
  has_alias node = false ->
  forall corner, corner_value node corner = None.
Proof.
  unfold has_alias, alias_names. cbn [flat_map corner_names snd app existsb].
  rewrite !orb_false_iff.
  intros (H1 & H2 & H3 & H4 & H5 & H6 & H7 & H8 & H9 & H10 & H11 & H12 & _).
  intros corner. unfold corner_value, first_present, get.
  cbn [lookup corner_names].
  repeat (destruct (String.eqb corner _);
          [cbn [find]; now rewrite ?H1, ?H2, ?H3, ?H4, ?H5, ?H6, ?H7, ?H8,
                                ?H9, ?H10, ?H11, ?H12|]).
  reflexivity.
Qed.

(** C10, as amended. A [rectangleCornerRadii] array whose length is
    not 4 is ignored entirely: the result is the one of the same node
    without the array. For a node without the uniform [cornerRadius]
    field (which comes first in the precedence) the method falls
    through to the per-corner alias lookup, and the result is ["0px"]
    when the node has no alias field either, although radius values
    were supplied. *)
Theorem short_radii_array_is_ignored node radii :
  rectangleCornerRadii node = Some radii ->
  List.length radii <> 4%nat ->
  get_border_radius node = get_border_radius (without_radii_array node)
  /\ (lookup "cornerRadius" (node_nums node) = None ->
      get_border_radius node = alias_radius node
      /\ (has_alias node = false -> get_border_radius node = Ok "0px")).
Proof.
  intros Hr Hlen.
  assert (Ha : lookup "cornerRadius" (node_nums node) = None ->
               get_border_radius node = alias_radius node).
  { intros Hc. unfold get_border_radius. rewrite Hc, Hr.
    apply Nat.eqb_neq in Hlen. now rewrite Hlen. }
  split; [|intros Hc; split; [now apply Ha|]].
  - unfold get_border_radius at 2.
    cbn [without_radii_array node_nums rectangleCornerRadii].
    destruct (lookup "cornerRadius" (node_nums node)) eqn:Hc.
    + unfold get_border_radius. now rewrite Hc.
    + now apply Ha.
  - intros Hn. rewrite (Ha Hc), alias_radius_spec.
    now rewrite !(no_alias_no_corner node Hn).
Qed.

(** Three radii were supplied, none is used. *)
Lemma short_radii_array_is_ignored_witness :
  get_border_radius (radius_node (Some [PInt 8; PInt 8; PInt 8]) [])
  = Ok "0px".
Proof.
  destruct (short_radii_array_is_ignored
              (radius_node (Some [PInt 8; PInt 8; PInt 8]) [])
              [PInt 8; PInt 8; PInt 8] eq_refl) as [_ H].
  - cbn. lia.
  - apply H; reflexivity.
Defined.

(** C10, as stated, fails for a node that also has the uniform field:
    the array of length 2 is ignored and there is no alias field, yet
    the result is the uniform value, not ["0px"]. *)
Lemma uniform_radius_beside_short_array :
  let node := radius_node (Some [PInt 1; PInt 2]) [("cornerRadius", PInt 10)] in
  rectangleCornerRadii node = Some [PInt 1; PInt 2]
  /\ has_alias node = false
  /\ get_border_radius node = Ok "10px"
  /\ get_border_radius node <> Ok "0px".
Proof. repeat split. discriminate. Qed.

(** ** Fill resolution *)

Lemma find_filter {A} (p : A -> bool) (l : list A) (x : A) :
  find p l = Some x -> exists tl, filter p l = x :: tl.
Proof.
  induction l as [|y l IH]; cbn; [discriminate|].
  destruct (p y) eqn:Hy.
  - intros [= ->]. now exists (filter p l).
  - exact IH.
Qed.

Lemma find_none_existsb {A} (p : A -> bool) (l : list A) :
  find p l = None -> existsb p l = false.
Proof.
  induction l as [|y l IH]; cbn; [reflexivity|].
  destruct (p y); [discriminate | exact IH].
Qed.

Lemma find_some_existsb {A} (p : A -> bool) (l : list A) (x : A) :
  find p l = Some x -> existsb p l = true /\ truthy l = true /\ p x = true.
Proof.
  induction l as [|y l IH]; cbn; [discriminate|].
  destruct (p y) eqn:Hy.
  - intros [= ->]. auto.
  - intros H. destruct (IH H) as (? & ? & ?). auto.
Qed.

Lemma all_hidden_no_first_visible fills :
  forallb (fun fill => negb (is_visible (paint_visible fill))) fills = true ->
  first_visible fills = None.
Proof.
  unfold first_visible.
  induction fills as [|f fills IH]; cbn; [reflexivity|].
  destruct (is_visible (paint_visible f)); cbn; [discriminate | exact IH].
Qed.

(** One call on a list with a visible entry: the entry is handled when
    it is the only visible one and of a known kind, and otherwise the
    method calls itself on that entry alone. *)
Lemma get_fills_css_step atan2 fuel self fills node_id fill tl :
  first_visible fills = Some fill ->
  filter (fun f => is_visible (paint_visible f)) fills = fill :: tl ->
  get_fills_css atan2 (S fuel) self fills node_id =
  match (match tl with
         | [] => single_fill_css atan2 self fill node_id
         | _ => None
         end) with
  | Some css => css
  | None => get_fills_css atan2 fuel self [fill] node_id
  end.
Proof.
  intros Hf Hv. apply find_some_existsb in Hf. destruct Hf as (He & Ht & _).
  cbn [get_fills_css]. rewrite Ht, He, Hv. cbn [negb orb].
  destruct tl; cbn [index nth_error bind]; reflexivity.
Qed.

Lemma first_visible_singleton fills fill :
  first_visible fills = Some fill ->
  first_visible [fill] = Some fill
  /\ filter (fun f => is_visible (paint_visible f)) [fill] = [fill].
Proof.
  intros H. apply find_some_existsb in H. destruct H as (_ & _ & H).
  unfold first_visible. cbn. now rewrite H.
Qed.

(** When the first visible entry is of no known kind, every call ends
    in a call on the same one-entry list: no recursion limit suffices. *)
Lemma unsupported_kind_never_returns atan2 self node_id fill :
  single_fill_css atan2 self fill node_id = None ->
  forall fuel fills,
    first_visible fills = Some fill ->
    get_fills_css atan2 fuel self fills node_id = Raise RecursionError.
Proof.
  intros Hk. induction fuel as [|fuel IH]; intros fills Hf; [reflexivity|].
  destruct (find_filter _ _ _ Hf) as [tl Hv].
  rewrite (get_fills_css_step _ _ _ _ _ _ _ Hf Hv), Hk.
  destruct (first_visible_singleton _ _ Hf) as [Hs _].
  destruct tl; now apply IH.
Qed.

Lemma single_fill_css_spec atan2 self fill node_id fills :
  first_visible fills = Some fill ->
  match single_fill_css atan2 self fill node_id with
  | Some css => css
  | None => Raise RecursionError
  end = fill_resolution atan2 self fills node_id.
Proof.
  intros Hf. unfold fill_resolution, single_fill_css, type_is, faded_css.
  rewrite Hf.
  destruct (paint_type fill =? "SOLID")%string; [reflexivity|].
  destruct (paint_type fill =? "GRADIENT_LINEAR")%string; [reflexivity|].
  destruct (paint_type fill =? "IMAGE")%string; [|reflexivity].
  now destruct (lookup node_id (image_fills self)).
Qed.

Lemma get_fills_css_resolution atan2 fuel self fills node_id :
  get_fills_css atan2 (S (S fuel)) self fills node_id
  = fill_resolution atan2 self fills node_id.
Proof.
  destruct (first_visible fills) as [fill|] eqn:Hf.
  - rewrite <- (single_fill_css_spec atan2 self fill node_id fills Hf).
    destruct (single_fill_css atan2 self fill node_id) as [css|] eqn:Hk.
    + destruct (find_filter _ _ _ Hf) as [tl Hv].
      rewrite (get_fills_css_step _ _ _ _ _ _ _ Hf Hv).
      destruct tl; rewrite ?Hk; [reflexivity|].
      destruct (first_visible_singleton _ _ Hf) as [Hs Hv1].
      now rewrite (get_fills_css_step _ _ _ _ _ _ _ Hs Hv1), Hk.
    + now apply (unsupported_kind_never_returns atan2 self node_id fill).
  - unfold fill_resolution. rewrite Hf. cbn [get_fills_css].
    apply find_none_existsb in Hf. rewrite Hf.
    now rewrite orb_true_r.
Qed.

(** C3. With room for two nested calls, fill resolution is
    [fill_resolution]: ["transparent"] for a list that is empty or has
    no visible entry, and otherwise what the first visible entry alone
    dictates: a solid gives the colour token with alpha multiplied by
    the fill's opacity (1.0 when absent), a linear gradient gives the
    gradient string, an image gives [url('...')] when the node
    identifier is in the image map and ["#cccccc"] otherwise. Two
    lists with the same first visible entry give the same result, so
    later visible fills never matter. *)
Theorem fill_resolution_first_visible atan2 fuel self node_id :
  (forall fills,
      get_fills_css atan2 (S (S fuel)) self fills node_id
      = fill_resolution atan2 self fills node_id)
  /\ (forall fills,
         forallb (fun fill => negb (is_visible (paint_visible fill))) fills
         = true ->
         get_fills_css atan2 (S fuel) self fills node_id = Ok "transparent")
  /\ (forall fills fills',
         first_visible fills = first_visible fills' ->
         get_fills_css atan2 (S (S fuel)) self fills node_id
         = get_fills_css atan2 (S (S fuel)) self fills' node_id).
Proof.
  split; [|split].
  - intros fills. apply get_fills_css_resolution.
  - intros fills Hh. apply all_hidden_no_first_visible in Hh.
    cbn [get_fills_css]. apply find_none_existsb in Hh. rewrite Hh.
    now rewrite orb_true_r.
  - intros fills fills' H. rewrite !get_fills_css_resolution.
    unfold fill_resolution. now rewrite H.
Qed.

(** The kinds at work: a hidden solid is skipped, the image that
    follows decides, the solid after it is never looked at. *)
Example fill_resolution_examples atan2 :
  get_fills_css atan2 2 sample_converter [] "" = Ok "transparent"
  /\ get_fills_css atan2 2 sample_converter
                   [hidden (solid []); hidden (paint_of_type "IMAGE")] ""
     = Ok "transparent"
  /\ get_fills_css atan2 2 sample_converter
                   [hidden (solid []); paint_of_type "IMAGE"; solid []] "1:2"
     = Ok "url('https://example.org/a.png')"
  /\ get_fills_css atan2 2 sample_converter
                   [hidden (solid []); paint_of_type "IMAGE"; solid []] "9:9"
     = Ok "#cccccc"
  /\ get_fills_css atan2 2 sample_converter
                   [solid [("r", PInt 1); ("a", PFloat 0.5)];
                    paint_of_type "IMAGE"] "1:2"
     = Ok "rgba(255, 0, 0, 0.5)".
Proof. repeat split. Qed.

(** C9. The converter is not total on valid input: a fill list whose
    first visible entry is of a kind other than solid, linear gradient
    and image (a radial gradient, say) makes [get_fills_css] call
    itself on the same entry without end, so that it raises
    [RecursionError] whatever the recursion limit, and [node_to_html]
    raises with it. The border resolver, by contrast, falls back to a
    fixed colour for such a stroke. *)
Theorem unsupported_fill_kind_raises atan2 :
  (forall fuel self node_id fills fill,
      first_visible fills = Some fill ->
      String.eqb (paint_type fill) "SOLID" = false ->
      String.eqb (paint_type fill) "GRADIENT_LINEAR" = false ->
      String.eqb (paint_type fill) "IMAGE" = false ->
      get_fills_css atan2 fuel self fills node_id = Raise RecursionError)
  /\ (forall fuel self node_id,
         get_fills_css atan2 fuel self [paint_of_type "GRADIENT_RADIAL"]
                       node_id
         = Raise RecursionError)
  /\ (forall limit self,
         node_to_html atan2 limit
                      (rectangle 0 0 10 10 [paint_of_type "GRADIENT_RADIAL"])
                      None 0 self
         = Raise RecursionError)
  /\ get_strokes_css
       (with_strokes (simple_node "RECTANGLE" None (box 0 0 10 10) [])
                     [paint_of_type "GRADIENT_RADIAL"])
     = Ok ("1px", "solid", "#000000").
Proof.
  assert (G : forall fuel self node_id fills fill,
             first_visible fills = Some fill ->
             String.eqb (paint_type fill) "SOLID" = false ->
             String.eqb (paint_type fill) "GRADIENT_LINEAR" = false ->
             String.eqb (paint_type fill) "IMAGE" = false ->
             get_fills_css atan2 fuel self fills node_id
             = Raise RecursionError).
  { intros fuel self node_id fills fill Hf H1 H2 H3.
    apply (unsupported_kind_never_returns atan2 self node_id fill);
      [|exact Hf].
    unfold single_fill_css, type_is. now rewrite H1, H2, H3. }
  assert (H : forall fuel self node_id,
             get_fills_css atan2 fuel self
                           [paint_of_type "GRADIENT_RADIAL"] node_id
             = Raise RecursionError).
  { intros fuel self node_id.
    now apply (G fuel self node_id _ (paint_of_type "GRADIENT_RADIAL")). }
  split; [exact G|]. split; [exact H|]. split.
  - intros limit self.
    cbn -[get_fills_css]. now rewrite H.
  - reflexivity.
Qed.

(** Missing optional fields take their defaults: a fill without colour
    and opacity is opaque black, a stroke without [strokeWeight] is one
    pixel wide, a text without font family is set in Arial, and a node
    without a [visible] key is visible. *)
Example missing_fields_take_defaults atan2 :
  get_fills_css atan2 2 sample_converter [solid []] "" = Ok "rgb(0, 0, 0)"
  /\ get_strokes_css
       (with_strokes (simple_node "RECTANGLE" None (box 0 0 10 10) [])
                     [solid []])
     = Ok ("1px", "solid", "rgb(0, 0, 0)")
  /\ get_text_styles atan2 2 sample_converter
                     (simple_node "TEXT" None (box 0 0 10 10) [])
     = Ok ([("font-family", "'Arial', sans-serif"); ("font-size", "16px");
            ("font-weight", "400"); ("text-align", "left")],
           {| image_fills := image_fills sample_converter;
              fonts_used := ["Arial"] |})
  /\ is_visible None = true.
Proof. repeat split. Qed.

(** ** Gradients *)

(** The loop that appends one token per element is the in-order
    traversal. *)
Lemma for_loop_append {A B} (f : A -> result B) (l : list A) (acc : list B) :
  for_loop (fun x acc => y <- f x ;; Ok (acc ++ [y])%list) l acc =
  (ys <- traverse f l ;; Ok (acc ++ ys)%list).
Proof.
  revert acc. induction l as [|x l IH]; intros acc; cbn [for_loop traverse bind].
  - now rewrite app_nil_r.
  - destruct (f x) as [y|e]; cbn [bind]; [|reflexivity].
    rewrite IH. destruct (traverse f l) as [ys|e]; cbn [bind]; [|reflexivity].
    now rewrite <- app_assoc.
Qed.

(** C5. For a linear-gradient fill, [parse_gradient] is
    [linear_gradient_spec]: with at least two handles the string
    carries the angle [atan2(y2 - y1, x2 - x1)] of the first two
    handles, in degrees plus 90, to one decimal place, and after it the
    tokens ["<color> <position*100>%"] of the stops in their list
    order; with fewer than two handles it is ["transparent"]. Handles
    [(0,0)] and [(1,1)] give [135.0deg] (for an [atan2] that is correct
    on the diagonal). *)
Theorem linear_gradient_string atan2 fill :
  paint_type fill = "GRADIENT_LINEAR" ->
  parse_gradient atan2 fill = linear_gradient_spec atan2 fill
  /\ ((List.length (gradientHandlePositions fill) < 2)%nat ->
      parse_gradient atan2 fill = Ok "transparent")
  /\ (atan2 1%float 1%float = quarter_pi ->
      forall stops tokens,
        traverse stop_token stops = Ok tokens ->
        parse_gradient atan2 (linear_gradient stops [xy 0 0; xy 1 1])
        = Ok ("linear-gradient(135.0deg, " ++ join ", " tokens ++ ")")).
Proof.
  intros Ht.
  assert (H : forall fill,
             paint_type fill = "GRADIENT_LINEAR" ->
             parse_gradient atan2 fill = linear_gradient_spec atan2 fill).
  { clear fill Ht. intros fill Ht.
    unfold parse_gradient, linear_gradient_spec, type_is, gradient_angle.
    rewrite Ht. cbn [String.eqb Ascii.eqb Bool.eqb].
    destruct (gradientHandlePositions fill) as [|h0 [|h1 rest]];
      try reflexivity.
    destruct (sub _ _) as [dy|e]; cbn [bind]; [|reflexivity].
    destruct (sub _ _) as [dx|e]; cbn [bind]; [|reflexivity].
    destruct (to_float dy) as [fy|e]; cbn [bind]; [|reflexivity].
    destruct (to_float dx) as [fx|e]; cbn [bind]; [|reflexivity].
    rewrite (for_loop_append stop_string). cbn [app].
    change (traverse stop_string) with (traverse stop_token).
    now destruct (traverse stop_token _). }
  split; [now apply H|]. split.
  - intros Hlen. rewrite (H fill Ht). unfold linear_gradient_spec.
    destruct (gradientHandlePositions fill) as [|h0 [|h1 rest]];
      try reflexivity.
    cbn in Hlen. lia.
  - intros Hd stops tokens Hs.
    rewrite (H (linear_gradient stops [xy 0 0; xy 1 1]) eq_refl).
    unfold linear_gradient_spec.
    cbn [linear_gradient gradientHandlePositions gradientStops].
    cbn -[format_1f_float PrimFloat.add PrimFloat.div PrimFloat.mul pi
          traverse join].
    change (SF2Prim (binary_normalize prec emax 1 0 false)) with 1%float.
    rewrite Hd, Hs. cbn [bind]. reflexivity.
Qed.

(** Two stops given in descending position order stay in that order. *)
Lemma linear_gradient_string_witness :
  parse_gradient sample_atan2
                 (linear_gradient
                    [stop_at [("r", PInt 1)] (PFloat 1.0);
                     stop_at [("b", PInt 1); ("a", PFloat 0.5)] (PFloat 0.25)]
                    [xy 0 0; xy 1 1])
  = Ok ("linear-gradient(135.0deg, rgb(255, 0, 0) 100.0%, "
        ++ "rgba(0, 0, 255, 0.5) 25.0%)").
Proof.
  destruct (linear_gradient_string
              sample_atan2
              (linear_gradient
                 [stop_at [("r", PInt 1)] (PFloat 1.0);
                  stop_at [("b", PInt 1); ("a", PFloat 0.5)] (PFloat 0.25)]
                 [xy 0 0; xy 1 1])
              eq_refl) as (_ & _ & H).
  exact (H eq_refl
           [stop_at [("r", PInt 1)] (PFloat 1.0);
            stop_at [("b", PInt 1); ("a", PFloat 0.5)] (PFloat 0.25)]
           ["rgb(255, 0, 0) 100.0%"; "rgba(0, 0, 255, 0.5) 25.0%"]
           eq_refl).
Defined.

(** A single handle is not enough. *)
Example gradient_with_one_handle atan2 :
  parse_gradient atan2 (linear_gradient [] [xy 0 0]) = Ok "transparent".
Proof. reflexivity. Qed.

(* ================================================================== *)
(** * Further properties of the converter *)
(* ================================================================== *)

(** ** The walk: depth, state and layout *)

Lemma for_loop_ext {A S} (f g : A -> S -> result S) (xs : list A) :
  Forall (fun x => forall s, f x s = g x s) xs ->
  forall s, for_loop f xs s = for_loop g xs s.
Proof.
  induction 1 as [|x xs Hx _ IH]; intros s; cbn [for_loop]; [reflexivity|].
  rewrite Hx. destruct (g x s); cbn [bind]; [apply IH | reflexivity].
Qed.

Lemma collect_children_ext walk1 walk2 cs self :
  Forall (fun c => forall s, walk1 c s = walk2 c s) cs ->
  collect_children walk1 cs self = collect_children walk2 cs self.
Proof.
  intros H. unfold collect_children. apply for_loop_ext.
  eapply Forall_impl; [|exact H].
  intros c Hc [parts s]. unfold append_child. now rewrite Hc.
Qed.

(** X1. The [depth] argument of [node_to_html] is passed down and
    incremented but never read: the output and the converter state are
    the same for every depth. *)
Theorem depth_is_not_used atan2 limit node :
  forall parent_box depth depth' self,
    node_to_html atan2 limit node parent_box depth self
    = node_to_html atan2 limit node parent_box depth' self.
Proof.
  induction node as [node IH] using Node_ind.
  intros parent_box depth depth' self.
  destruct node as [ty id nm vis bb cs fl st ef chs sty rr nums].
  cbn [children] in IH.
  cbn [node_to_html node_visible absoluteBoundingBox node_type
       node_id node_name children fills effects characters node_nums].
  assert (E1 : forall s,
             collect_children
               (fun child self => node_to_html atan2 limit child parent_box depth self)
               cs s
             = collect_children
                 (fun child self => node_to_html atan2 limit child parent_box depth' self)
                 cs s).
  { intros s. apply collect_children_ext.
    eapply Forall_impl; [|exact IH]. intros c Hc s'. apply Hc. }
  assert (E2 : forall s,
             collect_children
               (fun child self => node_to_html atan2 limit child (Some bb) (depth + 1) self)
               cs s
             = collect_children
                 (fun child self => node_to_html atan2 limit child (Some bb) (depth' + 1) self)
                 cs s).
  { intros s. apply collect_children_ext.
    eapply Forall_impl; [|exact IH]. intros c Hc s'. apply Hc. }
  rewrite E1, E2. reflexivity.
Qed.

(** What [node_to_html] returns for a visible node with a bounding box:
    one [div] whose styles begin with the geometry, a text element
    with the characters of the node or a container around the parts of
    its children. *)
Lemma element_inversion atan2 limit node parent_box depth self html self' :
  is_visible (node_visible node) = true ->
  truthy (absoluteBoundingBox node) = true ->
  node_to_html atan2 limit node parent_box depth self = Ok (html, self') ->
  exists rel_x rel_y class_name extra rest,
    relative_position parent_box
                      (get (absoluteBoundingBox node) "x" (PInt 0))
                      (get (absoluteBoundingBox node) "y" (PInt 0))
    = Ok (rel_x, rel_y)
    /\ html = "<div class=" ++ dq ++ class_name ++ dq ++ " style=" ++ dq
              ++ style_string
                   (base_styles rel_x rel_y
                      (get (absoluteBoundingBox node) "width" (PInt 0))
                      (get (absoluteBoundingBox node) "height" (PInt 0))
                    ++ extra)%list
              ++ dq ++ ">" ++ rest
    /\ ((String.eqb (node_type node) "TEXT" = true
         /\ class_name = "text-node"
         /\ rest = get_or (characters node) "" ++ "</div>"
         /\ exists text_styles,
             get_text_styles atan2 limit self node = Ok (text_styles, self'))
        \/ (String.eqb (node_type node) "TEXT" = false
            /\ class_name = lower (node_type node) ++ "-node"
            /\ exists parts,
                collect_children
                  (fun child s =>
                     node_to_html atan2 limit child
                                  (Some (absoluteBoundingBox node))
                                  (depth + 1) s)
                  (children node) self
                = Ok (parts, self')
                /\ rest = if truthy parts
                          then nl ++ join nl parts ++ nl ++ "</div>"
                          else "</div>")).
Proof.
  intros Hv Hb.
  destruct node as [ty id nm vis bb cs fl st ef chs sty rr nums].
  cbn [node_visible absoluteBoundingBox] in Hv, Hb.
  cbn [node_to_html node_visible absoluteBoundingBox node_type
       node_id node_name children fills effects characters
       node_nums].
  rewrite Hv, Hb. cbn [negb].
  fold (relative_position parent_box (get bb "x" (PInt 0)) (get bb "y" (PInt 0))).
  destruct (relative_position _ _ _) as [[rel_x rel_y]|e]; cbn [bind];
    [|discriminate].
  generalize (get bb "width" (PInt 0)), (get bb "height" (PInt 0)).
  intros w h.
  pose proof (after_base_refl (base_styles rel_x rel_y w h)) as Hbase.
  destruct (String.eqb ty "TEXT") eqn:Hty.
  - (* text *)
    destruct (get_text_styles _ _ _ _) as [[ts s1]|e] eqn:Ets; cbn [bind];
      [|discriminate].
    pose proof Ets as Hfresh. apply get_text_styles_fresh in Hfresh.
    pose proof (after_base_update _ _ _ _ _ _ Hfresh Hbase) as H1.
    revert H1. generalize (update (base_styles rel_x rel_y w h) ts).
    intros styles1 H1.
    match goal with
    | |- bind ?m _ = _ -> _ => destruct m as [styles2|e] eqn:E2; cbn [bind];
                               [|discriminate]
    end.
    assert (H2 : after_base (base_styles rel_x rel_y w h) styles2).
    { revert E2. destruct fl as [|f fl']; [intros E%Ok_inj; rewrite <- E; exact H1|].
      destruct (negb _); [|intros E%Ok_inj; rewrite <- E; exact H1].
      destruct (get_fills_css _ _ _ _ _); cbn [bind]; [|discriminate].
      destruct (negb _); intros E%Ok_inj; rewrite <- E; [|exact H1].
      apply after_base_setitem; [reflexivity | exact H1]. }
    clear E2 H1 styles1.
    match goal with
    | |- bind ?m _ = _ -> _ => destruct m as [styles3|e] eqn:E3; cbn [bind];
                               [|discriminate]
    end.
    assert (H3 : after_base (base_styles rel_x rel_y w h) styles3).
    { revert E3. destruct (truthy ef); [|intros E%Ok_inj; rewrite <- E; exact H2].
      destruct (get_effects_css ef); cbn [bind]; [|discriminate]. cbv zeta.
      destruct (truthy (without_blur _)); intros E%Ok_inj; rewrite <- E; [|exact H2].
      apply after_base_setitem; [reflexivity | exact H2]. }
    clear E3 H2 styles2.
    intros [= <- <-]. destruct H3 as [extra ->].
    exists rel_x, rel_y, "text-node", extra, (get_or chs "" ++ "</div>").
    split; [reflexivity|]. split; [reflexivity|].
    left. split; [reflexivity|]. split; [reflexivity|].
    split; [reflexivity|]. now exists ts.
  - (* container *)
    match goal with
    | |- bind ?m _ = _ -> _ => destruct m as [styles1|e] eqn:E1; cbn [bind];
                               [|discriminate]
    end.
    assert (H1 : after_base (base_styles rel_x rel_y w h) styles1).
    { revert E1. destruct (truthy fl); [|intros E%Ok_inj; rewrite <- E; exact Hbase].
      destruct (get_fills_css _ _ _ _ _); cbn [bind]; [|discriminate].
      intros E%Ok_inj; rewrite <- E. apply after_base_setitem; [reflexivity | exact Hbase]. }
    clear E1 Hbase.
    destruct (get_strokes_css _) as [[[bw bs] bc]|e]; cbn [bind];
      [|discriminate].
    destruct (get_border_radius _) as [br|e]; cbn [bind]; [|discriminate].
    match goal with
    | |- bind ?m _ = _ -> _ => destruct m as [styles4|e] eqn:E4; cbn [bind];
                               [|discriminate]
    end.
    assert (H4 : after_base (base_styles rel_x rel_y w h) styles4).
    { assert (Hs : forall s, after_base (base_styles rel_x rel_y w h) s ->
                        after_base (base_styles rel_x rel_y w h)
                          (if negb (br =? "0px")%string
                           then setitem (setitem s "border-radius" br)
                                        "overflow" "hidden"
                           else s)).
      { intros s Hs. destruct (negb _); [|exact Hs].
        repeat (apply after_base_setitem; [reflexivity|]). exact Hs. }
      assert (Hb2 : after_base (base_styles rel_x rel_y w h)
                      (if nonempty bw
                       then setitem styles1 "border"
                                    (bw ++ " " ++ bs ++ " " ++ bc)
                       else styles1)).
      { destruct (nonempty bw); [|exact H1].
        apply after_base_setitem; [reflexivity | exact H1]. }
      revert E4. destruct (truthy ef); [|intros E%Ok_inj; rewrite <- E; now apply Hs].
      destruct (get_effects_css ef); cbn [bind]; [|discriminate]. cbv zeta.
      destruct (truthy (without_blur _)); intros E%Ok_inj; rewrite <- E; [|now apply Hs].
      apply after_base_setitem; [reflexivity | now apply Hs]. }
    clear E4 H1.
    assert (H5 : after_base (base_styles rel_x rel_y w h)
                   (if ltb (get nums "opacity" (PFloat 1)) (PFloat 1)
                    then setitem styles4 "opacity"
                                 (str (get nums "opacity" (PFloat 1)))
                    else styles4)).
    { destruct (ltb _ _); [|exact H4].
      apply after_base_setitem; [reflexivity | exact H4]. }
    destruct H5 as [extra ->].
    destruct (collect_children _ _ _) as [[parts s2]|e] eqn:Ecc; cbn [bind];
      [|discriminate].
    destruct (truthy parts) eqn:Ht; intros [= <- <-].
    + exists rel_x, rel_y, (lower ty ++ "-node"), extra,
        (nl ++ join nl parts ++ nl ++ "</div>").
      split; [reflexivity|]. split; [reflexivity|].
      right. split; [reflexivity|]. split; [reflexivity|].
      exists parts. split; [reflexivity|].
      now rewrite Ht.
    + exists rel_x, rel_y, (lower ty ++ "-node"), extra, "</div>".
      split; [reflexivity|]. split; [reflexivity|].
      right. split; [reflexivity|]. split; [reflexivity|].
      exists parts. split; [reflexivity|].
      now rewrite Ht.
Qed.

Lemma existsb_eqb_In x (s : list string) :
  existsb (String.eqb x) s = true <-> In x s.
Proof.
  rewrite existsb_exists. split.
  - intros (y & Hy & E). apply String.eqb_eq in E. now subst.
  - intros H. exists x. split; [exact H | apply String.eqb_refl].
Qed.

Lemma set_add_spec x s :
  In x (set_add x s)
  /\ incl s (set_add x s)
  /\ (NoDup s -> NoDup (set_add x s)).
Proof.
  unfold set_add. destruct (existsb (String.eqb x) s) eqn:E.
  - apply existsb_eqb_In in E. repeat split; auto. apply incl_refl.
  - assert (Hn : ~ In x s).
    { intros H. apply existsb_eqb_In in H. congruence. }
    repeat split.
    + apply in_or_app. right. now left.
    + apply incl_appl, incl_refl.
    + intros Hd. apply NoDup_app; [exact Hd | repeat constructor; auto |].
      intros a Ha [<-|[]]. contradiction.
Qed.

Lemma get_text_styles_state atan2 limit self node styles self' :
  get_text_styles atan2 limit self node = Ok (styles, self') ->
  self' = add_font self (get_or (fontFamily (style node)) "Arial").
Proof.
  unfold get_text_styles. cbv zeta.
  destruct (truthy (fills node)).
  - destruct (get_fills_css _ _ _ _ _); cbn [bind]; [|discriminate].
    now intros [= _ <-].
  - now intros [= _ <-].
Qed.

Lemma is_visible_false v : is_visible v = false -> v = Some false.
Proof. destruct v as [[]|]; cbn; congruence. Qed.

Lemma truthy_false {A} (l : list A) : truthy l = false -> l = [].
Proof. destruct l; cbn; congruence. Qed.

Lemma rendered_fonts_unfold node :
  rendered_fonts node =
  if negb (is_visible (node_visible node)) then []
  else if negb (truthy (absoluteBoundingBox node)) then
    flat_map rendered_fonts (children node)
  else if String.eqb (node_type node) "TEXT" then
    [get_or (fontFamily (style node)) "Arial"]
  else flat_map rendered_fonts (children node).
Proof. destruct node; reflexivity. Qed.

Lemma add_fonts_app self l1 l2 :
  add_fonts self (l1 ++ l2) = add_fonts (add_fonts self l1) l2.
Proof. unfold add_fonts. apply fold_left_app. Qed.

Lemma collect_children_state walk cs :
  Forall (fun c => forall s h s',
              walk c s = Ok (h, s') -> s' = add_fonts s (rendered_fonts c)) cs ->
  forall self parts self',
    collect_children walk cs self = Ok (parts, self') ->
    self' = add_fonts self (flat_map rendered_fonts cs).
Proof.
  unfold collect_children. generalize (@nil string).
  intros acc H. revert acc.
  induction H as [|c cs Hc _ IH]; intros acc self parts self';
    cbn [for_loop flat_map].
  - now intros [= _ <-].
  - unfold append_child at 1.
    destruct (walk c self) as [[h s1]|e] eqn:E; cbn [bind]; [|discriminate].
    apply Hc in E. rewrite add_fonts_app, <- E.
    destruct (nonempty h); cbn [bind]; apply IH.
Qed.

Lemma node_to_html_fonts atan2 limit node :
  forall parent_box depth self html self',
    node_to_html atan2 limit node parent_box depth self = Ok (html, self') ->
    self' = add_fonts self (rendered_fonts node).
Proof.
  induction node as [node IH] using Node_ind.
  intros parent_box depth self html self' H.
  rewrite rendered_fonts_unfold.
  destruct (is_visible (node_visible node)) eqn:Hv; cbn [negb].
  2:{ apply is_visible_false in Hv.
      rewrite node_to_html_invisible in H by exact Hv.
      now injection H as _ <-. }
  destruct (truthy (absoluteBoundingBox node)) eqn:Hb; cbn [negb].
  2:{ apply truthy_false in Hb.
      rewrite node_to_html_passthrough in H by assumption.
      destruct (collect_children _ _ _) as [[parts s]|e] eqn:E;
        cbn [bind] in H; [|discriminate].
      injection H as _ <-.
      eapply collect_children_state; [|exact E].
      eapply Forall_impl; [|exact IH]. intros c Hc s0 h s0'. apply Hc. }
  destruct (element_inversion _ _ _ _ _ _ _ _ Hv Hb H)
    as (rx & ry & cls & extra & rest & _ & _
        & [(Ht & _ & _ & ts & Hts)|(Ht & _ & parts & E & _)]); rewrite Ht.
  - apply get_text_styles_state in Hts. exact Hts.
  - eapply collect_children_state; [|exact E].
    eapply Forall_impl; [|exact IH]. intros c Hc s0 h s0'. apply Hc.
Qed.

(** X2. The only trace the walk leaves in the converter is in
    [fonts_used]: after [node_to_html] the state is the one before with
    the font families of the converted text nodes added, in the order
    of the walk (["Arial"] for a text node without a family). Hidden
    subtrees add nothing, and neither do the children of a text node
    that has a bounding box. *)
Theorem walk_records_rendered_fonts
        atan2 limit node parent_box depth self html self' :
  node_to_html atan2 limit node parent_box depth self = Ok (html, self') ->
  self' = add_fonts self (rendered_fonts node).
Proof. apply node_to_html_fonts. Qed.

Lemma walk_records_rendered_fonts_witness :
  state_of home_run = add_fonts sample_converter (rendered_fonts home).
Proof.
  apply (walk_records_rendered_fonts sample_atan2 2 home None 0
                                     sample_converter (output_of home_run)).
  vm_compute. reflexivity.
Defined.

Lemma state_grows_refl self : state_grows self self.
Proof. repeat split; auto. apply incl_refl. Qed.

Lemma state_grows_trans s1 s2 s3 :
  state_grows s1 s2 -> state_grows s2 s3 -> state_grows s1 s3.
Proof.
  intros (I1 & F1 & N1) (I2 & F2 & N2). repeat split.
  - congruence.
  - eapply incl_tran; eassumption.
  - auto.
Qed.

Lemma add_font_grows self font : state_grows self (add_font self font).
Proof.
  unfold state_grows, add_font. cbn [image_fills fonts_used].
  destruct (set_add_spec font (fonts_used self)) as (_ & H1 & H2). auto.
Qed.

Lemma add_fonts_grows fonts : forall self,
  state_grows self (add_fonts self fonts).
Proof.
  unfold add_fonts.
  induction fonts as [|f fonts IH]; intros self; cbn [fold_left].
  - apply state_grows_refl.
  - eapply state_grows_trans; [apply add_font_grows | apply IH].
Qed.

(** X3. The walk never touches the image map, never forgets a font, and
    keeps [fonts_used] free of duplicates (it is a set). *)
Theorem walk_only_adds_fonts
        atan2 limit node parent_box depth self html self' :
  node_to_html atan2 limit node parent_box depth self = Ok (html, self') ->
  state_grows self self'.
Proof.
  intros H. apply node_to_html_fonts in H. subst self'.
  apply add_fonts_grows.
Qed.

Lemma walk_only_adds_fonts_witness :
  state_grows sample_converter (state_of home_run).
Proof.
  apply (walk_only_adds_fonts sample_atan2 2 home None 0
                              sample_converter (output_of home_run)).
  vm_compute. reflexivity.
Defined.

(** X4. A visible node with a bounding box that is converted against a
    non-empty parent box becomes an absolutely positioned element whose
    [left] and [top] are the differences of the node's and the
    parent's coordinates (a missing coordinate counts as 0) and whose
    [width] and [height] are the node's own. *)
Theorem child_is_placed_relative_to_parent
        atan2 limit node parent_box depth self html self' :
  is_visible (node_visible node) = true ->
  truthy (absoluteBoundingBox node) = true ->
  truthy parent_box = true ->
  node_to_html atan2 limit node (Some parent_box) depth self
  = Ok (html, self') ->
  exists rel_x rel_y class_name styles rest,
    sub (get (absoluteBoundingBox node) "x" (PInt 0))
        (get parent_box "x" (PInt 0)) = Ok rel_x
    /\ sub (get (absoluteBoundingBox node) "y" (PInt 0))
           (get parent_box "y" (PInt 0)) = Ok rel_y
    /\ html = "<div class=" ++ dq ++ class_name ++ dq ++ " style=" ++ dq
              ++ style_string styles ++ dq ++ ">" ++ rest
    /\ lookup "position" styles = Some "absolute"
    /\ lookup "left" styles = Some (str rel_x ++ "px")
    /\ lookup "top" styles = Some (str rel_y ++ "px")
    /\ lookup "width" styles
       = Some (str (get (absoluteBoundingBox node) "width" (PInt 0)) ++ "px")
    /\ lookup "height" styles
       = Some (str (get (absoluteBoundingBox node) "height" (PInt 0)) ++ "px").
Proof.
  intros Hv Hb Hp H.
  destruct (element_inversion _ _ _ _ _ _ _ _ Hv Hb H)
    as (rx & ry & cls & extra & rest & Hr & -> & _).
  unfold relative_position in Hr. cbn [get_or] in Hr. rewrite Hp in Hr.
  destruct (sub _ _) as [rel_x|e] eqn:Ex; cbn [bind] in Hr; [|discriminate].
  destruct (sub _ _) as [rel_y|e] eqn:Ey in Hr; cbn [bind] in Hr; [|discriminate].
  injection Hr as <- <-.
  eexists rel_x, rel_y, cls, _, rest.
  split; [reflexivity|]. split; [exact Ey|]. split; [reflexivity|].
  repeat split.
Qed.

Lemma child_is_placed_relative_to_parent_witness :
  exists rel_x rel_y class_name styles rest,
    sub (get (absoluteBoundingBox heading) "x" (PInt 0))
        (get frame_box "x" (PInt 0)) = Ok rel_x
    /\ sub (get (absoluteBoundingBox heading) "y" (PInt 0))
           (get frame_box "y" (PInt 0)) = Ok rel_y
    /\ output_of heading_run
       = "<div class=" ++ dq ++ class_name ++ dq ++ " style=" ++ dq
         ++ style_string styles ++ dq ++ ">" ++ rest
    /\ lookup "position" styles = Some "absolute"
    /\ lookup "left" styles = Some (str rel_x ++ "px")
    /\ lookup "top" styles = Some (str rel_y ++ "px")
    /\ lookup "width" styles
       = Some (str (get (absoluteBoundingBox heading) "width" (PInt 0))
               ++ "px")
    /\ lookup "height" styles
       = Some (str (get (absoluteBoundingBox heading) "height" (PInt 0))
               ++ "px").
Proof.
  apply (child_is_placed_relative_to_parent
           sample_atan2 2 heading frame_box 1 sample_converter
           (output_of heading_run) (state_of heading_run));
    vm_compute; reflexivity.
Defined.

(** X5. The characters of a text node are copied into the element as
    they are, markup included: the element is
    [<div class="text-node" style="...">characters</div>]. The children
    of the node are not converted: the state after the call is the one
    before with the font of the node added. *)
Theorem text_is_copied_verbatim
        atan2 limit node parent_box depth self html self' :
  is_visible (node_visible node) = true ->
  truthy (absoluteBoundingBox node) = true ->
  node_type node = "TEXT" ->
  node_to_html atan2 limit node parent_box depth self = Ok (html, self') ->
  (exists style_str,
      html = "<div class=" ++ dq ++ "text-node" ++ dq ++ " style=" ++ dq
             ++ style_str ++ dq ++ ">"
             ++ get_or (characters node) "" ++ "</div>")
  /\ self' = add_font self (get_or (fontFamily (style node)) "Arial").
Proof.
  intros Hv Hb Ht H.
  destruct (element_inversion _ _ _ _ _ _ _ _ Hv Hb H)
    as (rx & ry & cls & extra & rest & _ & ->
        & [(_ & -> & -> & ts & Hts)|(Hf & _)]).
  - split; [now eexists|]. now apply get_text_styles_state in Hts.
  - rewrite Ht in Hf. discriminate.
Qed.

Lemma text_is_copied_verbatim_witness :
  state_of heading_run = add_font sample_converter "Open Sans".
Proof.
  refine (proj2 (text_is_copied_verbatim
                   sample_atan2 2 heading (Some frame_box) 1 sample_converter
                   (output_of heading_run) (state_of heading_run) _ _ _ _));
    vm_compute; reflexivity.
Defined.

(** X6. A visible node of another kind than TEXT with a bounding box
    becomes [<div class="<kind in lower case>-node" style="...">]
    around the outputs of its children: the children are converted in
    their order against the box of the node, one level deeper, the
    state handed from child to child; empty outputs are dropped, the
    others are joined by newlines and put between two newlines, and
    without any the element is empty. *)
Theorem container_nests_children_in_order
        atan2 limit node parent_box depth self html self' :
  is_visible (node_visible node) = true ->
  truthy (absoluteBoundingBox node) = true ->
  node_type node <> "TEXT" ->
  node_to_html atan2 limit node parent_box depth self = Ok (html, self') ->
  exists style_str outputs,
    convert_all (fun child s =>
                   node_to_html atan2 limit child
                                (Some (absoluteBoundingBox node))
                                (depth + 1) s)
                (children node) self
    = Ok (outputs, self')
    /\ html = "<div class=" ++ dq ++ lower (node_type node) ++ "-node" ++ dq
              ++ " style=" ++ dq ++ style_str ++ dq ++ ">"
              ++ (if truthy (filter nonempty outputs)
                  then nl ++ join nl (filter nonempty outputs) ++ nl
                       ++ "</div>"
                  else "</div>").
Proof.
  intros Hv Hb Ht H.
  destruct (element_inversion _ _ _ _ _ _ _ _ Hv Hb H)
    as (rx & ry & cls & extra & rest & _ & ->
        & [(Hf & _)|(_ & -> & parts & Hc & ->)]).
  - apply String.eqb_eq in Hf. contradiction.
  - rewrite collect_children_spec in Hc.
    destruct (convert_all _ _ _) as [[outs s]|e]; cbn [bind] in Hc;
      [|discriminate].
    injection Hc as <- <-.
    eexists. exists outs. split; [reflexivity|].
    rewrite (append_assoc (lower (node_type node))). reflexivity.
Qed.

Lemma container_nests_children_in_order_witness :
  exists style_str outputs,
    convert_all (fun child s =>
                   node_to_html sample_atan2 2 child
                                (Some (absoluteBoundingBox home))
                                (0 + 1) s)
                (children home) sample_converter
    = Ok (outputs, state_of home_run)
    /\ output_of home_run
       = "<div class=" ++ dq ++ lower (node_type home) ++ "-node" ++ dq
         ++ " style=" ++ dq ++ style_str ++ dq ++ ">"
         ++ (if truthy (filter nonempty outputs)
             then nl ++ join nl (filter nonempty outputs) ++ nl
                  ++ "</div>"
             else "</div>").
Proof.
  apply (container_nests_children_in_order
           sample_atan2 2 home None 0 sample_converter
           (output_of home_run) (state_of home_run));
    [reflexivity | reflexivity | discriminate | vm_compute; reflexivity].
Defined.

Lemma convert_all_app walk l1 l2 self :
  convert_all walk (l1 ++ l2) self =
  ('(o1, s1) <- convert_all walk l1 self ;;
   '(o2, s2) <- convert_all walk l2 s1 ;;
   Ok ((o1 ++ o2)%list, s2)).
Proof.
  revert self. induction l1 as [|c l1 IH]; intros self; cbn [app convert_all bind].
  - now destruct (convert_all walk l2 self) as [[o2 s2]|e].
  - destruct (walk c self) as [[h s1]|e]; cbn [bind]; [|reflexivity].
    rewrite IH.
    destruct (convert_all walk l1 s1) as [[o1 s2]|e]; cbn [bind]; [|reflexivity].
    now destruct (convert_all walk l2 s2) as [[o2 s3]|e].
Qed.

Lemma join_cons sep x l :
  l <> [] -> join sep (x :: l) = x ++ sep ++ join sep l.
Proof. destruct l; [congruence | reflexivity]. Qed.

Lemma join_app sep (l1 l2 : list string) :
  l1 <> [] -> l2 <> [] ->
  join sep (l1 ++ l2) = join sep l1 ++ sep ++ join sep l2.
Proof.
  intros H1 H2. induction l1 as [|x l1 IH]; [congruence|].
  destruct l1 as [|y l1].
  - cbn [app]. now rewrite join_cons.
  - cbn [app] in *. rewrite join_cons by discriminate.
    rewrite IH by discriminate.
    rewrite (join_cons sep x (y :: l1)) by discriminate.
    now rewrite !append_assoc.
Qed.

Lemma join_nonempty sep (l : list string) :
  l <> [] -> Forall (fun s => nonempty s = true) l ->
  nonempty (join sep l) = true.
Proof.
  intros Hl H. destruct H as [|x l Hx _]; [congruence|].
  destruct l; cbn [join]; [exact Hx|].
  destruct x; [discriminate | reflexivity].
Qed.

Lemma filter_nonempty_all (l : list string) :
  Forall (fun s => nonempty s = true) (filter nonempty l).
Proof. apply Forall_forall. intros s H. now apply filter_In in H. Qed.

Lemma join_splice (A G B : list string) :
  G <> [] ->
  join nl (A ++ [join nl G] ++ B) = join nl (A ++ G ++ B).
Proof.
  intros HG.
  assert (H1 : forall X, join nl ([join nl G] ++ X) = join nl (G ++ X)).
  { intros [|x X].
    - now rewrite !app_nil_r.
    - rewrite (join_app nl G (x :: X)) by (auto; discriminate).
      cbn [app]. now rewrite join_cons by discriminate. }
  destruct A as [|a A]; [apply H1|].
  rewrite !(join_app nl (a :: A)); try discriminate.
  - now rewrite H1.
  - destruct G; [congruence | discriminate].
Qed.

Lemma summary_splice (ob og oa : list string) :
  parts_summary
    (filter nonempty (ob ++ [join nl (filter nonempty og)] ++ oa))
  = parts_summary (filter nonempty (ob ++ og ++ oa)).
Proof.
  rewrite !filter_app. cbn [filter].
  destruct (filter nonempty og) as [|g G] eqn:EG.
  - reflexivity.
  - rewrite join_nonempty.
    + unfold parts_summary. f_equal.
      * apply join_splice. discriminate.
      * destruct (filter nonempty ob); reflexivity.
    + discriminate.
    + rewrite <- EG. apply filter_nonempty_all.
Qed.

Lemma collect_splice walk g before after self :
  (forall s, walk g s =
             ('(og, s') <- convert_all walk (children g) s ;;
              Ok (join nl (filter nonempty og), s'))) ->
  ('(parts, s) <- collect_children walk (before ++ g :: after) self ;;
   Ok (parts_summary parts, s))
  = ('(parts, s) <- collect_children walk (before ++ children g ++ after) self ;;
     Ok (parts_summary parts, s)).
Proof.
  intros Hg. rewrite !collect_children_spec, !convert_all_app.
  destruct (convert_all walk before self) as [[ob s1]|e]; cbn [bind];
    [|reflexivity].
  rewrite convert_all_app. cbn [convert_all]. rewrite Hg.
  destruct (convert_all walk (children g) s1) as [[og s2]|e]; cbn [bind];
    [|reflexivity].
  destruct (convert_all walk after s2) as [[oa s3]|e]; cbn [bind];
    [|reflexivity].
  f_equal. f_equal.
  apply (summary_splice ob og oa).
Qed.

Lemma bind_collect_ext {B} walk l1 l2 self
      (K1 K2 : list string * Converter -> result B) :
  ('(parts, s) <- collect_children walk l1 self ;; Ok (parts_summary parts, s))
  = ('(parts, s) <- collect_children walk l2 self ;; Ok (parts_summary parts, s)) ->
  (forall p1 p2 s,
      join nl p1 = join nl p2 -> truthy p1 = truthy p2 ->
      K1 (p1, s) = K2 (p2, s)) ->
  bind (collect_children walk l1 self) K1
  = bind (collect_children walk l2 self) K2.
Proof.
  intros H HK.
  destruct (collect_children walk l1 self) as [[p1 s1]|e1];
    destruct (collect_children walk l2 self) as [[p2 s2]|e2]; cbn [bind] in *;
    try discriminate.
  - apply Ok_inj in H.
    assert (Hp : parts_summary p1 = parts_summary p2)
      by exact (f_equal fst H).
    assert (Hs : s1 = s2) by exact (f_equal snd H).
    subst s2. apply HK.
    + exact (f_equal fst Hp).
    + exact (f_equal snd Hp).
  - now injection H as ->.
Qed.

(** X7. A visible child without a bounding box is transparent:
    replacing it among its siblings by its own children changes
    neither the output of the parent nor the state. *)
Theorem boxless_group_is_transparent
        atan2 limit parent group before after parent_box depth self :
  is_visible (node_visible group) = true ->
  absoluteBoundingBox group = [] ->
  node_to_html atan2 limit
               (with_children parent (before ++ group :: after))
               parent_box depth self
  = node_to_html atan2 limit
                 (with_children parent (before ++ children group ++ after))
                 parent_box depth self.
Proof.
  intros Hv Hb.
  assert (Hg : forall pb d s,
             node_to_html atan2 limit group pb d s =
             ('(og, s') <-
                convert_all (fun c s => node_to_html atan2 limit c pb d s)
                            (children group) s ;;
              Ok (join nl (filter nonempty og), s'))).
  { intros pb d s. rewrite node_to_html_passthrough by assumption.
    rewrite collect_children_spec.
    now destruct (convert_all _ _ _) as [[og s']|e]. }
  destruct parent as [ty id nm vis bb cs fl st ef chs sty rr nums].
  unfold with_children.
  cbn [node_visible absoluteBoundingBox node_type
       node_id node_name children fills strokes effects characters
       style rectangleCornerRadii node_nums].
  set (n1 := Build_Node _ _ _ _ _ (before ++ group :: after) _ _ _ _ _ _ _).
  set (n2 := Build_Node _ _ _ _ _ (before ++ children group ++ after) _ _ _ _ _ _ _).
  assert (Es : get_strokes_css n1 = get_strokes_css n2) by reflexivity.
  assert (Er : get_border_radius n1 = get_border_radius n2) by reflexivity.
  assert (Et : forall s, get_text_styles atan2 limit s n1
                         = get_text_styles atan2 limit s n2) by reflexivity.
  subst n1 n2.
  cbn [node_to_html node_visible absoluteBoundingBox node_type
       node_id node_name children fills strokes effects characters
       style rectangleCornerRadii node_nums].
  rewrite Es, Er, Et. clear Es Er Et.
  destruct (negb (is_visible vis)); [reflexivity|].
  destruct (negb (truthy bb)).
  - apply bind_collect_ext.
    + apply collect_splice. intros s. apply Hg.
    + intros p1 p2 s Hj _. now rewrite Hj.
  - destruct (if truthy (get_or parent_box []) then _ else _)
      as [[rel_x rel_y]|e]; cbn [bind]; [|reflexivity].
    destruct (String.eqb ty "TEXT"); [reflexivity|].
    repeat match goal with
           | |- bind ?m _ = bind ?m _ =>
               destruct m as [?|?]; cbn [bind]; [|reflexivity]
           | |- (let '(_, _) := ?p in _) = _ => destruct p
           end.
    apply bind_collect_ext.
    + apply collect_splice. intros ?. apply Hg.
    + intros p1 p2 ? Hj Ht. now rewrite Hj, Ht.
Qed.

Lemma boxless_group_is_transparent_witness :
  node_to_html sample_atan2 2
               (with_children home ([heading] ++ two_squares :: [photo]))
               None 0 sample_converter
  = node_to_html sample_atan2 2
                 (with_children home
                    ([heading] ++ children two_squares ++ [photo]))
                 None 0 sample_converter.
Proof.
  exact (boxless_group_is_transparent
           sample_atan2 2 home two_squares [heading] [photo] None 0
           sample_converter eq_refl eq_refl).
Defined.

(** ** Strokes *)

Lemma firstn_filter_find {A} (p : A -> bool) (l : list A) :
  find p (firstn 1 (filter p l)) = find p l.
Proof.
  induction l as [|x l IH]; cbn [filter]; [reflexivity|].
  destruct (p x) eqn:Hx; cbn [firstn find]; [now rewrite Hx | now rewrite Hx].
Qed.

Lemma existsb_find {A} (p : A -> bool) (l : list A) :
  existsb p l = match find p l with Some _ => true | None => false end.
Proof.
  induction l as [|x l IH]; cbn; [reflexivity|].
  now destruct (p x).
Qed.

Lemma truthy_find {A} (p : A -> bool) (l : list A) x :
  find p l = Some x -> truthy l = true.
Proof. destruct l; [discriminate | reflexivity]. Qed.

Lemma get_strokes_css_find node :
  get_strokes_css node =
  match find visible_paint (strokes node) with
  | None => Ok ("", "", "")
  | Some stroke =>
      border_color <-
        (if type_is (paint_type stroke) "SOLID" then
           faded_css (parse_color (paint_color stroke))
                     (get_or (paint_opacity stroke) (PFloat 1.0))
         else Ok "#000000") ;;
      Ok (str (get (node_nums node) "strokeWeight" (PInt 1)) ++ "px",
          "solid", border_color)
  end.
Proof.
  unfold get_strokes_css. cbv zeta.
  change (fun s => is_visible (paint_visible s)) with visible_paint.
  rewrite existsb_find.
  destruct (find visible_paint (strokes node)) as [stroke|] eqn:Hf.
  - now rewrite (truthy_find _ _ _ Hf).
  - now rewrite orb_true_r.
Qed.

(** X8. The border is decided by the first visible stroke alone: hidden
    strokes and every stroke after the first visible one can be removed
    without changing what [get_strokes_css] returns or raises. *)
Theorem border_comes_from_first_visible_stroke node :
  get_strokes_css node
  = get_strokes_css
      (with_strokes node
         (firstn 1 (filter (fun s => is_visible (paint_visible s))
                           (strokes node)))).
Proof.
  rewrite !get_strokes_css_find.
  unfold with_strokes; cbn [strokes node_nums].
  change (fun s => is_visible (paint_visible s)) with visible_paint.
  now rewrite firstn_filter_find.
Qed.

Lemma nonempty_append_r s1 s2 : nonempty s2 = true -> nonempty (s1 ++ s2) = true.
Proof. destruct s1; [now cbn | reflexivity]. Qed.

(** X9. [get_strokes_css] returns a width exactly when the node has a
    visible stroke; the width is then the node's [strokeWeight] (1 by
    default) in pixels and the style is [solid]; without a visible
    stroke all three strings are empty. So [node_to_html], which tests
    the width, sets a border exactly on the nodes with a visible
    stroke. *)
Theorem border_iff_visible_stroke node border_width border_style border_color :
  get_strokes_css node = Ok (border_width, border_style, border_color) ->
  nonempty border_width
  = existsb (fun s => is_visible (paint_visible s)) (strokes node)
  /\ (nonempty border_width = true ->
      border_style = "solid"
      /\ border_width
         = str (get (node_nums node) "strokeWeight" (PInt 1)) ++ "px")
  /\ (nonempty border_width = false ->
      border_style = "" /\ border_color = "").
Proof.
  rewrite get_strokes_css_find.
  change (fun s => is_visible (paint_visible s)) with visible_paint.
  rewrite existsb_find.
  destruct (find visible_paint (strokes node)) as [stroke|].
  - match goal with |- bind ?m _ = _ -> _ => destruct m as [c|e]; cbn [bind];
                                              [|discriminate] end.
    intros E%Ok_inj.
    injection E as <- <- <-.
    rewrite nonempty_append_r by reflexivity.
    repeat split; discriminate.
  - intros E%Ok_inj. injection E as <- <- <-.
    cbn. repeat split; discriminate.
Qed.

Lemma border_iff_visible_stroke_witness :
  nonempty "1px"
  = existsb (fun s => is_visible (paint_visible s)) (strokes outlined).
Proof.
  refine (proj1 (border_iff_visible_stroke
                   outlined "1px" "solid" "rgb(255, 0, 0)" _)).
  vm_compute. reflexivity.
Defined.

(** ** Effects *)

Lemma for_loop_extend {A B} (g : A -> result (list B)) (l : list A)
      (acc : list B) :
  for_loop (fun x acc => ys <- g x ;; Ok (acc ++ ys)%list) l acc =
  (yss <- traverse g l ;; Ok (acc ++ List.concat yss)%list).
Proof.
  revert acc. induction l as [|x l IH]; intros acc;
    cbn [for_loop traverse bind List.concat].
  - now rewrite app_nil_r.
  - destruct (g x) as [ys|e]; cbn [bind]; [|reflexivity].
    rewrite IH. destruct (traverse g l) as [yss|e]; cbn [bind List.concat];
      [|reflexivity].
    now rewrite <- app_assoc.
Qed.

Lemma for_loop_body_ext {A S} (f g : A -> S -> result S) l s :
  (forall x s, f x s = g x s) -> for_loop f l s = for_loop g l s.
Proof.
  intros H. revert s. induction l as [|x l IH]; intros s; cbn [for_loop];
    [reflexivity|].
  rewrite H. destruct (g x s); cbn [bind]; [apply IH | reflexivity].
Qed.

Lemma get_effects_css_tokens effects :
  get_effects_css effects
  = (yss <- traverse effect_tokens effects ;; Ok (List.concat yss)).
Proof.
  unfold get_effects_css.
  rewrite (for_loop_body_ext _ (fun x acc => ys <- effect_tokens x ;;
                                             Ok (acc ++ ys)%list)).
  - now rewrite for_loop_extend.
  - intros e acc. unfold effect_tokens. cbv zeta.
    destruct (negb (is_visible (effect_visible e))); cbn [bind];
      [now rewrite app_nil_r|].
    destruct (type_is (effect_type e) "DROP_SHADOW"
              || type_is (effect_type e) "INNER_SHADOW").
    + destruct (Color.to_css _); reflexivity.
    + destruct (type_is (effect_type e) "LAYER_BLUR"); cbn [bind];
        [reflexivity | now rewrite app_nil_r].
Qed.

Lemma traverse_app {A B} (f : A -> result B) l1 l2 :
  traverse f (l1 ++ l2)
  = (ys1 <- traverse f l1 ;; ys2 <- traverse f l2 ;; Ok (ys1 ++ ys2)%list).
Proof.
  induction l1 as [|x l1 IH]; cbn [app traverse bind].
  - now destruct (traverse f l2).
  - destruct (f x) as [y|e]; cbn [bind]; [|reflexivity].
    rewrite IH. destruct (traverse f l1) as [ys1|e]; cbn [bind]; [|reflexivity].
    now destruct (traverse f l2).
Qed.

(** X10. [get_effects_css] works effect by effect: the tokens of two
    lists put one after the other are the tokens of the first followed
    by those of the second, and an exception in the first list comes
    before one in the second. *)
Theorem effects_of_appended_lists effects1 effects2 :
  get_effects_css (effects1 ++ effects2)
  = (css1 <- get_effects_css effects1 ;;
     css2 <- get_effects_css effects2 ;;
     Ok (css1 ++ css2)%list).
Proof.
  rewrite !get_effects_css_tokens, traverse_app.
  destruct (traverse effect_tokens effects1) as [y1|e]; cbn [bind];
    [|reflexivity].
  destruct (traverse effect_tokens effects2) as [y2|e]; cbn [bind];
    [|reflexivity].
  now rewrite concat_app.
Qed.

Lemma effect_tokens_skipped e :
  rendered_effect e = false -> effect_tokens e = Ok [].
Proof.
  unfold rendered_effect, effect_tokens. cbv zeta.
  destruct (is_visible (effect_visible e)); cbn [negb andb]; [|reflexivity].
  destruct (type_is (effect_type e) "DROP_SHADOW"
            || type_is (effect_type e) "INNER_SHADOW"); cbn [orb];
    [discriminate|].
  now intros ->.
Qed.

Lemma effect_tokens_rendered e ys :
  rendered_effect e = true -> effect_tokens e = Ok ys -> List.length ys = 1%nat.
Proof.
  unfold rendered_effect, effect_tokens. cbv zeta.
  destruct (is_visible (effect_visible e)); cbn [negb andb]; [|discriminate].
  destruct (type_is (effect_type e) "DROP_SHADOW"
            || type_is (effect_type e) "INNER_SHADOW"); cbn [orb].
  - intros _. destruct (Color.to_css _); cbn [bind]; [|discriminate].
    now intros E%Ok_inj; rewrite <- E.
  - intros ->. now intros E%Ok_inj; rewrite <- E.
Qed.

(** X11. Effects whose ["visible"] flag is false and effects of a kind
    other than DROP_SHADOW, INNER_SHADOW and LAYER_BLUR contribute
    nothing, not even an exception: without them the result is the
    same. *)
Theorem hidden_and_unknown_effects_are_skipped effects :
  get_effects_css effects = get_effects_css (filter rendered_effect effects).
Proof.
  rewrite !get_effects_css_tokens.
  induction effects as [|e l IH]; cbn [filter traverse]; [reflexivity|].
  destruct (rendered_effect e) eqn:Hr.
  - cbn [traverse]. destruct (effect_tokens e) as [ys|x]; cbn [bind];
      [|reflexivity].
    destruct (traverse effect_tokens l) as [yss|x];
      destruct (traverse effect_tokens (filter rendered_effect l)) as [yss'|x'];
      cbn [bind List.concat] in *; try discriminate; try assumption.
    apply Ok_inj in IH. now rewrite IH.
  - rewrite (effect_tokens_skipped e Hr). cbn [bind].
    destruct (traverse effect_tokens l) as [yss|x];
      destruct (traverse effect_tokens (filter rendered_effect l)) as [yss'|x'];
      cbn [bind List.concat app] in *; assumption.
Qed.

(** X12. When [get_effects_css] returns, it returns one token for each
    visible effect of the three kinds. *)
Theorem one_token_per_rendered_effect effects css_effects :
  get_effects_css effects = Ok css_effects ->
  List.length css_effects = List.length (filter rendered_effect effects).
Proof.
  rewrite get_effects_css_tokens. revert css_effects.
  induction effects as [|e l IH]; intros css; cbn [filter traverse bind].
  - now intros E%Ok_inj; rewrite <- E.
  - destruct (effect_tokens e) as [ys|x] eqn:He; cbn [bind]; [|discriminate].
    destruct (traverse effect_tokens l) as [yss|x]; cbn [bind List.concat];
      [|discriminate].
    intros E%Ok_inj. rewrite <- E, length_app, (IH (List.concat yss) eq_refl).
    destruct (rendered_effect e) eqn:Hr.
    + now rewrite (effect_tokens_rendered e ys Hr He).
    + rewrite (effect_tokens_skipped e Hr) in He. apply Ok_inj in He.
      now rewrite <- He.
Qed.

Lemma one_token_per_rendered_effect_witness :
  List.length ["0px 4px 8px 0px rgba(0, 0, 0, 0.25)"; "blur(4px)"]
  = List.length (filter rendered_effect [drop_shadow; layer_blur]).
Proof.
  apply (one_token_per_rendered_effect [drop_shadow; layer_blur]).
  vm_compute. reflexivity.
Defined.

(** The letter l occurs in no rendering of a number and in no colour
    token, hence in no shadow token. *)
Lemma uint_no_l d :
  all_chars no_l (DecimalString.NilEmpty.string_of_uint d) = true.
Proof. induction d; cbn; auto. Qed.

Lemma str_int_no_l z : all_chars no_l (str_int z) = true.
Proof.
  unfold str_int, DecimalString.NilZero.string_of_int,
    DecimalString.NilZero.string_of_uint.
  destruct (Z.to_int z) as [d|d]; destruct d; cbn [all_chars];
    try reflexivity; try apply (uint_no_l (_ d));
    cbn; apply uint_no_l.
Qed.

Lemma repeat_char_no_l n : all_chars no_l (repeat_char "0" n) = true.
Proof. induction n; cbn; auto. Qed.

Lemma zfill_no_l w s : all_chars no_l s = true -> all_chars no_l (zfill w s) = true.
Proof.
  intros H. unfold zfill. now rewrite all_chars_append, repeat_char_no_l, H.
Qed.

Lemma substring_all_chars p n m s :
  all_chars p s = true -> all_chars p (substring n m s) = true.
Proof.
  revert n m. induction s as [|c s IH]; intros n m H.
  - destruct n, m; reflexivity.
  - cbn [all_chars] in H. apply andb_true_iff in H as [Hc Hs].
    destruct n as [|n]; cbn [substring].
    + destruct m as [|m]; [reflexivity|]. cbn [all_chars].
      now rewrite Hc, IH.
    + now apply IH.
Qed.

Lemma all_chars_forallb p s :
  all_chars p s = forallb p (list_ascii_of_string s).
Proof. induction s as [|c s IH]; cbn; [reflexivity | now rewrite IH]. Qed.

Lemma strip_zeros_rev_In l x : In x (strip_zeros_rev l) -> In x l.
Proof.
  induction l as [|c l IH]; [tauto|].
  destruct c as [[] [] [] [] [] [] [] []]; cbn [strip_zeros_rev];
    try tauto.
  intros H. right. now apply IH.
Qed.

Lemma strip_trailing_zeros_all_chars p s :
  all_chars p s = true -> all_chars p (strip_trailing_zeros s) = true.
Proof.
  unfold strip_trailing_zeros.
  rewrite !all_chars_forallb, list_ascii_of_string_of_list_ascii.
  rewrite !forallb_forall. intros H x Hx.
  apply H. apply in_rev in Hx. apply strip_zeros_rev_In in Hx.
  now apply in_rev in Hx.
Qed.

Ltac no_l_tac :=
  rewrite ?all_chars_append;
  repeat (apply andb_true_intro; split);
  auto using str_int_no_l, repeat_char_no_l, zfill_no_l,
             substring_all_chars, strip_trailing_zeros_all_chars.

Lemma layout_repr_no_l digits decpt :
  all_chars no_l digits = true ->
  all_chars no_l (layout_repr digits decpt) = true.
Proof.
  intros H. unfold layout_repr, zeros. cbv zeta.
  destruct ((-4 <? decpt) && (decpt <=? 16)).
  - destruct (decpt <=? 0); [no_l_tac|].
    destruct (_ <=? decpt); no_l_tac.
  - destruct (1 <? _); destruct (decpt - 1 <? 0); no_l_tac.
Qed.

Lemma str_float_no_l f : all_chars no_l (str_float f) = true.
Proof.
  unfold str_float.
  destruct (Prim2SF f) as [s|s| |s m e]; try (destruct s; reflexivity);
    [reflexivity|].
  unfold shortest_digits. cbv zeta.
  destruct (shortest _ _ _ _ _) as [d k].
  rewrite all_chars_append. apply andb_true_intro. split.
  - now destruct s.
  - apply layout_repr_no_l. no_l_tac.
Qed.

Lemma str_no_l n : all_chars no_l (str n) = true.
Proof. destruct n; [apply str_int_no_l | apply str_float_no_l]. Qed.

Lemma to_css_no_l color css :
  Color.to_css color = Ok css -> all_chars no_l css = true.
Proof.
  unfold Color.to_css.
  destruct (Color.channel _) as [r|]; cbn [bind]; [|discriminate].
  destruct (Color.channel _) as [g|]; cbn [bind]; [|discriminate].
  destruct (Color.channel _) as [b|]; cbn [bind]; [|discriminate].
  destruct (ltb _ _); intros E%Ok_inj; rewrite <- E;
    pose proof str_no_l; no_l_tac.
Qed.

Lemma prefix_blur_has_l s :
  prefix "blur" s = true -> all_chars no_l s = false.
Proof.
  destruct s as [|c1 [|c2 s]]; cbn [prefix]; try discriminate.
  - destruct (ascii_dec _ _); discriminate.
  - destruct (ascii_dec "b" c1); [|discriminate].
    destruct (ascii_dec "l" c2) as [<-|]; [|discriminate].
    intros _. cbn. apply andb_false_r.
Qed.

Lemma no_l_no_blur s : all_chars no_l s = true -> contains "blur" s = false.
Proof.
  induction s as [|c s IH]; [reflexivity|].
  intros H. cbn [contains].
  destruct (prefix "blur" (String c s)) eqn:Hp.
  - apply prefix_blur_has_l in Hp. congruence.
  - apply IH. cbn [all_chars] in H. now apply andb_true_iff in H.
Qed.

Lemma prefix_append n a b : prefix n a = true -> prefix n (a ++ b) = true.
Proof.
  revert a. induction n as [|c n IH]; intros a; [intros _; now destruct (a ++ b)|].
  destruct a as [|c' a]; cbn; [discriminate|].
  destruct (ascii_dec c c'); [apply IH | discriminate].
Qed.

Lemma contains_append_l n a b :
  contains n a = true -> contains n (a ++ b) = true.
Proof.
  induction a as [|c a IH]; cbn [contains].
  - destruct (prefix n "") eqn:Hp; [|discriminate].
    intros _. destruct n; [|discriminate]. now destruct b.
  - destruct (prefix n (String c a)) eqn:Hp.
    + intros _. cbn [append contains].
      change (String c (a ++ b)) with (String c a ++ b).
      now rewrite (prefix_append _ _ b Hp).
    + intros H. cbn [append contains]. rewrite (IH H).
      now destruct (prefix n (String c (a ++ b))).
Qed.

Lemma contains_append_r n a b :
  contains n b = true -> contains n (a ++ b) = true.
Proof.
  intros H. induction a as [|c a IH]; [exact H|].
  cbn [append contains]. rewrite IH.
  now destruct (prefix n (String c (a ++ b))).
Qed.

Lemma contains_refl n : contains n n = true.
Proof.
  assert (H : prefix n n = true).
  { induction n as [|c n IH]; [reflexivity|]. cbn.
    destruct (ascii_dec c c); [exact IH | congruence]. }
  destruct n; cbn [contains]; now rewrite H.
Qed.

Lemma effect_tokens_without_blur e ys :
  effect_tokens e = Ok ys ->
  without_blur ys = if is_layer_blur e then [] else ys.
Proof.
  unfold effect_tokens, is_layer_blur. cbv zeta.
  destruct (negb (is_visible (effect_visible e))).
  { intros E%Ok_inj; rewrite <- E. now destruct (type_is _ _). }
  destruct (type_is (effect_type e) "DROP_SHADOW") eqn:Hd;
    [|destruct (type_is (effect_type e) "INNER_SHADOW") eqn:Hi]; cbn [orb].
  - destruct (Color.to_css _) as [css|] eqn:Hc; cbn [bind]; [|discriminate].
    apply to_css_no_l in Hc.
    assert (Hb : type_is (effect_type e) "LAYER_BLUR" = false).
    { unfold type_is in *. apply String.eqb_eq in Hd. now rewrite Hd. }
    rewrite Hb. intros E%Ok_inj; rewrite <- E.
    unfold without_blur. cbn [filter].
    rewrite no_l_no_blur; [reflexivity|].
    pose proof str_no_l. destruct (type_is _ "INNER_SHADOW"); no_l_tac.
  - destruct (Color.to_css _) as [css|] eqn:Hc; cbn [bind]; [|discriminate].
    apply to_css_no_l in Hc.
    assert (Hb : type_is (effect_type e) "LAYER_BLUR" = false).
    { unfold type_is in *. apply String.eqb_eq in Hi. now rewrite Hi. }
    rewrite Hb. intros E%Ok_inj; rewrite <- E.
    unfold without_blur. cbn [filter].
    rewrite no_l_no_blur; [reflexivity|].
    pose proof str_no_l. no_l_tac.
  - destruct (type_is (effect_type e) "LAYER_BLUR");
      intros E%Ok_inj; rewrite <- E; [|reflexivity].
    unfold without_blur. cbn [filter].
    now rewrite contains_append_l.
Qed.

Lemma effect_tokens_blur_ok e :
  is_layer_blur e = true -> exists ys, effect_tokens e = Ok ys.
Proof.
  unfold effect_tokens, is_layer_blur. cbv zeta. intros Hb.
  destruct (negb _); [now eexists|].
  assert (E : type_is (effect_type e) "DROP_SHADOW"
              || type_is (effect_type e) "INNER_SHADOW" = false).
  { unfold type_is in *. apply String.eqb_eq in Hb. now rewrite Hb. }
  rewrite E, Hb. now eexists.
Qed.

Lemma without_blur_app l1 l2 :
  without_blur (l1 ++ l2) = (without_blur l1 ++ without_blur l2)%list.
Proof. apply filter_app. Qed.

Lemma shadows_of_effects effects :
  get_effects_css (filter (fun e => negb (is_layer_blur e)) effects)
  = (css_effects <- get_effects_css effects ;; Ok (without_blur css_effects)).
Proof.
  rewrite !get_effects_css_tokens.
  induction effects as [|e l IH]; cbn [filter traverse bind List.concat];
    [reflexivity|].
  destruct (is_layer_blur e) eqn:Hb; cbn [negb].
  - destruct (effect_tokens_blur_ok e Hb) as [ys Hys]. rewrite Hys.
    cbn [bind]. rewrite IH.
    destruct (traverse effect_tokens l) as [yss|x]; cbn [bind List.concat];
      [|reflexivity].
    rewrite without_blur_app, (effect_tokens_without_blur e ys Hys), Hb.
    reflexivity.
  - cbn [traverse].
    destruct (effect_tokens e) as [ys|x] eqn:Hys; cbn [bind]; [|reflexivity].
    destruct (traverse effect_tokens l) as [yss|x];
      destruct (traverse effect_tokens (filter _ l)) as [yss'|x'];
      cbn [bind List.concat] in *; try discriminate; try assumption.
    apply Ok_inj in IH.
    rewrite without_blur_app, (effect_tokens_without_blur e ys Hys), Hb, IH.
    reflexivity.
Qed.

(** X13. The test ["blur" not in e] by which [node_to_html] picks the
    shadows among the effect tokens tells the kinds apart exactly: what
    is left of the tokens is what [get_effects_css] gives for the
    effects that are not of kind LAYER_BLUR. No shadow token contains
    the word, whatever the numbers and the colour in it. *)
Theorem shadow_list_is_the_shadow_effects effects :
  get_effects_css (filter (fun e => negb (type_is (effect_type e) "LAYER_BLUR"))
                          effects)
  = (css_effects <- get_effects_css effects ;; Ok (without_blur css_effects)).
Proof. apply shadows_of_effects. Qed.

Lemma without_blur_idem l : without_blur (without_blur l) = without_blur l.
Proof.
  unfold without_blur. induction l as [|x l IH]; cbn [filter]; [reflexivity|].
  destruct (negb (contains "blur" x)) eqn:E; cbn [filter]; [|exact IH].
  now rewrite E, IH.
Qed.

Lemma shadow_step_without_blurs effects key (styles : dict string) :
  (if truthy (filter (fun e => negb (is_layer_blur e)) effects) then
     css_effects <-
       get_effects_css (filter (fun e => negb (is_layer_blur e)) effects) ;;
     if truthy (without_blur css_effects)
     then Ok (setitem styles key (join ", " (without_blur css_effects)))
     else Ok styles
   else Ok styles)
  = (if truthy effects then
       css_effects <- get_effects_css effects ;;
       if truthy (without_blur css_effects)
       then Ok (setitem styles key (join ", " (without_blur css_effects)))
       else Ok styles
     else Ok styles).
Proof.
  pose proof (shadows_of_effects effects) as H.
  destruct effects as [|e l]; [reflexivity|].
  cbn [truthy]. rewrite H.
  destruct (get_effects_css (e :: l)) as [css|x]; cbn [bind] in *.
  - rewrite without_blur_idem.
    destruct (filter _ (e :: l)); [|reflexivity].
    cbn [truthy]. apply Ok_inj in H. now rewrite <- H.
  - destruct (filter _ (e :: l)); [discriminate | reflexivity].
Qed.

(** X14. A layer blur is never rendered: [node_to_html] computes its
    token and drops it, so the node without its LAYER_BLUR effects has
    the same output, the same state and the same exceptions. *)
Theorem layer_blur_is_never_rendered atan2 limit node parent_box depth self :
  node_to_html atan2 limit
               (with_effects node
                  (filter (fun e => negb (type_is (effect_type e) "LAYER_BLUR"))
                          (effects node)))
               parent_box depth self
  = node_to_html atan2 limit node parent_box depth self.
Proof.
  destruct node as [ty id nm vis bb cs fl st ef chs sty rr nums].
  unfold with_effects.
  cbn [node_visible absoluteBoundingBox node_type
       node_id node_name children fills strokes effects characters
       style rectangleCornerRadii node_nums].
  change (fun e => negb (type_is (effect_type e) "LAYER_BLUR"))
    with (fun e => negb (is_layer_blur e)).
  set (n1 := Build_Node _ _ _ _ _ _ _ _ (filter _ ef) _ _ _ _).
  set (n2 := Build_Node _ _ _ _ _ _ _ _ ef _ _ _ _).
  assert (Es : get_strokes_css n1 = get_strokes_css n2) by reflexivity.
  assert (Er : get_border_radius n1 = get_border_radius n2) by reflexivity.
  assert (Et : forall s, get_text_styles atan2 limit s n1
                         = get_text_styles atan2 limit s n2) by reflexivity.
  subst n1 n2.
  cbn [node_to_html node_visible absoluteBoundingBox node_type
       node_id node_name children fills strokes effects characters
       style rectangleCornerRadii node_nums].
  rewrite Es, Er, Et. clear Es Er Et. cbv zeta.
  destruct (negb (is_visible vis)); [reflexivity|].
  destruct (negb (truthy bb)); [reflexivity|].
  destruct (if truthy (get_or parent_box []) then _ else _)
    as [[rel_x rel_y]|e]; cbn [bind]; [|reflexivity].
  destruct (String.eqb ty "TEXT").
  - repeat match goal with
           | |- bind ?m _ = bind ?m _ =>
               destruct m as [?|?]; cbn [bind]; [|reflexivity]
           | |- (let '(_, _) := ?p in _) = _ => destruct p
           end.
    now rewrite shadow_step_without_blurs.
  - repeat match goal with
           | |- bind ?m _ = bind ?m _ =>
               destruct m as [?|?]; cbn [bind]; [|reflexivity]
           | |- (let '(_, _) := ?p in _) = _ => destruct p
           end.
    now rewrite shadow_step_without_blurs.
Qed.

(** ** Text styles *)

Lemma lookup_setitem_eq {V} (d : dict V) k v :
  lookup k (setitem d k v) = Some v.
Proof.
  induction d as [|[k' v'] d IH]; cbn [setitem lookup].
  - now rewrite String.eqb_refl.
  - destruct (String.eqb k k') eqn:E; cbn [lookup].
    + now rewrite String.eqb_refl.
    + now rewrite E.
Qed.

Lemma lookup_setitem_ne {V} (d : dict V) k k' v :
  String.eqb k k' = false -> lookup k (setitem d k' v) = lookup k d.
Proof.
  intros H. induction d as [|[k2 v2] d IH]; cbn [setitem lookup].
  - now rewrite H.
  - destruct (String.eqb k' k2) eqn:E; cbn [lookup].
    + apply String.eqb_eq in E. subst k2. now rewrite H.
    + now rewrite IH.
Qed.

Lemma keys_setitem (P : string -> Prop) (d : dict string) k v :
  Forall P (map fst d) -> P k -> Forall P (map fst (setitem d k v)).
Proof.
  intros Hd Hk. induction d as [|[k' v'] d IH]; cbn [setitem map fst].
  - now constructor.
  - inversion Hd as [|? ? Hk' Hd']; subst.
    destruct (String.eqb k k'); cbn [map fst]; constructor; auto.
Qed.

Lemma text_core_setitem node d k v :
  optional_text_property k = true ->
  text_core node d -> text_core node (setitem d k v).
Proof.
  unfold optional_text_property. cbn [existsb]. rewrite !orb_true_iff.
  intros Hk (H0 & H1 & H2 & H3).
  assert (Hp : is_text_property k = true /\ String.eqb "font-family" k = false
               /\ String.eqb "font-size" k = false
               /\ String.eqb "font-weight" k = false).
  { repeat destruct Hk as [Hk|Hk]; try discriminate;
      apply String.eqb_eq in Hk; subst k; repeat split. }
  destruct Hp as (Hp & E1 & E2 & E3).
  repeat split.
  - now apply keys_setitem.
  - now rewrite lookup_setitem_ne.
  - now rewrite lookup_setitem_ne.
  - now rewrite lookup_setitem_ne.
Qed.

Ltac text_core_tac :=
  repeat first
    [ assumption
    | apply text_core_setitem; [reflexivity|]
    | match goal with
      | |- text_core _ (match ?o with _ => _ end) => destruct o
      end ].

Ltac kept_tac :=
  repeat first
    [ assumption
    | rewrite lookup_setitem_ne by reflexivity
    | match goal with
      | |- lookup _ (match ?o with _ => _ end) = _ => destruct o
      end ].

(** X15. The styles [get_text_styles] returns: every key is one of the
    nine text properties (none is a geometry key of the element);
    [font-family], [font-size] and [font-weight] are always there,
    with Arial, 16 and 400 for missing values; [text-align] is always
    there and never the Figma word [justified]; [color] is there
    exactly when the node has fills; and a line height in pixels wins
    over one in percent. *)
Theorem text_style_entries atan2 limit self node styles self' :
  get_text_styles atan2 limit self node = Ok (styles, self') ->
  Forall (fun k => is_text_property k = true) (map fst styles)
  /\ lookup "font-family" styles
     = Some ("'" ++ get_or (fontFamily (style node)) "Arial"
             ++ "', sans-serif")
  /\ lookup "font-size" styles
     = Some (str (get_or (fontSize (style node)) (PInt 16)) ++ "px")
  /\ lookup "font-weight" styles
     = Some (str (get_or (fontWeight (style node)) (PInt 400)))
  /\ (exists text_align,
         lookup "text-align" styles = Some text_align
         /\ text_align <> "justified")
  /\ has_key "color" styles = truthy (fills node)
  /\ (forall line_height,
         lineHeightPx (style node) = Some line_height ->
         lookup "line-height" styles = Some (str line_height ++ "px")).
Proof.
  unfold get_text_styles. cbv zeta.
  set (text_align := lower _).
  assert (Ha : (if String.eqb text_align "justified"
                then "justify" else text_align) <> "justified").
  { destruct (String.eqb_spec text_align "justified");
      [discriminate | assumption]. }
  revert Ha. generalize (if String.eqb text_align "justified"
                         then "justify" else text_align).
  clear text_align. intros align Ha.
  (* font family, size and weight *)
  set (d3 := setitem (setitem (setitem [] "font-family" _) "font-size" _)
                     "font-weight" _).
  assert (C3 : text_core node d3) by (repeat split; repeat constructor).
  assert (N3 : lookup "color" d3 = None) by reflexivity.
  clearbody d3.
  (* line height *)
  set (d4 := match lineHeightPx (style node) with
             | Some _ => _ | None => _ end).
  assert (C4 : text_core node d4) by (subst d4; text_core_tac).
  assert (N4 : lookup "color" d4 = None) by (subst d4; kept_tac).
  assert (L4 : forall line_height,
             lineHeightPx (style node) = Some line_height ->
             lookup "line-height" d4 = Some (str line_height ++ "px"))
    by (subst d4; intros lh ->; apply lookup_setitem_eq).
  clearbody d4. clear d3 C3 N3.
  (* letter spacing *)
  set (d5 := match letterSpacing (style node) with
             | Some _ => _ | None => _ end).
  assert (C5 : text_core node d5) by (subst d5; text_core_tac).
  assert (N5 : lookup "color" d5 = None) by (subst d5; kept_tac).
  assert (L5 : forall line_height,
             lineHeightPx (style node) = Some line_height ->
             lookup "line-height" d5 = Some (str line_height ++ "px"))
    by (subst d5; intros lh Hlh; specialize (L4 lh Hlh); kept_tac).
  clearbody d5. clear d4 C4 N4 L4.
  (* text align *)
  set (d6 := setitem d5 "text-align" align).
  assert (C6 : text_core node d6) by (subst d6; text_core_tac).
  assert (N6 : lookup "color" d6 = None) by (subst d6; kept_tac).
  assert (L6 : forall line_height,
             lineHeightPx (style node) = Some line_height ->
             lookup "line-height" d6 = Some (str line_height ++ "px"))
    by (subst d6; intros lh Hlh; specialize (L5 lh Hlh); kept_tac).
  assert (A6 : lookup "text-align" d6 = Some align)
    by (subst d6; apply lookup_setitem_eq).
  clearbody d6. clear d5 C5 N5 L5.
  (* text decoration *)
  set (d7 := if opt_is (textDecoration (style node)) "UNDERLINE"
             then _ else _).
  assert (C7 : text_core node d7) by (subst d7; text_core_tac).
  assert (N7 : lookup "color" d7 = None) by (subst d7; kept_tac).
  assert (L7 : forall line_height,
             lineHeightPx (style node) = Some line_height ->
             lookup "line-height" d7 = Some (str line_height ++ "px"))
    by (subst d7; intros lh Hlh; specialize (L6 lh Hlh); kept_tac).
  assert (A7 : lookup "text-align" d7 = Some align) by (subst d7; kept_tac).
  clearbody d7. clear d6 C6 N6 L6 A6.
  (* text transform *)
  set (d8 := if opt_is (textCase (style node)) "UPPER" then _ else _).
  assert (C8 : text_core node d8) by (subst d8; text_core_tac).
  assert (N8 : lookup "color" d8 = None) by (subst d8; kept_tac).
  assert (L8 : forall line_height,
             lineHeightPx (style node) = Some line_height ->
             lookup "line-height" d8 = Some (str line_height ++ "px"))
    by (subst d8; intros lh Hlh; specialize (L7 lh Hlh); kept_tac).
  assert (A8 : lookup "text-align" d8 = Some align) by (subst d8; kept_tac).
  clearbody d8. clear d7 C7 N7 L7 A7.
  (* text colour *)
  destruct (truthy (fills node)).
  - destruct (get_fills_css _ _ _ _ _) as [color|e]; cbn [bind];
      [|discriminate].
    intros [= <- _].
    destruct (text_core_setitem node d8 "color" color eq_refl C8)
      as (K & F1 & F2 & F3).
    repeat apply conj; try assumption.
    + exists align. split; [kept_tac | exact Ha].
    + unfold has_key. now rewrite lookup_setitem_eq.
    + intros lh Hlh. specialize (L8 lh Hlh). kept_tac.
  - intros [= <- _]. destruct C8 as (K & F1 & F2 & F3).
    repeat apply conj; try assumption.
    + now exists align.
    + unfold has_key. now rewrite N8.
Qed.

Lemma text_style_entries_witness :
  lookup "line-height" heading_styles = Some (str (PInt 24) ++ "px").
Proof.
  refine (proj2 (proj2 (proj2 (proj2 (proj2 (proj2
            (text_style_entries sample_atan2 2 sample_converter heading
                                heading_styles
                                (add_font sample_converter "Open Sans")
                                _))))))
            (PInt 24) eq_refl).
  vm_compute. reflexivity.
Defined.

(** ** The collector of image nodes *)

Lemma append_if_image_spec id fs acc :
  append_if_image id fs acc
  = if existsb visible_image fs then (acc ++ [id])%list else acc.
Proof.
  induction fs as [|f fs IH]; cbn [append_if_image existsb]; [reflexivity|].
  fold (visible_image f). now destruct (visible_image f).
Qed.

Lemma collect_image_nodes_unfold node acc :
  collect_image_nodes node acc =
  fold_left (fun image_nodes child => collect_image_nodes child image_nodes)
            (children node)
            (if has_visible_image node
             then (acc ++ [node_id node])%list else acc).
Proof.
  destruct node as [ty id nm vis bb cs fl st ef chs sty rr nums].
  cbn [collect_image_nodes children fills node_id]. cbv zeta.
  now rewrite append_if_image_spec.
Qed.

Lemma collect_image_nodes_children cs :
  Forall (fun node => forall acc,
            collect_image_nodes node acc =
            (acc ++ map node_id (filter has_visible_image (preorder node)))%list)
         cs ->
  forall acc,
    fold_left (fun image_nodes child => collect_image_nodes child image_nodes)
              cs acc =
    (acc ++ map node_id (filter has_visible_image (flat_map preorder cs)))%list.
Proof.
  induction 1 as [|c cs Hc _ IH]; intros acc; cbn [fold_left flat_map].
  - now rewrite app_nil_r.
  - now rewrite Hc, IH, filter_app, map_app, app_assoc.
Qed.

Lemma collect_image_nodes_acc node : forall image_nodes,
  collect_image_nodes node image_nodes
  = (image_nodes
       ++ map node_id (filter has_visible_image (preorder node)))%list.
Proof.
  induction node as [node IH] using Node_ind. intros acc.
  rewrite collect_image_nodes_unfold, preorder_unfold,
    collect_image_nodes_children by exact IH.
  cbn [filter map].
  destruct (has_visible_image node); [now rewrite <- app_assoc | reflexivity].
Qed.

(** X16. [collect_image_nodes] appends to the list it is given the
    identifiers of the nodes that have a visible image fill, in
    document order (depth first, a node before its children), each
    node once however many image fills it has; hidden nodes are not
    left out. *)
Theorem image_nodes_in_document_order node image_nodes :
  collect_image_nodes node image_nodes
  = (image_nodes
       ++ map node_id (filter has_visible_image (preorder node)))%list.
Proof. apply collect_image_nodes_acc. Qed.

Lemma find_existsb_weaken {A} (p q : A -> bool) l x :
  find p l = Some x -> q x = true -> existsb q l = true.
Proof.
  induction l as [|y l IH]; cbn; [discriminate|].
  destruct (p y).
  - intros [= ->] ->. reflexivity.
  - intros H1 H2. rewrite (IH H1 H2). apply orb_true_r.
Qed.

(** X17. Every node whose background [get_fills_css] takes from the
    image map (its first visible fill is an image) is among the nodes
    [collect_image_nodes] asks the address of. *)
Theorem image_fills_are_collected root node fill :
  In node (preorder root) ->
  first_visible (fills node) = Some fill ->
  paint_type fill = "IMAGE" ->
  In (node_id node) (collect_image_nodes root []).
Proof.
  intros Hin Hf Ht.
  rewrite collect_image_nodes_acc. cbn [app].
  apply in_map, filter_In. split; [exact Hin|].
  unfold has_visible_image, first_visible in *.
  apply (find_existsb_weaken _ _ _ _ Hf).
  unfold visible_image. rewrite Ht. cbn.
  now destruct (find_some_existsb _ _ _ Hf) as (_ & _ & ->).
Qed.

Lemma image_fills_are_collected_witness :
  In (node_id photo) (collect_image_nodes sample_document []).
Proof.
  apply (image_fills_are_collected sample_document photo
                                   (paint_of_type "IMAGE")).
  - cbn. tauto.
  - reflexivity.
  - reflexivity.
Defined.





(** ** The page *)

Lemma contains_join n sep x l :
  In x l -> contains n x = true -> contains n (join sep l) = true.
Proof.
  intros Hin Hx. induction l as [|y l IH]; [destruct Hin|].
  destruct l as [|z l].
  - destruct Hin as [->|[]]. exact Hx.
  - rewrite join_cons by discriminate. destruct Hin as [->|Hin].
    + now apply contains_append_l.
    + apply contains_append_r, contains_append_r. now apply IH.
Qed.

(** X19. What [test_html_structure] checks on one input holds for every
    body, width and height and every converter state: the page starts
    with the doctype, has the [html], [head] and [body] tags, and
    contains the body as it is given and both dimensions in pixels. *)
Theorem page_has_the_tested_structure
        iteration_order self body_content width height :
  prefix "<!DOCTYPE html>"
         (build_complete_html iteration_order self body_content width height) = true
  /\ contains "<html"
              (build_complete_html iteration_order self body_content width height) = true
  /\ contains "<head>"
              (build_complete_html iteration_order self body_content width height) = true
  /\ contains "<body>"
              (build_complete_html iteration_order self body_content width height) = true
  /\ contains body_content
              (build_complete_html iteration_order self body_content width height) = true
  /\ contains (str width ++ "px")
              (build_complete_html iteration_order self body_content width height) = true
  /\ contains (str height ++ "px")
              (build_complete_html iteration_order self body_content width height) = true.
Proof.
  unfold build_complete_html. cbv zeta.
  set (fonts_line := "    " ++ _).
  split; [reflexivity|].
  repeat apply conj.
  - apply (contains_join _ _ ("<html lang=" ++ dq ++ "en" ++ dq ++ ">"));
      [cbn [app In page_head page_style_open page_style_close page_tail]; repeat first [left; reflexivity | right] | reflexivity].
  - apply (contains_join _ _ "<head>"); [cbn [app In page_head page_style_open page_style_close page_tail]; repeat first [left; reflexivity | right] | reflexivity].
  - apply (contains_join _ _ "<body>"); [cbn [app In page_head page_style_open page_style_close page_tail]; repeat first [left; reflexivity | right] | reflexivity].
  - apply (contains_join _ _ ("        " ++ body_content)); [cbn [app In page_head page_style_open page_style_close page_tail]; repeat first [left; reflexivity | right]|].
    apply contains_append_r, contains_refl.
  - apply (contains_join _ _ ("            width: " ++ str width ++ "px;"));
      [cbn [app In page_head page_style_open page_style_close page_tail]; repeat first [left; reflexivity | right]|].
    apply contains_append_r.
    replace (str width ++ "px;") with ((str width ++ "px") ++ ";")
      by now rewrite append_assoc.
    apply contains_append_l, contains_refl.
  - apply (contains_join _ _ ("            height: " ++ str height ++ "px;"));
      [cbn [app In page_head page_style_open page_style_close page_tail]; repeat first [left; reflexivity | right]|].
    apply contains_append_r.
    replace (str height ++ "px;") with ((str height ++ "px") ++ ";")
      by now rewrite append_assoc.
    apply contains_append_l, contains_refl.
Qed.

Lemma replace_spaces_no_space f : all_chars no_space (replace_spaces f) = true.
Proof.
  induction f as [|c f IH]; [reflexivity|].
  cbn [replace_spaces all_chars]. rewrite IH, andb_true_r.
  destruct (Ascii.eqb c " ") eqn:E; [reflexivity|].
  unfold no_space. now rewrite E.
Qed.

(** With a font in use the page holds the link element for the fonts,
    in the order in which the set is iterated. *)
Lemma page_font_link iteration_order self body_content width height :
  fonts_used self <> [] ->
  contains (font_link (map replace_spaces
                           (iteration_order (fonts_used self))))
           (build_complete_html iteration_order self body_content
                                width height) = true.
Proof.
  intros Hne. unfold build_complete_html. cbv zeta.
  assert (Ht : truthy (fonts_used self) = true)
    by (destruct (fonts_used self); [congruence | reflexivity]).
  rewrite Ht.
  fold (font_link (map replace_spaces (iteration_order (fonts_used self)))).
  apply (contains_join _ _
           ("    " ++ font_link (map replace_spaces
                                     (iteration_order (fonts_used self)))));
    [cbn [app In page_head page_style_open page_style_close page_tail];
     repeat first [left; reflexivity | right]|].
  apply contains_append_r, contains_refl.
Qed.

Lemma page_font_link_of iteration_order self body_content width height font :
  (forall fonts f, In f (iteration_order fonts) <-> In f fonts) ->
  In font (fonts_used self) ->
  exists before after,
    iteration_order (fonts_used self) = (before ++ font :: after)%list
    /\ contains (font_link (map replace_spaces before
                             ++ replace_spaces font
                             :: map replace_spaces after)%list)
                (build_complete_html iteration_order self body_content
                                     width height) = true.
Proof.
  intros Hsame Hin.
  assert (Hne : fonts_used self <> [])
    by (destruct (fonts_used self); [destruct Hin | discriminate]).
  apply Hsame in Hin. destruct (in_split _ _ Hin) as (before & after & E).
  exists before, after. split; [exact E|].
  pose proof (page_font_link iteration_order self body_content width height
                             Hne) as H.
  now rewrite E, map_app in H.
Qed.

(** X20. Every font in [fonts_used] is requested from Google Fonts: the
    page contains the [link] element whose family list, joined by [|],
    has the font as one of its entries, with [+] for every space,
    whatever the order in which the set is iterated (only that the
    iteration visits the elements of the set is used). *)
Theorem page_links_every_font
        iteration_order self body_content width height font :
  (forall fonts f, In f (iteration_order fonts) <-> In f fonts) ->
  In font (fonts_used self) ->
  exists before after,
    iteration_order (fonts_used self) = (before ++ font :: after)%list
    /\ contains (font_link (map replace_spaces before
                             ++ replace_spaces font
                             :: map replace_spaces after)%list)
                (build_complete_html iteration_order self body_content
                                     width height) = true
    /\ all_chars no_space (replace_spaces font) = true.
Proof.
  intros Hsame Hin.
  destruct (page_font_link_of iteration_order self body_content width height
                              font Hsame Hin) as (before & after & E & H).
  exists before, after. auto using replace_spaces_no_space.
Qed.

Lemma page_links_every_font_witness :
  exists before after,
    sample_order (fonts_used (state_of home_run))
    = (before ++ "Open Sans" :: after)%list
    /\ contains (font_link (map replace_spaces before
                             ++ replace_spaces "Open Sans"
                             :: map replace_spaces after)%list)
                (build_complete_html sample_order (state_of home_run)
                                     (output_of home_run)
                                     (PInt 200) (PInt 100)) = true
    /\ all_chars no_space (replace_spaces "Open Sans") = true.
Proof.
  apply (page_links_every_font sample_order (state_of home_run)
                               (output_of home_run) (PInt 200) (PInt 100)
                               "Open Sans").
  - intros fonts f. unfold sample_order. symmetry. apply in_rev.
  - vm_compute. left. reflexivity.
Defined.

(** ** [generate_html] *)

Lemma find_frames_none node :
  find_frames node None = filter is_root_candidate (preorder node).
Proof.
  transitivity (find_frames node (Some [])).
  - now rewrite !find_frames_unfold.
  - now rewrite find_frames_acc.
Qed.

Lemma find_split {A} (p : A -> bool) (l : list A) (x : A) :
  find p l = Some x ->
  exists before after,
    l = (before ++ x :: after)%list /\ p x = true
    /\ forallb (fun y => negb (p y)) before = true.
Proof.
  induction l as [|y l IH]; cbn [find]; [discriminate|].
  destruct (p y) eqn:Hy.
  - intros [= ->]. now exists [], l.
  - intros H. destruct (IH H) as (before & after & -> & Hx & Hb).
    exists (y :: before), after. cbn [forallb]. now rewrite Hy, Hb.
Qed.

Lemma find_none_forallb {A} (p : A -> bool) (l : list A) :
  forallb (fun y => negb (p y)) l = true -> find p l = None.
Proof.
  induction l as [|y l IH]; cbn [find forallb]; [reflexivity|].
  destruct (p y); cbn [negb andb]; [discriminate | exact IH].
Qed.

(** [generate_html] with [get_file_data] and [find_frames] resolved. *)
Lemma generate_html_unfold
      atan2 limit iteration_order requests_get self file_key frame_name :
  generate_html atan2 limit iteration_order requests_get self file_key
                frame_name =
  let out := ["Fetching Figma file data..."] in
  match requests_get (file_url file_key) with
  | Breaks error => (out, Fails (RequestException error))
  | Answers response =>
  if negb (status_code response =? 200) then
    (out, Fails (Exception ("Failed to fetch Figma file: "
                            ++ str_int (status_code response) ++ " - "
                            ++ text response)))
  else
  match json response with
  | None => (out, Fails JSONDecodeError)
  | Some file_data =>
    let frames := candidates file_data in
    if negb (truthy frames) then
      (out, Fails (Exception "No frames found in the Figma file"))
    else
      let selection :=
        if nonempty (get_or frame_name "") then
          match find (named (get_or frame_name "")) frames with
          | Some selected_frame => (out, Returns selected_frame)
          | None =>
              let not_found :=
                "Frame '" ++ get_or frame_name "" ++ "' not found" in
              let header := not_found ++ ". Available frames:" in
              ((out ++ [header]
                ++ map (fun f => append "  - " (name_text f)) frames)%list,
               Fails (Exception not_found))
          end
        else
          match frames with
          | selected_frame :: _ =>
              let line := "Using frame: " ++ name_text selected_frame in
              ((out ++ [line])%list, Returns selected_frame)
          | [] => (out, Fails (Core IndexError))
          end in
      match selection with
      | (out, Fails f) => (out, Fails f)
      | (out, Returns selected_frame) =>
          let image_nodes := collect_image_nodes selected_frame [] in
          let fetched :=
            if truthy image_nodes then
              let fetching :=
                "Fetching " ++ str_int (Z.of_nat (List.length image_nodes))
                ++ " image fills..." in
              ((out ++ [fetching])%list,
               match get_image_fills requests_get file_key image_nodes with
               | Returns fetched =>
                   Returns {| image_fills := fetched;
                              fonts_used := fonts_used self |}
               | Fails f => Fails f
               end)
            else (out, Returns self) in
          match fetched with
          | (out, Fails f) => (out, Fails f)
          | (out, Returns self) =>
              let out := (out ++ ["Generating HTML..."])%list in
              match node_to_html atan2 limit selected_frame None 0 self with
              | Raise e => (out, Fails (Core e))
              | Ok (body_html, self) =>
                  let bbox := absoluteBoundingBox selected_frame in
                  (out, Returns (build_complete_html
                                   iteration_order self body_html
                                   (get bbox "width" (PInt 800))
                                   (get bbox "height" (PInt 600)), self))
              end
          end
      end
  end
  end.
Proof.
  unfold generate_html, get_file_data, candidates, file_url.
  cbv zeta.
  destruct (requests_get _) as [response|error]; [|reflexivity].
  destruct (negb (status_code _ =? 200)); [reflexivity|].
  destruct (json response) as [file_data|]; [|reflexivity].
  destruct (document _) as [d|]; [|reflexivity].
  now rewrite find_frames_none.
Qed.

(** X21. When the API answers the file request with another status than
    200, [generate_html] prints its first line only and raises an
    exception whose message carries the status and the body of the
    answer; nothing is converted. *)
Theorem failed_fetch_stops_the_run
        atan2 limit iteration_order requests_get self file_key frame_name
        response :
  requests_get (file_url file_key) = Answers response ->
  status_code response <> 200 ->
  generate_html atan2 limit iteration_order requests_get self file_key
                frame_name
  = (["Fetching Figma file data..."],
     Fails (Exception
              ("Failed to fetch Figma file: "
               ++ str_int (status_code response)
               ++ " - " ++ text response))).
Proof.
  intros Hr H. rewrite generate_html_unfold. cbv zeta. rewrite Hr.
  apply Z.eqb_neq in H. now rewrite H.
Qed.

Lemma failed_fetch_stops_the_run_witness :
  generate_html sample_atan2 2 sample_order offline sample_converter "KEY"
                (Some "Home")
  = (["Fetching Figma file data..."],
     Fails (Exception
              ("Failed to fetch Figma file: "
               ++ str_int (status_code not_found_response)
               ++ " - " ++ text not_found_response))).
Proof.
  apply (failed_fetch_stops_the_run sample_atan2 2 sample_order offline
                                    sample_converter "KEY" (Some "Home")
                                    not_found_response).
  - reflexivity.
  - vm_compute. discriminate.
Defined.

(** X22. A file whose document has no visible node of kind FRAME (or a
    file without a document) is rejected with the exception
    [No frames found in the Figma file], whatever frame was asked
    for. *)
Theorem file_without_visible_frame_is_rejected
        atan2 limit iteration_order requests_get self file_key frame_name
        response file_data :
  requests_get (file_url file_key) = Answers response ->
  status_code response = 200 ->
  json response = Some file_data ->
  candidates file_data = [] ->
  generate_html atan2 limit iteration_order requests_get self file_key
                frame_name
  = (["Fetching Figma file data..."],
     Fails (Exception "No frames found in the Figma file")).
Proof.
  intros Hr Hs Hj Hc. rewrite generate_html_unfold. cbv zeta.
  now rewrite Hr, Hs, Hj, Hc.
Qed.

Lemma file_without_visible_frame_is_rejected_witness :
  generate_html sample_atan2 2 sample_order frameless sample_converter "KEY"
                None
  = (["Fetching Figma file data..."],
     Fails (Exception "No frames found in the Figma file")).
Proof.
  apply (file_without_visible_frame_is_rejected
           sample_atan2 2 sample_order frameless sample_converter "KEY" None
           frameless_response (file_body (Some red_square)));
    reflexivity.
Defined.

(** X23. Asking for a frame name that no candidate has prints the
    names of all candidates, one per line in document order ([None]
    for a frame without a name), and raises
    [Frame '<name>' not found]. *)
Theorem unknown_frame_name_lists_the_candidates
        atan2 limit iteration_order requests_get self file_key name
        response file_data :
  requests_get (file_url file_key) = Answers response ->
  status_code response = 200 ->
  json response = Some file_data ->
  candidates file_data <> [] ->
  name <> "" ->
  (forall f, In f (candidates file_data) -> node_name f <> Some name) ->
  generate_html atan2 limit iteration_order requests_get self file_key
                (Some name)
  = ("Fetching Figma file data..."
       :: ("Frame '" ++ name ++ "' not found. Available frames:")
       :: map (fun f => "  - " ++ get_or (node_name f) "None")
              (candidates file_data),
     Fails (Exception ("Frame '" ++ name ++ "' not found"))).
Proof.
  intros Hr Hs Hj Hc Hn Hall. rewrite generate_html_unfold. cbv zeta.
  rewrite Hr, Hs, Hj. cbn [Z.eqb Pos.eqb negb get_or].
  destruct (candidates _) as [|f fs] eqn:Ec; [congruence|].
  cbn [truthy negb].
  assert (Hne : nonempty name = true)
    by (destruct name; [congruence | reflexivity]).
  rewrite Hne, find_none_forallb.
  - now rewrite !append_assoc.
  - apply forallb_forall. intros g Hg. unfold named, opt_is.
    specialize (Hall g Hg). destruct (node_name g) as [s|]; [|reflexivity].
    destruct (String.eqb_spec s name); [congruence | reflexivity].
Qed.

Lemma unknown_frame_name_lists_the_candidates_witness :
  generate_html sample_atan2 2 sample_order sample_network sample_converter
                "KEY" (Some "Start")
  = ("Fetching Figma file data..."
       :: ("Frame '" ++ "Start" ++ "' not found. Available frames:")
       :: map (fun f => "  - " ++ get_or (node_name f) "None")
              (candidates (file_body (Some sample_document))),
     Fails (Exception ("Frame '" ++ "Start" ++ "' not found"))).
Proof.
  apply (unknown_frame_name_lists_the_candidates
           sample_atan2 2 sample_order sample_network sample_converter
           "KEY" "Start" sample_response).
  - reflexivity.
  - reflexivity.
  - reflexivity.
  - vm_compute. discriminate.
  - discriminate.
  - intros f [<-|[]]. discriminate.
Defined.

Lemma generate_html_returns
        atan2 limit iteration_order requests_get self file_key frame_name
        out html self' :
  generate_html atan2 limit iteration_order requests_get self file_key
                frame_name
  = (out, Returns (html, self')) ->
  exists response file_data before selected after image_urls body_html,
    requests_get (file_url file_key) = Answers response
    /\ status_code response = 200
    /\ json response = Some file_data
    /\ candidates file_data = (before ++ selected :: after)%list
    /\ (if nonempty (get_or frame_name "")
        then node_name selected = frame_name
             /\ Forall (fun f => node_name f <> frame_name) before
        else before = [])
    /\ (if truthy (collect_image_nodes selected [])
        then get_image_fills requests_get file_key
                             (collect_image_nodes selected [])
             = Returns image_urls
        else image_urls = image_fills self)
    /\ node_to_html atan2 limit selected None 0
                    {| image_fills := image_urls;
                       fonts_used := fonts_used self |}
       = Ok (body_html, self')
    /\ html = build_complete_html
                iteration_order self' body_html
                (get (absoluteBoundingBox selected) "width" (PInt 800))
                (get (absoluteBoundingBox selected) "height" (PInt 600))
    /\ last out "" = "Generating HTML...".
Proof.
  rewrite generate_html_unfold. cbv zeta.
  destruct (requests_get _) as [response|error] eqn:Hr; [|discriminate].
  destruct (status_code _ =? 200) eqn:Hs; cbn [negb]; [|discriminate].
  apply Z.eqb_eq in Hs.
  destruct (json response) as [file_data|] eqn:Hj; [|discriminate].
  destruct (candidates _) as [|f fs] eqn:Ec; cbn [truthy negb]; [discriminate|].
  set (selection := if nonempty (get_or frame_name "") then _ else _).
  assert (Hsel : forall o sel, selection = (o, Returns sel) ->
             exists before after,
               (f :: fs = before ++ sel :: after)%list
               /\ (if nonempty (get_or frame_name "")
                   then node_name sel = frame_name
                        /\ Forall (fun f => node_name f <> frame_name) before
                   else before = [])).
  { subst selection. intros o sel.
    destruct (nonempty (get_or frame_name "")) eqn:Hn.
    - destruct frame_name as [name|]; [|discriminate]. cbn [get_or] in *.
      destruct (find _ _) as [s|] eqn:Hf; [|discriminate].
      intros [= _ <-].
      destruct (find_split _ _ _ Hf) as (before & after & E & Hx & Hb).
      exists before, after. split; [exact E|].
      unfold named, opt_is in Hx.
      split.
      + destruct (node_name s) as [n|]; [|discriminate].
        now apply String.eqb_eq in Hx; subst.
      + apply Forall_forall. intros g Hg.
        rewrite forallb_forall in Hb. specialize (Hb g Hg).
        unfold named, opt_is in Hb.
        destruct (node_name g) as [n|]; [|discriminate].
        intros [= ->]. now rewrite String.eqb_refl in Hb.
    - intros [= _ <-]. now exists [], fs. }
  destruct selection as [o [sel|fl]]; [|discriminate].
  destruct (Hsel o sel eq_refl) as (before & after & E & Hname).
  clear Hsel.
  destruct (truthy (collect_image_nodes sel [])) eqn:Hi.
  - destruct (get_image_fills _ _ _) as [urls|fl] eqn:Hg; [|discriminate].
    destruct (node_to_html atan2 limit sel None 0 _) as [[body s1]|e] eqn:Hw;
      [|discriminate].
    intros [= <- <- <-].
    exists response, file_data, before, sel, after, urls, body.
    rewrite Hi. repeat apply conj; try assumption; try reflexivity;
      try (now rewrite Ec).
    now rewrite last_last.
  - destruct (node_to_html atan2 limit sel None 0 self) as [[body s1]|e] eqn:Hw;
      [|discriminate].
    intros [= <- <- <-].
    exists response, file_data, before, sel, after, (image_fills self), body.
    rewrite Hi. repeat apply conj; try assumption; try reflexivity;
      try (now rewrite Ec).
    + now destruct self.
    + now rewrite last_last.
Qed.

(** X24. When [generate_html] returns a page, the file request was
    answered with status 200 and a body that decodes, and the page is
    [build_complete_html] of one candidate frame converted as the root
    ([node_to_html] without parent box, at depth 0), with the width and
    height of the box of that frame (800 and 600 when the box lacks
    them). The frame is the first candidate in document order, or with
    a name the first candidate of that name. The image map used is the
    one [get_image_fills] returned for the image nodes of the frame,
    and the converter's own when the frame has none; the fonts are
    those of the converter before. The last line printed is
    [Generating HTML...]. *)
Theorem generated_page_is_the_chosen_frame
        atan2 limit iteration_order requests_get self file_key frame_name
        out html self' :
  generate_html atan2 limit iteration_order requests_get self file_key
                frame_name
  = (out, Returns (html, self')) ->
  exists response file_data before selected after image_urls body_html,
    requests_get (file_url file_key) = Answers response
    /\ status_code response = 200
    /\ json response = Some file_data
    /\ candidates file_data = (before ++ selected :: after)%list
    /\ (if nonempty (get_or frame_name "")
        then node_name selected = frame_name
             /\ Forall (fun f => node_name f <> frame_name) before
        else before = [])
    /\ (if truthy (collect_image_nodes selected [])
        then get_image_fills requests_get file_key
                             (collect_image_nodes selected [])
             = Returns image_urls
        else image_urls = image_fills self)
    /\ node_to_html atan2 limit selected None 0
                    {| image_fills := image_urls;
                       fonts_used := fonts_used self |}
       = Ok (body_html, self')
    /\ html = build_complete_html
                iteration_order self' body_html
                (get (absoluteBoundingBox selected) "width" (PInt 800))
                (get (absoluteBoundingBox selected) "height" (PInt 600))
    /\ last out "" = "Generating HTML...".
Proof. apply generate_html_returns. Qed.

Lemma generated_page_is_the_chosen_frame_witness :
  exists response file_data before selected after image_urls body_html,
    sample_network (file_url "KEY") = Answers response
    /\ status_code response = 200
    /\ json response = Some file_data
    /\ candidates file_data = (before ++ selected :: after)%list
    /\ (if nonempty (get_or None "")
        then node_name selected = None
             /\ Forall (fun f => node_name f <> None) before
        else before = [])
    /\ (if truthy (collect_image_nodes selected [])
        then get_image_fills sample_network "KEY"
                             (collect_image_nodes selected [])
             = Returns image_urls
        else image_urls = image_fills sample_converter)
    /\ node_to_html sample_atan2 2 selected None 0
                    {| image_fills := image_urls;
                       fonts_used := fonts_used sample_converter |}
       = Ok (body_html, converter_of sample_run)
    /\ page_of sample_run
       = build_complete_html
           sample_order (converter_of sample_run) body_html
           (get (absoluteBoundingBox selected) "width" (PInt 800))
           (get (absoluteBoundingBox selected) "height" (PInt 600))
    /\ last (fst sample_run) "" = "Generating HTML...".
Proof.
  apply (generated_page_is_the_chosen_frame
           sample_atan2 2 sample_order sample_network sample_converter
           "KEY" None
           (fst sample_run) (page_of sample_run) (converter_of sample_run)).
  vm_compute. reflexivity.
Defined.

Lemma add_fonts_In self fonts font :
  In font fonts -> In font (fonts_used (add_fonts self fonts)).
Proof.
  unfold add_fonts. revert self.
  induction fonts as [|f fonts IH]; intros self; [intros []|].
  cbn [fold_left]. intros [->|H]; [|now apply IH].
  assert (Hin : In font (fonts_used (add_font self font)))
    by (cbn [add_font fonts_used]; apply (proj1 (set_add_spec _ _))).
  revert Hin. generalize (add_font self font). clear.
  induction fonts as [|f fonts IH]; intros s Hs; [exact Hs|].
  cbn [fold_left]. apply IH. cbn [add_font fonts_used].
  now apply (proj1 (proj2 (set_add_spec f _))).
Qed.

(** X25. From the document to the page: when [generate_html] returns a
    page, the chosen frame is the first candidate in document order (or
    the first of the name asked for), and for every text node converted
    in that frame the page contains the [link] element to Google Fonts
    with the font family of the node as one of the entries of its
    family list ([+] for spaces), whatever the order in which the set
    of fonts is iterated. *)
Theorem generated_page_requests_the_rendered_fonts
        atan2 limit iteration_order requests_get self file_key frame_name
        out html self' :
  (forall fonts f, In f (iteration_order fonts) <-> In f fonts) ->
  generate_html atan2 limit iteration_order requests_get self file_key
                frame_name
  = (out, Returns (html, self')) ->
  exists response file_data before selected after,
    requests_get (file_url file_key) = Answers response
    /\ json response = Some file_data
    /\ candidates file_data = (before ++ selected :: after)%list
    /\ (if nonempty (get_or frame_name "")
        then node_name selected = frame_name
             /\ Forall (fun f => node_name f <> frame_name) before
        else before = [])
    /\ forall font,
        In font (rendered_fonts selected) ->
        exists fonts_before fonts_after,
          iteration_order (fonts_used self')
          = (fonts_before ++ font :: fonts_after)%list
          /\ contains (font_link (map replace_spaces fonts_before
                                   ++ replace_spaces font
                                   :: map replace_spaces fonts_after)%list)
                      html = true.
Proof.
  intros Hsame H.
  destruct (generate_html_returns _ _ _ _ _ _ _ _ _ _ H)
    as (response & file_data & before & selected & after & urls & body
        & Hr & _ & Hj & Hc & Hn & _ & Hw & -> & _).
  exists response, file_data, before, selected, after.
  repeat apply conj; try assumption.
  intros font Hf.
  apply node_to_html_fonts in Hw.
  apply page_font_link_of; [exact Hsame|].
  subst self'. now apply add_fonts_In.
Qed.

Lemma generated_page_requests_the_rendered_fonts_witness :
  exists response file_data before selected after,
    sample_network (file_url "KEY") = Answers response
    /\ json response = Some file_data
    /\ candidates file_data = (before ++ selected :: after)%list
    /\ (if nonempty (get_or None "")
        then node_name selected = None
             /\ Forall (fun f => node_name f <> None) before
        else before = [])
    /\ forall font,
        In font (rendered_fonts selected) ->
        exists fonts_before fonts_after,
          sample_order (fonts_used (converter_of sample_run))
          = (fonts_before ++ font :: fonts_after)%list
          /\ contains (font_link (map replace_spaces fonts_before
                                   ++ replace_spaces font
                                   :: map replace_spaces fonts_after)%list)
                      (page_of sample_run) = true.
Proof.
  apply (generated_page_requests_the_rendered_fonts
           sample_atan2 2 sample_order sample_network sample_converter
           "KEY" None
           (fst sample_run) (page_of sample_run) (converter_of sample_run)).
  - intros fonts f. unfold sample_order. symmetry. apply in_rev.
  - vm_compute. reflexivity.
Defined.

(** ** Exceptions *)

Lemma nle_ok {A} (a : A) : no_lookup_error (Ok a).
Proof. intros e. discriminate. Qed.

Lemma nle_raise {A} e : lookup_error e = false -> no_lookup_error (@Raise A e).
Proof. intros H e' [= <-]. exact H. Qed.

Lemma nle_bind {A B} (m : result A) (k : A -> result B) :
  no_lookup_error m -> (forall a, m = Ok a -> no_lookup_error (k a)) ->
  no_lookup_error (bind m k).
Proof.
  intros Hm Hk e. destruct m as [a|e']; cbn [bind].
  - exact (Hk a eq_refl e).
  - intros [= <-]. exact (Hm e' eq_refl).
Qed.

Lemma nle_for_loop {A S} (body : A -> S -> result S) l :
  Forall (fun x => forall s, no_lookup_error (body x s)) l ->
  forall s, no_lookup_error (for_loop body l s).
Proof.
  induction 1 as [|x l Hx _ IH]; intros s; cbn [for_loop].
  - apply nle_ok.
  - apply nle_bind; [apply Hx | intros; apply IH].
Qed.

Lemma nle_for_loop_all {A S} (body : A -> S -> result S) l s :
  (forall x s, no_lookup_error (body x s)) ->
  no_lookup_error (for_loop body l s).
Proof.
  intros H. apply nle_for_loop. apply Forall_forall. intros x _. apply H.
Qed.

Lemma nle_float_of_int z : no_lookup_error (float_of_int z).
Proof.
  unfold float_of_int.
  destruct (binary_normalize _ _ _ _ _);
    first [apply nle_ok | now apply nle_raise].
Qed.

Lemma nle_to_float n : no_lookup_error (to_float n).
Proof. destruct n; [apply nle_float_of_int | apply nle_ok]. Qed.

Lemma nle_arith zop fop a b : no_lookup_error (arith zop fop a b).
Proof.
  unfold arith.
  destruct a, b; try apply nle_ok;
    (apply nle_bind; [apply nle_to_float|]; intros;
     apply nle_bind; [apply nle_to_float|]; intros; apply nle_ok).
Qed.

Lemma nle_int_of n : no_lookup_error (int_of n).
Proof.
  destruct n; cbn [int_of]; [apply nle_ok|].
  unfold trunc_float.
  destruct (Prim2SF f); first [apply nle_ok | now apply nle_raise].
Qed.

Lemma nle_format_1f n : no_lookup_error (format_1f n).
Proof.
  unfold format_1f. apply nle_bind; [apply nle_to_float|].
  intros. apply nle_ok.
Qed.

Ltac nle_step :=
  first
    [ apply nle_ok
    | apply nle_arith
    | apply nle_to_float
    | apply nle_int_of
    | apply nle_format_1f
    | assumption
    | apply nle_bind; [|intros ? ?]
    | match goal with
      | |- no_lookup_error (let '(_, _) := ?p in _) => destruct p
      | |- no_lookup_error (if ?b then _ else _) => destruct b
      | |- no_lookup_error (match ?x with _ => _ end) => destruct x
      end ].

Lemma nle_channel c : no_lookup_error (Color.channel c).
Proof. unfold Color.channel, mul. repeat nle_step. Qed.

Lemma nle_to_css c : no_lookup_error (Color.to_css c).
Proof.
  unfold Color.to_css. pose proof nle_channel.
  repeat (apply nle_bind; [apply nle_channel | intros ? ?]).
  repeat nle_step.
Qed.

Lemma nle_faded_css c o : no_lookup_error (faded_css c o).
Proof.
  unfold faded_css, mul.
  apply nle_bind; [apply nle_arith | intros; apply nle_to_css].
Qed.

Lemma nle_stop_string s : no_lookup_error (stop_string s).
Proof.
  unfold stop_string, mul. cbv zeta.
  apply nle_bind; [apply nle_arith | intros].
  apply nle_bind; [apply nle_to_css | intros].
  repeat nle_step.
Qed.

Lemma nle_parse_gradient atan2 fill : no_lookup_error (parse_gradient atan2 fill).
Proof.
  unfold parse_gradient, gradient_angle, sub. cbv zeta.
  destruct (type_is _ _); [|apply nle_ok].
  destruct (gradientHandlePositions fill) as [|h0 [|h1 rest]];
    try apply nle_ok.
  apply nle_bind; [repeat nle_step | intros].
  apply nle_bind; [|intros; apply nle_ok].
  apply nle_for_loop_all. intros stop acc.
  apply nle_bind; [apply nle_stop_string | intros; apply nle_ok].
Qed.

Lemma nle_single_fill_css atan2 self fill node_id css :
  single_fill_css atan2 self fill node_id = Some css -> no_lookup_error css.
Proof.
  unfold single_fill_css. cbv zeta.
  destruct (type_is _ "SOLID"); [intros [= <-]; apply nle_faded_css|].
  destruct (type_is _ "GRADIENT_LINEAR");
    [intros [= <-]; apply nle_parse_gradient|].
  destruct (type_is _ "IMAGE"); [|discriminate].
  destruct (lookup _ _); intros [= <-]; apply nle_ok.
Qed.

Lemma nle_get_fills_css atan2 fuel : forall self fills node_id,
  no_lookup_error (get_fills_css atan2 fuel self fills node_id).
Proof.
  induction fuel as [|fuel IH]; intros self fills node_id;
    cbn [get_fills_css]; [now apply nle_raise|].
  destruct (negb (truthy fills) || _) eqn:E; [apply nle_ok|].
  apply orb_false_iff in E as [_ E]. apply negb_false_iff in E.
  cbv zeta.
  assert (Hne : filter (fun f => is_visible (paint_visible f)) fills <> []).
  { apply existsb_exists in E as (f & Hin & Hf).
    intros H. assert (Hi : In f (filter (fun f => is_visible (paint_visible f)) fills))
      by (apply filter_In; auto).
    rewrite H in Hi. destruct Hi. }
  destruct (filter _ fills) as [|f tl]; [congruence|].
  destruct tl as [|f2 tl].
  - destruct (single_fill_css atan2 self f node_id) as [css|] eqn:Hs.
    + eapply nle_single_fill_css; eassumption.
    + cbn [index nth_error bind]. apply IH.
  - cbn [index nth_error bind]. apply IH.
Qed.

Lemma nle_get_strokes_css node : no_lookup_error (get_strokes_css node).
Proof.
  unfold get_strokes_css. cbv zeta.
  destruct (_ || _); [apply nle_ok|].
  destruct (find _ _); [|apply nle_ok].
  apply nle_bind; [|intros; apply nle_ok].
  destruct (type_is _ _); [apply nle_faded_css | apply nle_ok].
Qed.

Lemma nle_get_effects_css effects : no_lookup_error (get_effects_css effects).
Proof.
  unfold get_effects_css. apply nle_for_loop_all. intros e acc. cbv zeta.
  destruct (negb _); [apply nle_ok|].
  destruct (_ || _).
  - apply nle_bind; [apply nle_to_css | intros; apply nle_ok].
  - destruct (type_is _ _); apply nle_ok.
Qed.

Lemma get_border_radius_returns node :
  exists css, get_border_radius node = Ok css.
Proof.
  unfold get_border_radius.
  destruct (lookup _ _); [now eexists|].
  assert (Ha : exists css, alias_radius node = Ok css)
    by (rewrite alias_radius_spec; now eexists).
  destruct (rectangleCornerRadii node) as [radii|]; [|exact Ha].
  destruct (List.length radii =? 4)%nat eqn:E; [|exact Ha].
  apply Nat.eqb_eq in E.
  destruct radii as [|a [|b [|c [|d [|x r]]]]]; try discriminate.
  rewrite radii_css_four. now eexists.
Qed.

Lemma nle_get_border_radius node : no_lookup_error (get_border_radius node).
Proof.
  destruct (get_border_radius_returns node) as [css ->]. apply nle_ok.
Qed.

Lemma nle_get_text_styles atan2 limit self node :
  no_lookup_error (get_text_styles atan2 limit self node).
Proof.
  unfold get_text_styles. cbv zeta.
  destruct (truthy (fills node)); [|apply nle_ok].
  apply nle_bind; [apply nle_get_fills_css | intros; apply nle_ok].
Qed.

Lemma nle_collect_children walk cs self :
  Forall (fun c => forall s, no_lookup_error (walk c s)) cs ->
  no_lookup_error (collect_children walk cs self).
Proof.
  intros H. unfold collect_children. apply nle_for_loop.
  eapply Forall_impl; [|exact H]. intros c Hc [parts s].
  unfold append_child. apply nle_bind; [apply Hc|].
  intros [h s'] _. destruct (nonempty h); apply nle_ok.
Qed.

Lemma nle_node_to_html atan2 limit node : forall parent_box depth self,
  no_lookup_error (node_to_html atan2 limit node parent_box depth self).
Proof.
  induction node as [node IH] using Node_ind.
  intros parent_box depth self.
  destruct node as [ty id nm vis bb cs fl st ef chs sty rr nums].
  cbn [children] in IH.
  cbn [node_to_html node_visible absoluteBoundingBox node_type
       node_id node_name children fills effects characters node_nums].
  cbv zeta.
  assert (Hc : forall pb d s,
             no_lookup_error
               (collect_children
                  (fun child self => node_to_html atan2 limit child pb d self)
                  cs s)).
  { intros pb d s. apply nle_collect_children.
    eapply Forall_impl; [|exact IH]. intros c H s'. apply H. }
  destruct (negb (is_visible vis)); [apply nle_ok|].
  destruct (negb (truthy bb)).
  { apply nle_bind; [apply Hc | intros [p s] _; apply nle_ok]. }
  apply nle_bind.
  { unfold sub. repeat nle_step. }
  intros [rel_x rel_y] _.
  destruct (String.eqb ty "TEXT").
  - apply nle_bind; [apply nle_get_text_styles | intros [ts s1] _].
    apply nle_bind.
    { destruct fl as [|f fl']; [apply nle_ok|].
      destruct (negb _); [|apply nle_ok].
      apply nle_bind; [apply nle_get_fills_css | intros].
      destruct (negb _); apply nle_ok. }
    intros styles2 _.
    apply nle_bind; [|intros; apply nle_ok].
    destruct (truthy ef); [|apply nle_ok].
    apply nle_bind; [apply nle_get_effects_css | intros].
    destruct (truthy _); apply nle_ok.
  - apply nle_bind.
    { destruct (truthy fl); [|apply nle_ok].
      apply nle_bind; [apply nle_get_fills_css | intros; apply nle_ok]. }
    intros styles1 _.
    apply nle_bind; [apply nle_get_strokes_css | intros [[bw bs] bc] _].
    apply nle_bind; [apply nle_get_border_radius | intros br _].
    apply nle_bind.
    { destruct (truthy ef); [|apply nle_ok].
      apply nle_bind; [apply nle_get_effects_css | intros].
      destruct (truthy _); apply nle_ok. }
    intros styles4 _.
    apply nle_bind; [apply Hc | intros [parts s2] _].
    destruct (truthy parts); apply nle_ok.
Qed.

(** X26. Every direct lookup of the walk and of the resolvers it calls
    is guarded: [visible_fills[0]], [radii[0]] to [radii[3]] and
    [corner_names[corner]] are never out of range or without the key.
    When [node_to_html] raises, the exception is never an [IndexError]
    or a [KeyError]: it is a [ValueError] or an [OverflowError] of the
    arithmetic on the numbers of the document, or the [RecursionError]
    of [get_fills_css]. *)
Theorem lookups_never_fail atan2 limit node parent_box depth self e :
  node_to_html atan2 limit node parent_box depth self = Raise e ->
  lookup_error e = false.
Proof. apply nle_node_to_html. Qed.

Lemma lookups_never_fail_witness : lookup_error RecursionError = false.
Proof.
  apply (lookups_never_fail sample_atan2 2 radial_patch None 0
                            sample_converter RecursionError).
  vm_compute. reflexivity.
Defined.



